(** * page-zen: the article cleaning pipeline of [internal/utils]

    A shallow embedding of the content extraction and cleaning code of the
    page-zen service: the URL resolver, the selector based pruner, the image
    rewriter, the Open Graph / Twitter Card extractor, the text normaliser,
    the excerpt generator and the orchestration that assembles a
    [CleanedArticle].  The code comes in two shapes: the methods of
    [ArticleCleaner] (module [Cleaner]) and the earlier free-standing
    functions of [cleaner.go], of which [extractOpenGraphData] differs
    (module [Legacy]).

    Go strings are byte sequences; they are modelled by [string], whose
    characters ([ascii]) are exactly the 256 byte values.  [len s] is the
    number of bytes, [s[:n]] a byte slice.  Go's [int] is taken to be 64 bits
    wide.  The HTML parser, the HTTP client, the readability library and the
    Markdown converter are external to the repository: they appear as the
    fields of an environment record. *)

From Stdlib Require Import String Ascii List ZArith Lia Bool Arith Permutation.
Import ListNotations.

#[local] Set Warnings "-register-all".

Local Open Scope list_scope.
Local Open Scope string_scope.

(* ================================================================= *)
(** ** The parts of Go's [strings] and [strconv] packages the code uses *)

Module strings.

Definition byte := ascii.

Definition code (c : byte) : nat := nat_of_ascii c.

(** [strings.HasPrefix(s, prefix)] *)
Fixpoint HasPrefix (s pre : string) {struct pre} : bool :=
  match pre with
  | EmptyString => true
  | String a p =>
      match s with
      | EmptyString => false
      | String b r => Ascii.eqb b a && HasPrefix r p
      end
  end.

(** [s[n:]] for [n <= len(s)] *)
Fixpoint skip (n : nat) (s : string) : string :=
  match n, s with
  | O, _ => s
  | S _, EmptyString => EmptyString
  | S k, String _ r => skip k r
  end.

(** [s[:n]] for [n <= len(s)] *)
Fixpoint take (n : nat) (s : string) : string :=
  match n, s with
  | O, _ => EmptyString
  | S _, EmptyString => EmptyString
  | S k, String c r => String c (take k r)
  end.

(** [strings.HasSuffix(s, suffix)] *)
Definition HasSuffix (s suf : string) : bool :=
  (String.length suf <=? String.length s)%nat
  && String.eqb (skip (String.length s - String.length suf) s) suf.

(** [strings.TrimSuffix(s, suffix)] *)
Definition TrimSuffix (s suf : string) : string :=
  if HasSuffix s suf then take (String.length s - String.length suf) s else s.

(** [strings.Replace(s, old, new, 1)] for a non-empty [old]: the first
    occurrence of [old], scanning from the left, is replaced. *)
Fixpoint ReplaceFirst (s old new : string) : string :=
  if HasPrefix s old then new ++ skip (String.length old) s
  else match s with
       | EmptyString => EmptyString
       | String c r => String c (ReplaceFirst r old new)
       end.

(** [strings.Split(s, sep)] for a one byte separator.  The result always
    has at least one element. *)
Fixpoint Split (s : string) (sep : byte) : list string :=
  match s with
  | EmptyString => [EmptyString]
  | String c r =>
      if Ascii.eqb c sep then EmptyString :: Split r sep
      else match Split r sep with
           | h :: t => String c h :: t
           | [] => [String c EmptyString]
           end
  end.

(** [strings.LastIndex(s, sep)] for a one byte separator: the index of the
    last occurrence, [-1] when there is none. *)
Fixpoint lastIndexFrom (s : string) (sep : byte) (i last : Z) : Z :=
  match s with
  | EmptyString => last
  | String c r =>
      lastIndexFrom r sep (i + 1) (if Ascii.eqb c sep then i else last)
  end.

Definition LastIndex (s : string) (sep : byte) : Z :=
  lastIndexFrom s sep 0 (-1).

(** White space as [unicode.IsSpace] sees it once the bytes are decoded as
    UTF-8: the ASCII bytes 09..0D and 20, and the encodings of U+0085,
    U+00A0, U+1680, U+2000..U+200A, U+2028, U+2029, U+202F, U+205F and
    U+3000.  Every such encoding starts with a byte that is no UTF-8
    continuation byte, so an occurrence in a byte string is always decoded
    as that rune.  [spaceWidth s] is the width in bytes of the white space
    rune at the head of [s], and [0] when [s] does not start with one. *)
Definition isAsciiSpace (c : byte) : bool :=
  let n := code c in ((9 <=? n) && (n <=? 13) || (n =? 32))%nat.

Definition spaceWidth (s : string) : nat :=
  match s with
  | EmptyString => 0
  | String c0 r0 =>
      if isAsciiSpace c0 then 1
      else match r0 with
           | EmptyString => 0
           | String c1 r1 =>
               let n0 := code c0 in
               let n1 := code c1 in
               if ((n0 =? 194) && ((n1 =? 133) || (n1 =? 160)))%nat then 2
               else match r1 with
                    | EmptyString => 0
                    | String c2 _ =>
                        let n2 := code c2 in
                        if (((n0 =? 225) && (n1 =? 154) && (n2 =? 128))
                            || ((n0 =? 226) && (n1 =? 128)
                                && (((128 <=? n2) && (n2 <=? 138))
                                    || (n2 =? 168) || (n2 =? 169)
                                    || (n2 =? 175)))
                            || ((n0 =? 226) && (n1 =? 129) && (n2 =? 159))
                            || ((n0 =? 227) && (n1 =? 128) && (n2 =? 128)))%nat
                        then 3 else 0
                    end
           end
  end.

(** The same test read from the end of a string: [s] is given reversed,
    last byte first. *)
Definition spaceWidthRev (s : string) : nat :=
  match s with
  | EmptyString => 0
  | String c0 r0 =>
      if isAsciiSpace c0 then 1
      else match r0 with
           | EmptyString => 0
           | String c1 r1 =>
               if (spaceWidth (String c1 (String c0 EmptyString)) =? 2)%nat
               then 2
               else match r1 with
                    | EmptyString => 0
                    | String c2 _ =>
                        if (spaceWidth
                              (String c2 (String c1 (String c0 EmptyString)))
                            =? 3)%nat
                        then 3 else 0
                    end
           end
  end.

Fixpoint reverseOnto (s acc : string) : string :=
  match s with
  | EmptyString => acc
  | String c r => reverseOnto r (String c acc)
  end.

Definition reverse (s : string) : string := reverseOnto s EmptyString.

(** Drops white space runes from the head of [s]; [pending] bytes of a
    rune already recognised are still to be dropped. *)
Fixpoint trimHead (width : string -> nat) (s : string) (pending : nat)
  : string :=
  match s with
  | EmptyString => EmptyString
  | String _ r =>
      match pending with
      | S k => trimHead width r k
      | O => match width s with
             | O => s
             | S k => trimHead width r k
             end
      end
  end.

(** [strings.TrimSpace(s)] *)
Definition TrimSpace (s : string) : string :=
  reverse (trimHead spaceWidthRev (reverse (trimHead spaceWidth s 0)) 0).

(** [strings.Fields(s)]: the maximal runs of bytes between white space
    runes.  [cur] is the field being read, reversed; [None] between
    fields. *)
Definition flush (cur : option string) : list string :=
  match cur with
  | None => []
  | Some f => [reverse f]
  end.

Fixpoint fieldsFrom (s : string) (pending : nat) (cur : option string)
  : list string :=
  match s with
  | EmptyString => flush cur
  | String c r =>
      match pending with
      | S k => fieldsFrom r k cur
      | O =>
          match spaceWidth s with
          | O => fieldsFrom r 0
                   (Some (String c (match cur with
                                    | None => EmptyString
                                    | Some f => f
                                    end)))
          | S k => (flush cur ++ fieldsFrom r k None)%list
          end
      end
  end.

Definition Fields (s : string) : list string := fieldsFrom s 0 None.

End strings.

Module strconv.

Definition maxInt : Z := 9223372036854775807.
Definition minInt : Z := -9223372036854775808.

Definition digit (c : ascii) : option Z :=
  let n := nat_of_ascii c in
  if ((48 <=? n) && (n <=? 57))%nat then Some (Z.of_nat n - 48)%Z else None.

Fixpoint digits (s : string) (acc : Z) : option Z :=
  match s with
  | EmptyString => Some acc
  | String c r =>
      match digit c with
      | Some d => digits r (acc * 10 + d)%Z
      | None => None
      end
  end.

(** [strconv.Atoi(s)]: an optional sign, then one or more decimal digits,
    the value within the range of [int].  [None] stands for a non-nil
    error (syntax or range). *)
Definition Atoi (s : string) : option Z :=
  match s with
  | EmptyString => None
  | String c r =>
      let neg := Ascii.eqb c "-" in
      let body := if neg || Ascii.eqb c "+" then r else s in
      match body with
      | EmptyString => None
      | _ =>
          match digits body 0 with
          | None => None
          | Some n =>
              let v := if neg then (- n)%Z else n in
              if ((minInt <=? v) && (v <=? maxInt))%Z then Some v else None
          end
      end
  end.

End strconv.

(* ================================================================= *)
(** ** [net/url]: [url.URL], with the two fields the cleaner reads and the
       path *)

Module url.

Record URL : Type := mkURL { Scheme : string; Host : string; Path : string }.

End url.

(* ================================================================= *)
(** ** The document tree ([golang.org/x/net/html]) and the [goquery] /
       [cascadia] operations the cleaner calls *)

Module html.

Record Attribute : Type := mkAttr { Key : string; Val : string }.

Inductive Node : Type :=
| TextNode (Data : string)
| CommentNode (Data : string)
| ElementNode (Data : string) (Attr : list Attribute) (Children : list Node).

(** A parsed document: the children of the document node. *)
Definition Document : Type := list Node.

(** [Selection.Attr(name)] on one node: the value of the first attribute
    with that key. *)
Fixpoint getAttr (name : string) (attrs : list Attribute) : option string :=
  match attrs with
  | [] => None
  | a :: rest => if String.eqb (Key a) name then Some (Val a)
                 else getAttr name rest
  end.

(** [Selection.SetAttr(name, val)] on one node: the first attribute with
    that key is overwritten, or a new one is appended. *)
Fixpoint setAttr (name val : string) (attrs : list Attribute)
  : list Attribute :=
  match attrs with
  | [] => [mkAttr name val]
  | a :: rest => if String.eqb (Key a) name then mkAttr name val :: rest
                 else a :: setAttr name val rest
  end.

(** [Selection.RemoveAttr(name)] on one node: the first attribute with
    that key is overwritten by the last attribute and the slice is
    shortened by one. *)
Fixpoint removeAttr (name : string) (attrs : list Attribute)
  : list Attribute :=
  match attrs with
  | [] => []
  | a :: rest =>
      if String.eqb (Key a) name then
        match rest with
        | [] => []
        | _ => List.last rest a :: List.removelast rest
        end
      else a :: removeAttr name rest
  end.

(** The selectors that occur in the cleaner: a compound selector is a
    conjunction of simple ones. *)
Inductive Simple : Type :=
| Tag (name : string)                  (* name *)
| Class (name : string)                (* .name *)
| AttrEquals (key val : string)        (* [key='val'] *)
| AttrPrefix (key val : string)        (* [key^='val'] *)
| AttrContains (key val : string)      (* [key*='val'] *)
| Not (inner : list Simple).           (* :not(inner) *)

Definition Selector : Type := list Simple.

(** [strings.Contains(s, sub)] *)
Fixpoint Contains (s sub : string) : bool :=
  strings.HasPrefix s sub
  || match s with
     | EmptyString => false
     | String _ r => Contains r sub
     end.

(** cascadia's [matchInclude]: [val] is one of the tokens of [s], the
    tokens being separated by single bytes out of space, tab, CR, LF, FF.
    [cur] is the token being read, reversed. *)
Definition isClassSep (c : ascii) : bool :=
  let n := nat_of_ascii c in
  ((n =? 32) || (n =? 9) || (n =? 13) || (n =? 10) || (n =? 12))%nat.

Fixpoint includesFrom (s val cur : string) : bool :=
  match s with
  | EmptyString =>
      (* the loop runs while [s != ""]: an empty last token is never
         compared *)
      match cur with
      | EmptyString => false
      | _ => String.eqb (strings.reverse cur) val
      end
  | String c r =>
      if isClassSep c
      then String.eqb (strings.reverse cur) val
           || includesFrom r val EmptyString
      else includesFrom r val (String c cur)
  end.

Definition matchInclude (val s : string) : bool :=
  includesFrom s val EmptyString.

(** cascadia's [matchAttribute]: some attribute with the key satisfies
    the test. *)
Definition matchAttribute (attrs : list Attribute) (key : string)
           (f : string -> bool) : bool :=
  existsb (fun a => String.eqb (Key a) key && f (Val a)) attrs.

Fixpoint matchSimple (tag : string) (attrs : list Attribute) (s : Simple)
  {struct s} : bool :=
  match s with
  | Tag name => String.eqb tag name
  | Class name => matchAttribute attrs "class" (matchInclude name)
  | AttrEquals key val => matchAttribute attrs key (String.eqb val)
  | AttrPrefix key val =>
      negb (String.eqb val "")
      && matchAttribute attrs key (fun s => strings.HasPrefix s val)
  | AttrContains key val =>
      negb (String.eqb val "")
      && matchAttribute attrs key (fun s => Contains s val)
  | Not inner =>
      negb ((fix all (l : list Simple) : bool :=
               match l with
               | [] => true
               | x :: r => matchSimple tag attrs x && all r
               end) inner)
  end.

(** A selector matches element nodes only. *)
Definition matches (sel : Selector) (n : Node) : bool :=
  match n with
  | ElementNode tag attrs _ => forallb (matchSimple tag attrs) sel
  | _ => false
  end.

(** The nodes of the subtree at [n], [n] included, that satisfy [m], in
    document order. *)
Fixpoint findAll (m : Node -> bool) (n : Node) : list Node :=
  match n with
  | ElementNode _ _ kids =>
      ((if m n then [n] else []) ++ flat_map (findAll m) kids)%list
  | _ => if m n then [n] else []
  end.

(** [doc.Find(selector)] *)
Definition Find (doc : Document) (sel : Selector) : list Node :=
  flat_map (findAll (matches sel)) doc.

(** [s.Find(selector)] for a selection of one node: its descendants. *)
Definition FindIn (n : Node) (sel : Selector) : list Node :=
  match n with
  | ElementNode _ _ kids => flat_map (findAll (matches sel)) kids
  | _ => []
  end.

Definition nodeAttr (n : Node) (name : string) : option string :=
  match n with
  | ElementNode _ attrs _ => getAttr name attrs
  | _ => None
  end.

(** [Selection.Attr(name)]: the attribute of the first node of the
    selection. *)
Definition Attr (sel : list Node) (name : string) : option string :=
  match sel with
  | [] => None
  | n :: _ => nodeAttr n name
  end.

(** [Selection.Text()] for one node: the text nodes below it,
    concatenated. *)
Fixpoint nodeText (n : Node) : string :=
  match n with
  | TextNode d => d
  | CommentNode _ => EmptyString
  | ElementNode _ _ kids =>
      fold_right (fun k acc => nodeText k ++ acc) EmptyString kids
  end.

Definition Text (sel : list Node) : string :=
  fold_right (fun k acc => nodeText k ++ acc) EmptyString sel.

(** [Selection.First()] *)
Definition First (sel : list Node) : list Node :=
  match sel with
  | [] => []
  | n :: _ => [n]
  end.

(** [doc.Find(selector).Remove()]: every matching node is detached from
    its parent, with its subtree. *)
Fixpoint detach (m : Node -> bool) (n : Node) : list Node :=
  if m n then []
  else match n with
       | ElementNode tag attrs kids =>
           [ElementNode tag attrs (flat_map (detach m) kids)]
       | _ => [n]
       end.

Definition Remove (doc : Document) (sel : Selector) : Document :=
  flat_map (detach (matches sel)) doc.

End html.

(* ================================================================= *)
(** ** The fragment of Go's [regexp] the text normaliser needs

    The patterns of [cleanTextContent] are sequences of single byte classes,
    greedy repetitions of such classes and case-insensitive letters.  A
    pattern is matched by backtracking in preference order, which is the
    match Go's [regexp] reports (leftmost, and among those the one a
    backtracking search finds first).  All patterns start with an ASCII
    byte or with the lead byte of a folded letter, so matching over bytes
    and matching over decoded runes agree. *)

Module regexp.

Inductive Class : Type :=
| Newline        (* \n *)
| Blank          (* [ \t] *)
| Space.         (* \s, which is [\t\n\f\r ] in Go's syntax *)

Definition inClass (k : Class) (c : ascii) : bool :=
  let n := nat_of_ascii c in
  match k with
  | Newline => (n =? 10)%nat
  | Blank => ((n =? 32) || (n =? 9))%nat
  | Space => ((n =? 9) || (n =? 10) || (n =? 12) || (n =? 13) || (n =? 32))%nat
  end.

Inductive Item : Type :=
| One (k : Class)        (* one byte of the class *)
| Star (k : Class)       (* k*, greedy *)
| Fold (c : ascii)       (* the lower case letter c under (?i) *)
| OptFold (c : ascii).   (* c? under (?i), greedy *)

Definition Regexp : Type := list Item.

(** The runes that fold to the lower case ASCII letter [c]
    ([unicode.SimpleFold]): the letter, its capital, and for [k] and [s]
    the Kelvin sign U+212A and the long s U+017F, in UTF-8. *)
Definition orbit (c : ascii) : list string :=
  [String c EmptyString;
   String (ascii_of_nat (nat_of_ascii c - 32)) EmptyString]
  ++ (if Ascii.eqb c "k"
      then [String "226" (String "132" (String "170" EmptyString))]
      else if Ascii.eqb c "s"
           then [String "197" (String "191" EmptyString)]
           else [])%list.

Fixpoint stripAny (alts : list string) (s : string) : option string :=
  match alts with
  | [] => None
  | a :: rest =>
      if strings.HasPrefix s a then Some (strings.skip (String.length a) s)
      else stripAny rest s
  end.

(** [matchHere re s]: the rest of [s] after the preferred match of [re]
    anchored at the head of [s]. *)
Fixpoint matchHere (re : Regexp) (s : string) {struct re} : option string :=
  match re with
  | [] => Some s
  | One k :: re' =>
      match s with
      | String c r => if inClass k c then matchHere re' r else None
      | EmptyString => None
      end
  | Star k :: re' =>
      (fix star (s : string) : option string :=
         match s with
         | String c r =>
             if inClass k c
             then match star r with
                  | Some rest => Some rest
                  | None => matchHere re' s
                  end
             else matchHere re' s
         | EmptyString => matchHere re' s
         end) s
  | Fold c :: re' =>
      match stripAny (orbit c) s with
      | Some r => matchHere re' r
      | None => None
      end
  | OptFold c :: re' =>
      match match stripAny (orbit c) s with
            | Some r => matchHere re' r
            | None => None
            end with
      | Some rest => Some rest
      | None => matchHere re' s
      end
  end.

(** [re.ReplaceAllString(s, repl)] for a pattern that never matches the
    empty string and a replacement without [$]: the successive leftmost
    matches are replaced.  [pending] bytes of the current match are still
    to be dropped. *)
Fixpoint replaceFrom (re : Regexp) (repl s : string) (pending : nat)
  : string :=
  match s with
  | EmptyString => EmptyString
  | String c r =>
      match pending with
      | S k => replaceFrom re repl r k
      | O =>
          match matchHere re s with
          | Some rest =>
              match (String.length s - String.length rest)%nat with
              | O => String c (replaceFrom re repl r 0)
              | S k => repl ++ replaceFrom re repl r k
              end
          | None => String c (replaceFrom re repl r 0)
          end
      end
  end.

Definition ReplaceAllString (re : Regexp) (s repl : string) : string :=
  replaceFrom re repl s 0.

(** A word under (?i), and \s+ *)
Definition word (w : string) : Regexp := map Fold (list_ascii_of_string w).
Definition spaces : Regexp := [One Space; Star Space].

End regexp.

(* ================================================================= *)
(** ** The data model *)

(** [OpenGraphData]; the field [Type] is spelled [og_Type]. *)
Record OpenGraphData : Type := mkOpenGraphData {
  og_Title : string;
  og_Description : string;
  og_Image : string;
  og_URL : string;
  og_Type : string;
  og_SiteName : string;
  og_Locale : string;
  og_TwitterCard : string;
  og_TwitterSite : string;
  og_TwitterCreator : string;
  og_TwitterTitle : string;
  og_TwitterDescription : string;
  og_TwitterImage : string;
  og_Author : string;
  og_PublishedAt : string;
  og_ModifiedAt : string;
  og_Section : string;
  og_Tags : list string
}.

(** [&OpenGraphData{}] *)
Definition emptyOpenGraphData : OpenGraphData :=
  mkOpenGraphData "" "" "" "" "" "" "" "" "" "" "" "" "" "" "" "" "" [].

Record CleanedArticle : Type := mkCleanedArticle {
  Title : string;
  Content : string;
  Markdown : string;
  URL : string;
  Author : string;
  Excerpt : string;
  Length : Z;
  PublishedAt : string;
  OpenGraph : option OpenGraphData      (* nil or a pointer *)
}.

(** [CleanedArticle{}], the zero value *)
Definition zeroCleanedArticle : CleanedArticle :=
  mkCleanedArticle "" "" "" "" "" "" 0 "" None.

(** Assignments to the fields of an [*OpenGraphData]. *)
Definition setTitle (v : string) (o : OpenGraphData) : OpenGraphData :=
  mkOpenGraphData v (og_Description o) (og_Image o) (og_URL o) (og_Type o)
    (og_SiteName o) (og_Locale o) (og_TwitterCard o) (og_TwitterSite o)
    (og_TwitterCreator o) (og_TwitterTitle o) (og_TwitterDescription o)
    (og_TwitterImage o) (og_Author o) (og_PublishedAt o) (og_ModifiedAt o)
    (og_Section o) (og_Tags o).
Definition setDescription (v : string) (o : OpenGraphData) : OpenGraphData :=
  mkOpenGraphData (og_Title o) v (og_Image o) (og_URL o) (og_Type o)
    (og_SiteName o) (og_Locale o) (og_TwitterCard o) (og_TwitterSite o)
    (og_TwitterCreator o) (og_TwitterTitle o) (og_TwitterDescription o)
    (og_TwitterImage o) (og_Author o) (og_PublishedAt o) (og_ModifiedAt o)
    (og_Section o) (og_Tags o).
Definition setImage (v : string) (o : OpenGraphData) : OpenGraphData :=
  mkOpenGraphData (og_Title o) (og_Description o) v (og_URL o) (og_Type o)
    (og_SiteName o) (og_Locale o) (og_TwitterCard o) (og_TwitterSite o)
    (og_TwitterCreator o) (og_TwitterTitle o) (og_TwitterDescription o)
    (og_TwitterImage o) (og_Author o) (og_PublishedAt o) (og_ModifiedAt o)
    (og_Section o) (og_Tags o).
Definition setURL (v : string) (o : OpenGraphData) : OpenGraphData :=
  mkOpenGraphData (og_Title o) (og_Description o) (og_Image o) v (og_Type o)
    (og_SiteName o) (og_Locale o) (og_TwitterCard o) (og_TwitterSite o)
    (og_TwitterCreator o) (og_TwitterTitle o) (og_TwitterDescription o)
    (og_TwitterImage o) (og_Author o) (og_PublishedAt o) (og_ModifiedAt o)
    (og_Section o) (og_Tags o).
Definition setType (v : string) (o : OpenGraphData) : OpenGraphData :=
  mkOpenGraphData (og_Title o) (og_Description o) (og_Image o) (og_URL o) v
    (og_SiteName o) (og_Locale o) (og_TwitterCard o) (og_TwitterSite o)
    (og_TwitterCreator o) (og_TwitterTitle o) (og_TwitterDescription o)
    (og_TwitterImage o) (og_Author o) (og_PublishedAt o) (og_ModifiedAt o)
    (og_Section o) (og_Tags o).
Definition setSiteName (v : string) (o : OpenGraphData) : OpenGraphData :=
  mkOpenGraphData (og_Title o) (og_Description o) (og_Image o) (og_URL o)
    (og_Type o) v (og_Locale o) (og_TwitterCard o) (og_TwitterSite o)
    (og_TwitterCreator o) (og_TwitterTitle o) (og_TwitterDescription o)
    (og_TwitterImage o) (og_Author o) (og_PublishedAt o) (og_ModifiedAt o)
    (og_Section o) (og_Tags o).
Definition setLocale (v : string) (o : OpenGraphData) : OpenGraphData :=
  mkOpenGraphData (og_Title o) (og_Description o) (og_Image o) (og_URL o)
    (og_Type o) (og_SiteName o) v (og_TwitterCard o) (og_TwitterSite o)
    (og_TwitterCreator o) (og_TwitterTitle o) (og_TwitterDescription o)
    (og_TwitterImage o) (og_Author o) (og_PublishedAt o) (og_ModifiedAt o)
    (og_Section o) (og_Tags o).
Definition setTwitterCard (v : string) (o : OpenGraphData) : OpenGraphData :=
  mkOpenGraphData (og_Title o) (og_Description o) (og_Image o) (og_URL o)
    (og_Type o) (og_SiteName o) (og_Locale o) v (og_TwitterSite o)
    (og_TwitterCreator o) (og_TwitterTitle o) (og_TwitterDescription o)
    (og_TwitterImage o) (og_Author o) (og_PublishedAt o) (og_ModifiedAt o)
    (og_Section o) (og_Tags o).
Definition setTwitterSite (v : string) (o : OpenGraphData) : OpenGraphData :=
  mkOpenGraphData (og_Title o) (og_Description o) (og_Image o) (og_URL o)
    (og_Type o) (og_SiteName o) (og_Locale o) (og_TwitterCard o) v
    (og_TwitterCreator o) (og_TwitterTitle o) (og_TwitterDescription o)
    (og_TwitterImage o) (og_Author o) (og_PublishedAt o) (og_ModifiedAt o)
    (og_Section o) (og_Tags o).
Definition setTwitterCreator (v : string) (o : OpenGraphData)
  : OpenGraphData :=
  mkOpenGraphData (og_Title o) (og_Description o) (og_Image o) (og_URL o)
    (og_Type o) (og_SiteName o) (og_Locale o) (og_TwitterCard o)
    (og_TwitterSite o) v (og_TwitterTitle o) (og_TwitterDescription o)
    (og_TwitterImage o) (og_Author o) (og_PublishedAt o) (og_ModifiedAt o)
    (og_Section o) (og_Tags o).
Definition setTwitterTitle (v : string) (o : OpenGraphData) : OpenGraphData :=
  mkOpenGraphData (og_Title o) (og_Description o) (og_Image o) (og_URL o)
    (og_Type o) (og_SiteName o) (og_Locale o) (og_TwitterCard o)
    (og_TwitterSite o) (og_TwitterCreator o) v (og_TwitterDescription o)
    (og_TwitterImage o) (og_Author o) (og_PublishedAt o) (og_ModifiedAt o)
    (og_Section o) (og_Tags o).
Definition setTwitterDescription (v : string) (o : OpenGraphData)
  : OpenGraphData :=
  mkOpenGraphData (og_Title o) (og_Description o) (og_Image o) (og_URL o)
    (og_Type o) (og_SiteName o) (og_Locale o) (og_TwitterCard o)
    (og_TwitterSite o) (og_TwitterCreator o) (og_TwitterTitle o) v
    (og_TwitterImage o) (og_Author o) (og_PublishedAt o) (og_ModifiedAt o)
    (og_Section o) (og_Tags o).
Definition setTwitterImage (v : string) (o : OpenGraphData) : OpenGraphData :=
  mkOpenGraphData (og_Title o) (og_Description o) (og_Image o) (og_URL o)
    (og_Type o) (og_SiteName o) (og_Locale o) (og_TwitterCard o)
    (og_TwitterSite o) (og_TwitterCreator o) (og_TwitterTitle o)
    (og_TwitterDescription o) v (og_Author o) (og_PublishedAt o)
    (og_ModifiedAt o) (og_Section o) (og_Tags o).
Definition setAuthor (v : string) (o : OpenGraphData) : OpenGraphData :=
  mkOpenGraphData (og_Title o) (og_Description o) (og_Image o) (og_URL o)
    (og_Type o) (og_SiteName o) (og_Locale o) (og_TwitterCard o)
    (og_TwitterSite o) (og_TwitterCreator o) (og_TwitterTitle o)
    (og_TwitterDescription o) (og_TwitterImage o) v (og_PublishedAt o)
    (og_ModifiedAt o) (og_Section o) (og_Tags o).
Definition setPublishedAt (v : string) (o : OpenGraphData) : OpenGraphData :=
  mkOpenGraphData (og_Title o) (og_Description o) (og_Image o) (og_URL o)
    (og_Type o) (og_SiteName o) (og_Locale o) (og_TwitterCard o)
    (og_TwitterSite o) (og_TwitterCreator o) (og_TwitterTitle o)
    (og_TwitterDescription o) (og_TwitterImage o) (og_Author o) v
    (og_ModifiedAt o) (og_Section o) (og_Tags o).
Definition setModifiedAt (v : string) (o : OpenGraphData) : OpenGraphData :=
  mkOpenGraphData (og_Title o) (og_Description o) (og_Image o) (og_URL o)
    (og_Type o) (og_SiteName o) (og_Locale o) (og_TwitterCard o)
    (og_TwitterSite o) (og_TwitterCreator o) (og_TwitterTitle o)
    (og_TwitterDescription o) (og_TwitterImage o) (og_Author o)
    (og_PublishedAt o) v (og_Section o) (og_Tags o).
Definition setSection (v : string) (o : OpenGraphData) : OpenGraphData :=
  mkOpenGraphData (og_Title o) (og_Description o) (og_Image o) (og_URL o)
    (og_Type o) (og_SiteName o) (og_Locale o) (og_TwitterCard o)
    (og_TwitterSite o) (og_TwitterCreator o) (og_TwitterTitle o)
    (og_TwitterDescription o) (og_TwitterImage o) (og_Author o)
    (og_PublishedAt o) (og_ModifiedAt o) v (og_Tags o).
Definition appendTag (v : string) (o : OpenGraphData) : OpenGraphData :=
  mkOpenGraphData (og_Title o) (og_Description o) (og_Image o) (og_URL o)
    (og_Type o) (og_SiteName o) (og_Locale o) (og_TwitterCard o)
    (og_TwitterSite o) (og_TwitterCreator o) (og_TwitterTitle o)
    (og_TwitterDescription o) (og_TwitterImage o) (og_Author o)
    (og_PublishedAt o) (og_ModifiedAt o) (og_Section o)
    (og_Tags o ++ [v])%list.

(* ================================================================= *)
(** ** What the cleaner takes from outside the repository *)

(** An [error] value, by its message. *)
Definition error : Type := string.

(** [time.Time], as seconds since the epoch. *)
Definition Time : Type := Z.

(** The parts of [*http.Response] the cleaner reads. *)
Record Response : Type := mkResponse {
  Body : string;
  RequestURL : url.URL;        (* resp.Request.URL *)
  StatusCode : Z
}.

(** The parts of [readability.Article] the cleaner reads. *)
Record Article : Type := mkArticle {
  art_Title : string;
  art_Byline : string;
  art_Content : string;
  art_TextContent : string;
  art_PublishedTime : option Time
}.

Record Env : Type := mkEnv {
  (** the error of [logger.NewSugaredLogger()], [None] for nil *)
  newSugaredLogger : option error;
  (** [http.Get(url)] *)
  httpGet : string -> Response + error;
  (** [goquery.NewDocumentFromReader(body)] *)
  newDocumentFromReader : string -> html.Document + error;
  (** [readability.FromDocument(doc.Get(0), nil)] *)
  fromDocument : html.Document -> Article + error;
  (** [md.NewConverter("", true, nil).ConvertString(html)]: both results *)
  convertString : string -> string * option error;
  (** [t.Format(time.RFC3339)] *)
  formatRFC3339 : Time -> string;
  (** [doc.Html()] *)
  renderHtml : html.Document -> string + error
}.

(** A call of [os.WriteFile(name, data, 0644)]. *)
Record FileWrite : Type := mkFileWrite { fw_name : string; fw_data : string }.

(* ================================================================= *)
(** ** [ArticleCleaner] and the public functions

    Calls of the logger only write to the log; they are left out. *)

Module Cleaner.

Import html.

Definition nl : string := String "010" EmptyString.

Definition tag (name : string) : Selector := [Tag name].
Definition cls (name : string) : Selector := [Class name].

Definition unwantedSelectors : list Selector :=
  [ (* Scripts and styles *)
    tag "script"; tag "style"; tag "noscript";
    (* Navigation and UI elements *)
    tag "nav"; tag "header"; tag "footer";
    cls "navigation"; cls "nav"; cls "menu";
    (* Advertisements and social media *)
    cls "ad"; cls "ads"; cls "advertisement"; cls "social"; cls "share";
    cls "sharing"; cls "social-share"; cls "social-media"; cls "twitter";
    cls "facebook"; cls "instagram";
    (* Comments and related content *)
    cls "comments"; cls "comment"; cls "related"; cls "recommended";
    cls "suggestions";
    (* Tracking and analytics *)
    cls "analytics"; cls "tracking"; cls "pixel";
    (* Cookie notices and popups *)
    cls "cookie"; cls "gdpr"; cls "popup"; cls "modal"; cls "overlay";
    (* Subscription and newsletter boxes *)
    cls "subscribe"; cls "newsletter"; cls "signup"; cls "email-signup";
    (* Breadcrumbs and metadata that's not useful *)
    cls "breadcrumb"; cls "breadcrumbs"; cls "tags"; cls "categories";
    (* Video players that might not work *)
    cls "video-player"; cls "embed";
    [Tag "iframe"; AttrContains "src" "youtube"];
    [Tag "iframe"; AttrContains "src" "vimeo"];
    (* Common class names for unwanted content *)
    [AttrContains "class" "sidebar"]; [AttrContains "class" "widget"];
    [AttrContains "id" "sidebar"]; [AttrContains "id" "widget"];
    (* Forms that are usually subscription/contact forms *)
    [Tag "form"; Not [Class "search-form"]] ].

Import regexp.

Definition unwantedTextPatterns : list Regexp :=
  [ (* (?i)subscribe\s+to\s+our\s+newsletter *)
    word "subscribe" ++ spaces ++ word "to" ++ spaces ++ word "our"
      ++ spaces ++ word "newsletter";
    (* (?i)follow\s+us\s+on *)
    word "follow" ++ spaces ++ word "us" ++ spaces ++ word "on";
    (* (?i)share\s+this\s+article *)
    word "share" ++ spaces ++ word "this" ++ spaces ++ word "article";
    (* (?i)related\s+articles? *)
    word "related" ++ spaces ++ word "article" ++ [OptFold "s"];
    (* (?i)you\s+might\s+also\s+like *)
    word "you" ++ spaces ++ word "might" ++ spaces ++ word "also"
      ++ spaces ++ word "like";
    (* (?i)recommended\s+for\s+you *)
    word "recommended" ++ spaces ++ word "for" ++ spaces ++ word "you";
    (* (?i)advertisement *)
    word "advertisement";
    (* (?i)sponsored\s+content *)
    word "sponsored" ++ spaces ++ word "content" ]%list.

(** [removeUnwantedElements]: the pruned document and [removedCount]. *)
Definition removeStep (st : Document * Z) (selector : Selector)
  : Document * Z :=
  let (doc, removedCount) := st in
  let elements := Find doc selector in
  let count := Z.of_nat (List.length elements) in
  if (count >? 0)%Z then (Remove doc selector, (removedCount + count)%Z)
  else (doc, removedCount).

Definition removeUnwantedElements (doc : Document) : Document * Z :=
  fold_left removeStep unwantedSelectors (doc, 0%Z).

(** [cleanTextContent] *)
Definition cleanTextContent (content : string) : string :=
  (* \n\s*\n\s*\n+ *)
  let content :=
    ReplaceAllString
      [One Newline; Star Space; One Newline; Star Space;
       One Newline; Star Newline]
      content (nl ++ nl) in
  (* [ \t]+ *)
  let content := ReplaceAllString [One Blank; Star Blank] content " " in
  let content :=
    fold_left (fun content pattern => ReplaceAllString pattern content "")
              unwantedTextPatterns content in
  strings.TrimSpace content.

(** [generateExcerpt]; [None] is the run-time panic of [content[:maxLength]]
    for a negative [maxLength]. *)
Definition generateExcerpt (content : string) (maxLength : Z)
  : option string :=
  if (Z.of_nat (String.length content) <=? maxLength)%Z then Some content
  else if (maxLength <? 0)%Z then None
  else
    let excerpt := strings.take (Z.to_nat maxLength) content in
    let lastSpace := strings.LastIndex excerpt " "%char in
    let excerpt :=
      if ((lastSpace >? 0) && (lastSpace >? maxLength - 50))%Z
      then strings.take (Z.to_nat lastSpace) excerpt
      else excerpt in
    Some (excerpt ++ "...").

(** [resolveURL] *)
Definition resolveURL (rawURL : string) (baseURL : url.URL) : string :=
  if String.eqb rawURL "" then ""
  else if strings.HasPrefix rawURL "http://"
          || strings.HasPrefix rawURL "https://" then rawURL
  else if strings.HasPrefix rawURL "//" then "https:" ++ rawURL
  else if strings.HasPrefix rawURL "/"
       then url.Scheme baseURL ++ "://" ++ url.Host baseURL ++ rawURL
  else url.Scheme baseURL ++ "://" ++ url.Host baseURL ++ "/" ++ rawURL.

(** [findHighestQualitySource]: the loop state is
    [(highestQualitySource, maxWidth)]. *)
Definition candidateStep (st : string * Z) (src : string) : string * Z :=
  match strings.Fields (strings.TrimSpace src) with
  | [p0; p1] =>
      let widthStr := strings.TrimSuffix p1 "w" in
      match strconv.Atoi widthStr with
      | None => st
      | Some width => if (width >? snd st)%Z then (p0, width) else st
      end
  | _ => st
  end.

Definition sourceStep (st : string * Z) (source : Node) : string * Z :=
  match nodeAttr source "srcset" with
  | None => st
  | Some srcset => fold_left candidateStep (strings.Split srcset ","%char) st
  end.

Definition findHighestQualitySource (picture : Node) : string :=
  fst (fold_left sourceStep (FindIn picture (tag "source")) ("", 0%Z)).

(** [processPictureElements].  [Each] visits the [picture] elements found
    before the loop, in document order.  For a [picture] with at least one
    [img] below it, the callback rewrites every such [img] and
    [ReplaceWithSelection] puts them, each taken out of its parent, in the
    place of the [picture]; a [picture] without [img] stays.  A [picture]
    inside a replaced one leaves the document with it, and when [Each]
    reaches it its [img] elements have been moved out, so that the callback
    returns at once. *)
Definition pictureImg (highestQualitySource : string) (baseURL : url.URL)
           (img : Node) : Node :=
  match img with
  | ElementNode t attrs kids =>
      let attrs :=
        if negb (String.eqb highestQualitySource "") then
          let highestQualitySource :=
            strings.ReplaceFirst highestQualitySource "webp" "png" in
          let resolvedURL := resolveURL highestQualitySource baseURL in
          setAttr "src" resolvedURL attrs
        else attrs in
      let attrs := removeAttr "loading" attrs in
      let attrs := removeAttr "decoding" attrs in
      ElementNode t attrs (flat_map (detach (matches (tag "img"))) kids)
  | _ => img
  end.

Fixpoint processPicture (baseURL : url.URL) (n : Node) : list Node :=
  match n with
  | ElementNode t attrs kids =>
      if String.eqb t "picture" then
        match FindIn n (tag "img") with
        | [] => [n]
        | imgs => map (pictureImg (findHighestQualitySource n) baseURL) imgs
        end
      else [ElementNode t attrs (flat_map (processPicture baseURL) kids)]
  | _ => [n]
  end.

Definition processPictureElements (doc : Document) (baseURL : url.URL)
  : Document :=
  flat_map (processPicture baseURL) doc.

(** [processImgElements] *)
Definition imgAttrs (baseURL : url.URL) (attrs : list Attribute)
  : list Attribute :=
  let attrs := removeAttr "loading" attrs in
  let attrs := removeAttr "decoding" attrs in
  let attrs := removeAttr "srcset" attrs in
  match getAttr "src" attrs with
  | Some src =>
      let resolvedURL := resolveURL src baseURL in
      if negb (String.eqb resolvedURL src)
      then setAttr "src" resolvedURL attrs
      else attrs
  | None => attrs
  end.

Fixpoint processImg (baseURL : url.URL) (n : Node) : Node :=
  match n with
  | ElementNode t attrs kids =>
      ElementNode t
        (if String.eqb t "img" then imgAttrs baseURL attrs else attrs)
        (map (processImg baseURL) kids)
  | _ => n
  end.

Definition processImgElements (doc : Document) (baseURL : url.URL)
  : Document :=
  map (processImg baseURL) doc.

(** [processImages] *)
Definition processImages (doc : Document) (baseURL : url.URL) : Document :=
  processImgElements (processPictureElements doc baseURL) baseURL.

(** [extractOGMetaTags]: the callback of [Each]. *)
Definition ogMeta (og : OpenGraphData) (s : Node) : OpenGraphData :=
  match nodeAttr s "property" with
  | None => og
  | Some property =>
      match nodeAttr s "content" with
      | None => og
      | Some content =>
          if String.eqb content "" then og
          else if String.eqb property "og:title" then setTitle content og
          else if String.eqb property "og:description"
               then setDescription content og
          else if String.eqb property "og:image" then setImage content og
          else if String.eqb property "og:url" then setURL content og
          else if String.eqb property "og:type" then setType content og
          else if String.eqb property "og:site_name"
               then setSiteName content og
          else if String.eqb property "og:locale" then setLocale content og
          else if String.eqb property "article:author"
               then setAuthor content og
          else if String.eqb property "article:published_time"
               then setPublishedAt content og
          else if String.eqb property "article:modified_time"
               then setModifiedAt content og
          else if String.eqb property "article:section"
               then setSection content og
          else if String.eqb property "article:tag" then appendTag content og
          else og
      end
  end.

Definition extractOGMetaTags (doc : Document) (og : OpenGraphData)
  : OpenGraphData :=
  fold_left ogMeta (Find doc [Tag "meta"; AttrPrefix "property" "og:"]) og.

(** [extractTwitterMetaTags]: the callback of [Each]. *)
Definition twitterMeta (og : OpenGraphData) (s : Node) : OpenGraphData :=
  match nodeAttr s "name" with
  | None => og
  | Some name =>
      match nodeAttr s "content" with
      | None => og
      | Some content =>
          if String.eqb content "" then og
          else if String.eqb name "twitter:card"
               then setTwitterCard content og
          else if String.eqb name "twitter:site"
               then setTwitterSite content og
          else if String.eqb name "twitter:creator"
               then setTwitterCreator content og
          else if String.eqb name "twitter:title"
               then setTwitterTitle content og
          else if String.eqb name "twitter:description"
               then setTwitterDescription content og
          else if String.eqb name "twitter:image"
               then setTwitterImage content og
          else og
      end
  end.

Definition extractTwitterMetaTags (doc : Document) (og : OpenGraphData)
  : OpenGraphData :=
  fold_left twitterMeta (Find doc [Tag "meta"; AttrPrefix "name" "twitter:"])
            og.

(** [extractFallbackMetaTags] *)
Definition extractFallbackMetaTags (doc : Document) (og : OpenGraphData)
  : OpenGraphData :=
  let og :=
    if String.eqb (og_Title og) "" then
      let title := Text (First (Find doc (tag "title"))) in
      if negb (String.eqb title "")
      then setTitle (strings.TrimSpace title) og else og
    else og in
  let og :=
    if String.eqb (og_Description og) "" then
      match Attr (Find doc [Tag "meta"; AttrEquals "name" "description"])
                 "content" with
      | Some desc =>
          if negb (String.eqb desc "")
          then setDescription (strings.TrimSpace desc) og else og
      | None => og
      end
    else og in
  let og :=
    if String.eqb (og_Author og) "" then
      match Attr (Find doc [Tag "meta"; AttrEquals "name" "author"])
                 "content" with
      | Some author =>
          if negb (String.eqb author "")
          then setAuthor (strings.TrimSpace author) og else og
      | None => og
      end
    else og in
  og.

(** [extractOpenGraphData] *)
Definition extractOpenGraphData (doc : Document) (pageURL : string)
           (baseURL : url.URL) : OpenGraphData :=
  let og := setURL pageURL emptyOpenGraphData in
  let og := extractOGMetaTags doc og in
  let og := extractTwitterMetaTags doc og in
  let og := extractFallbackMetaTags doc og in
  let og := setImage (resolveURL (og_Image og) baseURL) og in
  let og := setTwitterImage (resolveURL (og_TwitterImage og) baseURL) og in
  og.

(** [fetchAndParseDocument] *)
Definition fetchAndParseDocument (env : Env) (pageURL : string)
  : (Document * url.URL) + error :=
  match httpGet env pageURL with
  | inr err => inr err
  | inl resp =>
      match newDocumentFromReader env (Body resp) with
      | inr err => inr err
      | inl doc => inl (doc, RequestURL resp)
      end
  end.

(** [convertToMarkdown] *)
Definition convertToMarkdown (env : Env) (htmlContent : string) : string :=
  let (markdown, err) := convertString env htmlContent in
  match err with
  | Some _ => htmlContent
  | None => markdown
  end.

(** [saveDebugHTML]: the files written. *)
Definition saveDebugHTML (env : Env) (doc : Document) : list FileWrite :=
  match renderHtml env doc with
  | inr _ => []
  | inl html => [mkFileWrite "tmp/article.html" html]
  end.

(** The result of a function that returns a value and an [error], and the
    files written meanwhile. *)
Record Result (A : Type) : Type := mkResult {
  value : A;
  err : option error;
  written : list FileWrite
}.
Arguments mkResult {A} _ _ _.
Arguments value {A} _.
Arguments err {A} _.
Arguments written {A} _.

(** [CleanArticle]; when [generateExcerpt] panics no value is returned. *)
Definition CleanArticle (env : Env) (pageURL : string)
  : option (Result CleanedArticle) :=
  match fetchAndParseDocument env pageURL with
  | inr e => Some (mkResult zeroCleanedArticle (Some e) [])
  | inl (doc, baseURL) =>
      let openGraphData := extractOpenGraphData doc pageURL baseURL in
      let doc := fst (removeUnwantedElements doc) in
      let doc := processImages doc baseURL in
      match fromDocument env doc with
      | inr e => Some (mkResult zeroCleanedArticle (Some e) [])
      | inl article =>
          let cleanedTextContent :=
            cleanTextContent (art_TextContent article) in
          let markdown := convertToMarkdown env (art_Content article) in
          match generateExcerpt cleanedTextContent 200 with
          | None => None
          | Some excerpt =>
              let publishedAt :=
                match art_PublishedTime article with
                | Some t => formatRFC3339 env t
                | None => ""
                end in
              let cleanedArticle :=
                {| Title := strings.TrimSpace (art_Title article);
                   Content := cleanedTextContent;
                   Markdown := markdown;
                   URL := pageURL;
                   Author := strings.TrimSpace (art_Byline article);
                   Excerpt := excerpt;
                   Length := Z.of_nat (String.length cleanedTextContent);
                   PublishedAt := publishedAt;
                   OpenGraph := Some openGraphData |} in
              Some (mkResult cleanedArticle None (saveDebugHTML env doc))
          end
      end
  end.

(** [ExtractOpenGraphData] *)
Definition ExtractOpenGraphData (env : Env) (pageURL : string)
  : Result OpenGraphData :=
  match fetchAndParseDocument env pageURL with
  | inr e => mkResult emptyOpenGraphData (Some e) []
  | inl (doc, baseURL) =>
      mkResult (extractOpenGraphData doc pageURL baseURL) None []
  end.

(** [GetCleanedArticle] *)
Definition GetCleanedArticle (env : Env) (url : string)
  : option CleanedArticle :=
  match newSugaredLogger env with
  | Some _ => Some zeroCleanedArticle
  | None =>
      match CleanArticle env url with
      | None => None
      | Some r =>
          match err r with
          | Some _ => Some zeroCleanedArticle
          | None => Some (value r)
          end
      end
  end.

(** [GetReadableArticle] *)
Definition GetReadableArticle (env : Env) (url : string) : option string :=
  option_map Content (GetCleanedArticle env url).

(** [GetOpenGraphData] *)
Definition GetOpenGraphData (env : Env) (url : string) : OpenGraphData :=
  match newSugaredLogger env with
  | Some _ => emptyOpenGraphData
  | None =>
      let r := ExtractOpenGraphData env url in
      match err r with
      | Some _ => emptyOpenGraphData
      | None => value r
      end
  end.

End Cleaner.

(* ================================================================= *)
(** ** The earlier, free-standing [extractOpenGraphData]
       ([internal/utils/cleaner.go])

    Its three scans are, statement by statement, the bodies of
    [extractOGMetaTags], [extractTwitterMetaTags] and
    [extractFallbackMetaTags]; it differs in how it initialises [URL] and in
    how it makes the two image fields absolute. *)

Module Legacy.

Import html.

(** The block under "Convert relative URLs to absolute URLs", for one
    field. *)
Definition absoluteImage (image : string) (baseURL : url.URL) : string :=
  if negb (String.eqb image "") && negb (strings.HasPrefix image "http")
  then
    if strings.HasPrefix image "//" then "https:" ++ image
    else if strings.HasPrefix image "/"
         then url.Scheme baseURL ++ "://" ++ url.Host baseURL ++ image
    else image
  else image.

Definition extractOpenGraphData (doc : Document) (url : string)
           (baseURL : url.URL) : OpenGraphData :=
  let og := emptyOpenGraphData in
  let og := Cleaner.extractOGMetaTags doc og in
  let og := Cleaner.extractTwitterMetaTags doc og in
  let og := Cleaner.extractFallbackMetaTags doc og in
  let og := if String.eqb (og_URL og) "" then setURL url og else og in
  let og := setImage (absoluteImage (og_Image og) baseURL) og in
  let og := setTwitterImage (absoluteImage (og_TwitterImage og) baseURL) og in
  og.

End Legacy.

(* ================================================================= *)
(** ** The image handling of the earlier [mutateFetchReadable]
    ([internal/utils/cleaner.go])

    The earlier pipeline resolves URLs in line, once in the callback for
    [picture] elements and once in the callback for standalone images, and
    removes [script] and [style] elements once more after the pruner. *)

Module LegacyPipeline.

Import html.

(** The block under "Handle relative URLs", the same in both callbacks. *)
Definition absoluteSrc (src : string) (baseURL : url.URL) : string :=
  if negb (strings.HasPrefix src "http://")
     && negb (strings.HasPrefix src "https://")
  then
    if strings.HasPrefix src "//" then "https:" ++ src
    else if strings.HasPrefix src "/"
         then url.Scheme baseURL ++ "://" ++ url.Host baseURL ++ src
    else url.Scheme baseURL ++ "://" ++ url.Host baseURL ++ "/" ++ src
  else src.

(** The callback for [picture] elements, on one [img] of the picture. *)
Definition pictureImg (highestQualitySource : string) (baseURL : url.URL)
           (img : Node) : Node :=
  match img with
  | ElementNode t attrs kids =>
      let attrs :=
        if negb (String.eqb highestQualitySource "") then
          let highestQualitySource :=
            strings.ReplaceFirst highestQualitySource "webp" "png" in
          let highestQualitySource :=
            absoluteSrc highestQualitySource baseURL in
          setAttr "src" highestQualitySource attrs
        else attrs in
      let attrs := removeAttr "loading" attrs in
      let attrs := removeAttr "decoding" attrs in
      ElementNode t attrs
                  (flat_map (detach (matches (Cleaner.tag "img"))) kids)
  | _ => img
  end.

(** The callback for standalone [img] elements. *)
Definition imgAttrs (baseURL : url.URL) (attrs : list Attribute)
  : list Attribute :=
  let attrs := removeAttr "loading" attrs in
  let attrs := removeAttr "decoding" attrs in
  let attrs := removeAttr "srcset" attrs in
  match getAttr "src" attrs with
  | Some src =>
      if negb (strings.HasPrefix src "http://")
         && negb (strings.HasPrefix src "https://")
      then setAttr "src" (absoluteSrc src baseURL) attrs
      else attrs
  | None => attrs
  end.

(** "Remove script and style tags (additional cleanup)": the document and
    the two counts. *)
Definition extraCleanup (doc : Document) : Document * (Z * Z) :=
  let scriptCount :=
    Z.of_nat (List.length (Find doc (Cleaner.tag "script"))) in
  let doc := Remove doc (Cleaner.tag "script") in
  let styleCount :=
    Z.of_nat (List.length (Find doc (Cleaner.tag "style"))) in
  let doc := Remove doc (Cleaner.tag "style") in
  (doc, (scriptCount, styleCount)).

End LegacyPipeline.

(** Induction over a tree, with the hypothesis for all children. *)
Section NodeInduction.

Import html.

Variable P : Node -> Prop.
Hypothesis Htext : forall d, P (TextNode d).
Hypothesis Hcomment : forall d, P (CommentNode d).
Hypothesis Helement :
  forall t attrs kids, Forall P kids -> P (ElementNode t attrs kids).

Fixpoint Node_tree_ind (n : Node) : P n :=
  match n with
  | TextNode d => Htext d
  | CommentNode d => Hcomment d
  | ElementNode t attrs kids =>
      Helement t attrs kids
        ((fix all (l : list Node) : Forall P l :=
            match l with
            | [] => Forall_nil P
            | k :: r => Forall_cons k (Node_tree_ind k) (all r)
            end) kids)
  end.

End NodeInduction.

(* ================================================================= *)
(** ** The vocabulary of the statements *)

Section Vocabulary.

Import html Cleaner.

(** The page of the scenarios and its base URL. *)
Definition sitePage : string := "https://site.com/blog/post".
Definition siteBase : url.URL := url.mkURL "https" "site.com" "/blog/post".

(** The base URLs the resolver is meant for. *)
Definition validBase (base : url.URL) : Prop :=
  (url.Scheme base = "http" \/ url.Scheme base = "https")
  /\ url.Host base <> "".

(** The shape [scheme://...] of an absolute URL: the scheme http or https
    and the separator; what follows is the authority. *)
Definition isAbsolute (s : string) : bool :=
  strings.HasPrefix s "http://" || strings.HasPrefix s "https://".

(** No node of the subtree matches the selector. *)
Definition clean (sel : Selector) (n : Node) : Prop :=
  findAll (matches sel) n = [].

(** A page with a navigation bar, a menu, two forms and a widget around its
    article. *)
Definition clutteredPage : Document :=
  [ElementNode "html" []
     [ElementNode "head" [] [ElementNode "title" [] [TextNode "News"]];
      ElementNode "body" []
        [ElementNode "nav" [mkAttr "class" "top"] [TextNode "Home"];
         ElementNode "div" [mkAttr "class" "box main-menu  menu"]
           [ElementNode "nav" [] []];
         ElementNode "form" [mkAttr "class" "search-form"] [];
         ElementNode "form" [mkAttr "action" "/subscribe"] [];
         ElementNode "article" []
           [ElementNode "p" [] [TextNode "Story"];
            ElementNode "aside" [mkAttr "id" "my-widget-1"] []]]]].

(** [k] is the index of the last space of [p]. *)
Definition lastSpaceAt (p : string) (k : nat) : Prop :=
  String.get k p = Some " "%char
  /\ forall j, (k < j)%nat -> String.get j p <> Some " "%char.

(** [p] has no space. *)
Definition noSpace (p : string) : Prop :=
  forall j, String.get j p <> Some " "%char.

(** The keys of the attributes of a node are distinct. *)
Definition distinctKeys (attrs : list Attribute) : Prop :=
  NoDup (map Key attrs).

(** [removeAttr] with the order of the other attributes kept. *)
Fixpoint dropFirst (name : string) (attrs : list Attribute)
  : list Attribute :=
  match attrs with
  | [] => []
  | a :: rest => if String.eqb (Key a) name then rest
                 else a :: dropFirst name rest
  end.

(** One entry of a [srcset] list read as a candidate: the two fields, the
    second with its [w] suffix removed and parsed as an integer. *)
Definition parseCandidate (src : string) : option (string * Z) :=
  match strings.Fields (strings.TrimSpace src) with
  | [u; d] =>
      match strconv.Atoi (strings.TrimSuffix d "w") with
      | Some w => Some (u, w)
      | None => None
      end
  | _ => None
  end.

Definition optList {A : Type} (o : option A) : list A :=
  match o with
  | Some a => [a]
  | None => []
  end.

(** The candidates of a [picture]: those of all its [source] elements, in
    document order, entries that do not parse left out. *)
Definition candidates (picture : Node) : list (string * Z) :=
  flat_map
    (fun source =>
       match nodeAttr source "srcset" with
       | Some srcset =>
           flat_map (fun src => optList (parseCandidate src))
                    (strings.Split srcset ","%char)
       | None => []
       end)
    (FindIn picture (tag "source")).

Definition pick (st c : string * Z) : string * Z :=
  if (snd c >? snd st)%Z then c else st.

(** The picture of scenario C. *)
Definition scenarioPicture : Node :=
  ElementNode "picture" []
    [ElementNode "source"
       [mkAttr "srcset" "a.jpg 400w, b.jpg 1200w, c.jpg 800w"] [];
     ElementNode "img" [mkAttr "src" "small.jpg"] []].

(** Empty, or of the shape scheme://... *)
Definition emptyOrAbsolute (s : string) : Prop :=
  s = "" \/ isAbsolute s = true.

(** A page whose only social tag is an [og:image] with a bare relative
    path. *)
Definition relativeImagePage : Document :=
  [ElementNode "html" []
     [ElementNode "head" []
        [ElementNode "meta"
           [mkAttr "property" "og:image"; mkAttr "content" "img/a.png"]
           []];
      ElementNode "body" [] []]].

(** The non-empty [content] values of the nodes of [metas] whose
    attribute [key] is [name], in document order. *)
Definition metaContents (metas : list Node) (key name : string)
  : list string :=
  flat_map
    (fun n =>
       match nodeAttr n key, nodeAttr n "content" with
       | Some k, Some c =>
           if String.eqb k name && negb (String.eqb c "") then [c] else []
       | _, _ => []
       end)
    metas.

(** The non-empty contents of the [og:] tags of a document with the given
    property, and of its [twitter:] tags with the given name. *)
Definition ogContents (doc : Document) (property : string) : list string :=
  metaContents (Find doc [Tag "meta"; AttrPrefix "property" "og:"])
               "property" property.

Definition twitterContents (doc : Document) (name : string)
  : list string :=
  metaContents (Find doc [Tag "meta"; AttrPrefix "name" "twitter:"])
               "name" name.

(** The effect of one step of a scan on one field: the field is set to
    the content when the node carries the field's key with a non-empty
    content, and is left alone otherwise. *)
Definition stepSets (step : OpenGraphData -> Node -> OpenGraphData)
           (field : OpenGraphData -> string) (key name : string) : Prop :=
  forall og n,
    field (step og n) = last (metaContents [n] key name) (field og).

Definition stepKeeps (step : OpenGraphData -> Node -> OpenGraphData)
           (field : OpenGraphData -> string) : Prop :=
  forall og n, field (step og n) = field og.

(** The fallbacks of the two fields that have one. *)
Definition titleFallback (doc : Document) : string :=
  strings.TrimSpace (Text (First (Find doc (tag "title")))).

Definition descriptionFallback (doc : Document) : string :=
  match Attr (Find doc [Tag "meta"; AttrEquals "name" "description"])
             "content" with
  | Some desc => strings.TrimSpace desc
  | None => ""
  end.

(** A page with a [title] element and a [twitter:title] tag but no
    [og:title] tag. *)
Definition twitterTitlePage : Document :=
  [ElementNode "html" []
     [ElementNode "head" []
        [ElementNode "title" [] [TextNode "Hello"];
         ElementNode "meta"
           [mkAttr "name" "twitter:title"; mkAttr "content" "Tweeted"] []];
      ElementNode "body" [] []]].

(** The number of characters of a well-formed UTF-8 string: its bytes
    that are not continuation bytes. *)
Definition isContinuation (c : ascii) : bool :=
  let n := nat_of_ascii c in ((128 <=? n) && (n <? 192))%nat.

Fixpoint characterCount (s : string) : Z :=
  match s with
  | EmptyString => 0
  | String c r =>
      ((if isContinuation c then 0 else 1) + characterCount r)%Z
  end.

(** Every byte of [s] is an ASCII byte. *)
Fixpoint allASCII (s : string) : bool :=
  match s with
  | EmptyString => true
  | String c r => (nat_of_ascii c <? 128)%nat && allASCII r
  end.

(** The document handed to the readability library: pruned, then with its
    images rewritten. *)
Definition processed (doc : Document) (baseURL : url.URL) : Document :=
  processImages (fst (removeUnwantedElements doc)) baseURL.

(** An environment in which the fetch and the parse succeed with the
    document [doc], the readability library answers [article] and the
    Markdown converter behaves as [convert]. *)
Definition pageEnv (doc : Document) (article : Article + error)
           (convert : string -> string * option error) : Env :=
  {| newSugaredLogger := None;
     httpGet := fun _ =>
       inl (mkResponse "<html></html>" siteBase 200);
     newDocumentFromReader := fun _ => inl doc;
     fromDocument := fun _ => article;
     convertString := convert;
     formatRFC3339 := fun _ => "1970-01-01T00:00:00Z";
     renderHtml := fun _ => inl "<html></html>" |}.

(** The text "cafe" with an acute accent on the e, in UTF-8: the five
    bytes 63 61 66 C3 A9, four characters. *)
Definition cafe : string :=
  "caf" ++ String "195" (String "169" EmptyString).

(** A page whose article is that word. *)
Definition cafePage : Document :=
  [ElementNode "html" []
     [ElementNode "head" [] [ElementNode "title" [] [TextNode "Menu"]];
      ElementNode "body" []
        [ElementNode "article" [] [ElementNode "p" [] [TextNode cafe]]]]].

End Vocabulary.

(* ================================================================= *)
(** ** The HTTP handlers ([internal/server/handlers.go])

    A handler ends in one call of [c.JSON(code, obj)]; it is modelled by the
    pair of the status code and the object.  The JSON body bound by
    [c.ShouldBindJSON] and the query parameters read by [c.Query] are the
    inputs. *)

Module Server.

Record ArticleRequest : Type := mkArticleRequest {
  req_URL : string;
  IncludeMarkdown : bool
}.

Record ArticleResponse : Type := mkArticleResponse {
  resp_URL : string;
  resp_Title : string;
  resp_Content : string;
  resp_Markdown : string;
  resp_Author : string;
  resp_Excerpt : string;
  resp_Length : Z;
  resp_PublishedAt : string;
  resp_OpenGraph : option OpenGraphData;
  resp_Success : bool;
  resp_Message : string
}.

Record OpenGraphRequest : Type := mkOpenGraphRequest { ogreq_URL : string }.

Record OpenGraphResponse : Type := mkOpenGraphResponse {
  ogresp_URL : string;
  ogresp_OpenGraph : option OpenGraphData;
  ogresp_Success : bool;
  ogresp_Message : string
}.

Definition StatusOK : Z := 200.
Definition StatusBadRequest : Z := 400.
Definition StatusInternalServerError : Z := 500.

(** [ArticleResponse{Success: false, Message: message}] with the given URL *)
Definition articleFailure (url message : string) : ArticleResponse :=
  mkArticleResponse url "" "" "" "" "" 0 "" None false message.

(** The part of both article handlers after the URL and the flag are
    known. *)
Definition respondArticle (env : Env) (url : string) (includeMarkdown : bool)
  : option (Z * ArticleResponse) :=
  match Cleaner.GetCleanedArticle env url with
  | None => None
  | Some cleanedArticle =>
      if String.eqb (Title cleanedArticle) ""
         && String.eqb (Content cleanedArticle) ""
      then Some (StatusInternalServerError,
                 articleFailure url "Failed to extract article content")
      else
        Some (StatusOK,
              {| resp_URL := URL cleanedArticle;
                 resp_Title := Title cleanedArticle;
                 resp_Content := Content cleanedArticle;
                 resp_Markdown :=
                   if includeMarkdown then Markdown cleanedArticle else "";
                 resp_Author := Author cleanedArticle;
                 resp_Excerpt := Excerpt cleanedArticle;
                 resp_Length := Length cleanedArticle;
                 resp_PublishedAt := PublishedAt cleanedArticle;
                 resp_OpenGraph := OpenGraph cleanedArticle;
                 resp_Success := true;
                 resp_Message := "" |})
  end.

(** [ExtractArticleHandler]; [bound] is what [c.ShouldBindJSON(&req)]
    gives: the request, or the error. *)
Definition ExtractArticleHandler (env : Env) (bound : ArticleRequest + error)
  : option (Z * ArticleResponse) :=
  match bound with
  | inr err =>
      Some (StatusBadRequest,
            articleFailure "" ("Invalid request body: " ++ err))
  | inl req => respondArticle env (req_URL req) (IncludeMarkdown req)
  end.

(** [ExtractArticleSimpleHandler]; [query] is [c.Query], which gives the
    empty string for a missing parameter. *)
Definition ExtractArticleSimpleHandler (env : Env) (query : string -> string)
  : option (Z * ArticleResponse) :=
  let url := query "url" in
  if String.eqb url "" then
    Some (StatusBadRequest, articleFailure "" "URL parameter is required")
  else
    let includeMarkdown := String.eqb (query "markdown") "true" in
    respondArticle env url includeMarkdown.

(** The part of both Open Graph handlers after the URL is known.
    [GetOpenGraphData] never returns nil. *)
Definition respondOpenGraph (env : Env) (url : string)
  : Z * OpenGraphResponse :=
  let openGraphData := Cleaner.GetOpenGraphData env url in
  if String.eqb (og_Title openGraphData) "" then
    (StatusInternalServerError,
     mkOpenGraphResponse url None false "Failed to extract Open Graph data")
  else
    (StatusOK, mkOpenGraphResponse url (Some openGraphData) true "").

(** [ExtractOpenGraphHandler] *)
Definition ExtractOpenGraphHandler (env : Env)
           (bound : OpenGraphRequest + error) : Z * OpenGraphResponse :=
  match bound with
  | inr err =>
      (StatusBadRequest,
       mkOpenGraphResponse "" None false ("Invalid request body: " ++ err))
  | inl req => respondOpenGraph env (ogreq_URL req)
  end.

(** [ExtractOpenGraphSimpleHandler] *)
Definition ExtractOpenGraphSimpleHandler (env : Env)
           (query : string -> string) : Z * OpenGraphResponse :=
  let url := query "url" in
  if String.eqb url "" then
    (StatusBadRequest,
     mkOpenGraphResponse "" None false "URL parameter is required")
  else respondOpenGraph env url.

End Server.

(* ================================================================= *)
(** ** More vocabulary of the statements *)

Section MoreVocabulary.

Import html Cleaner.

(** The attribute keys of every element of the list are distinct. *)
Definition elementsDistinctKeys (nodes : list Node) : Prop :=
  Forall (fun n => match n with
                   | ElementNode _ attrs _ => distinctKeys attrs
                   | _ => True
                   end) nodes.

(** The byte [c] does not occur in [s]. *)
Fixpoint lacksByte (c : ascii) (s : string) : bool :=
  match s with
  | EmptyString => true
  | String d r => negb (Ascii.eqb d c) && lacksByte c r
  end.


(** [env] with another [doc.Html()]. *)
Definition withRenderHtml (env : Env)
           (render : Document -> string + error) : Env :=
  {| newSugaredLogger := newSugaredLogger env;
     httpGet := httpGet env;
     newDocumentFromReader := newDocumentFromReader env;
     fromDocument := fromDocument env;
     convertString := convertString env;
     formatRFC3339 := formatRFC3339 env;
     renderHtml := render |}.

(** The three scans of [extractOpenGraphData], in their order. *)
Definition scanMeta (doc : Document) (og : OpenGraphData) : OpenGraphData :=
  extractFallbackMetaTags doc
    (extractTwitterMetaTags doc (extractOGMetaTags doc og)).

(** A page with two pictures, one of them without [img], and a lazy
    standalone image. *)
Definition galleryPage : Document :=
  [ElementNode "html" []
     [ElementNode "body" []
        [ElementNode "picture" []
           [ElementNode "source"
              [mkAttr "srcset" "/m.webp 600w, /l.webp 1200w"] [];
            ElementNode "img"
              [mkAttr "src" "s.jpg"; mkAttr "loading" "lazy"] []];
         ElementNode "picture" []
           [ElementNode "source" [mkAttr "srcset" "/x.jpg 10w"] []];
         ElementNode "p" []
           [TextNode "caption";
            ElementNode "img"
              [mkAttr "srcset" "a 1x"; mkAttr "src" "//cdn.site.com/a.png";
               mkAttr "alt" "A"] []]]]].

(** A page with Open Graph tags, among them [og:url]. *)
Definition socialPage : Document :=
  [ElementNode "html" []
     [ElementNode "head" []
        [ElementNode "title" [] [TextNode " Plain title "];
         ElementNode "meta"
           [mkAttr "property" "og:title"; mkAttr "content" "Social title"] [];
         ElementNode "meta"
           [mkAttr "property" "og:url";
            mkAttr "content" "https://site.com/canonical"] [];
         ElementNode "meta"
           [mkAttr "property" "og:image"; mkAttr "content" "/img/a.png"] [];
         ElementNode "meta"
           [mkAttr "property" "article:tag"; mkAttr "content" "news"] [];
         ElementNode "meta"
           [mkAttr "name" "twitter:image"; mkAttr "content" "//cdn/t.png"]
           []];
      ElementNode "body" [] []]].

(** [n.Attr]: the attributes of an element. *)
Definition attrsOf (n : Node) : list Attribute :=
  match n with
  | ElementNode _ attrs _ => attrs
  | _ => []
  end.

(** The length in bytes of the shortest string a pattern can match. *)
Fixpoint minLength (re : regexp.Regexp) : nat :=
  match re with
  | [] => 0
  | regexp.One _ :: re' => S (minLength re')
  | regexp.Fold _ :: re' => S (minLength re')
  | regexp.Star _ :: re' => minLength re'
  | regexp.OptFold _ :: re' => minLength re'
  end.

(** A response of the article handlers whose status code, [success] flag
    and payload agree. *)
Definition coherent (out : Z * Server.ArticleResponse) : Prop :=
  let (status, resp) := out in
  (status = 200 \/ status = 400 \/ status = 500)%Z
  /\ (Server.resp_Success resp = true <-> status = 200%Z)
  /\ (status <> 200%Z ->
      Server.resp_Title resp = "" /\ Server.resp_Content resp = ""
      /\ Server.resp_Markdown resp = ""
      /\ Server.resp_OpenGraph resp = None
      /\ Server.resp_Message resp <> "")
  /\ (status = 200%Z ->
      Server.resp_Message resp = ""
      /\ (Server.resp_Title resp <> "" \/ Server.resp_Content resp <> "")).

(** The runs of the pipeline that end in an error: the logger cannot be
    built, the page cannot be fetched or parsed, or the readability
    library fails on the processed document. *)
Definition pipelineFails (env : Env) (pageURL : string) : Prop :=
  newSugaredLogger env <> None
  \/ (exists e, fetchAndParseDocument env pageURL = inr e)
  \/ (exists doc baseURL e,
        fetchAndParseDocument env pageURL = inl (doc, baseURL)
        /\ fromDocument env (processed doc baseURL) = inr e).

(** The element matches at least one of the unwanted selectors. *)
Definition unwanted (n : Node) : bool :=
  existsb (fun sel => matches sel n) unwantedSelectors.

(** [strings.Repeat] of one byte. *)
Fixpoint repeatByte (c : ascii) (n : nat) : string :=
  match n with
  | O => EmptyString
  | S k => String c (repeatByte c k)
  end.

(** 199 times the letter a, then an e with an acute accent (the bytes C3
    A9): 200 characters, 201 bytes. *)
Definition accented200 : string :=
  repeatByte "a" 199 ++ String "195" (String "169" EmptyString).

End MoreVocabulary.

(* ================================================================= *)
(** * Properties *)

(** ** Byte strings *)

Example unwantedSelectors_count :
  List.length Cleaner.unwantedSelectors = 50%nat.
Proof. reflexivity. Qed.

Example Fields_srcset_entry :
  strings.Fields (strings.TrimSpace " b.jpg   1200w ") = ["b.jpg"; "1200w"].
Proof. reflexivity. Qed.

Example Split_keeps_empty_entries :
  strings.Split "a 1w,,b 2w," ","%char = ["a 1w"; ""; "b 2w"; ""].
Proof. reflexivity. Qed.

Example TrimSpace_unicode :
  strings.TrimSpace
    (String "009" " Hello world " ++ String "194" (String "160" ""))
  = "Hello world".
Proof. reflexivity. Qed.

Example Atoi_samples :
  strconv.Atoi "1200" = Some 1200%Z
  /\ strconv.Atoi "+7" = Some 7%Z
  /\ strconv.Atoi "-3" = Some (-3)%Z
  /\ strconv.Atoi "2x" = None
  /\ strconv.Atoi "" = None
  /\ strconv.Atoi "9223372036854775808" = None.
Proof. repeat split. Qed.

Example ReplaceFirst_once :
  strings.ReplaceFirst "a.webp.webp" "webp" "png" = "a.png.webp".
Proof. reflexivity. Qed.

Example cleanTextContent_sample :
  Cleaner.cleanTextContent
    ("  Intro   text" ++ Cleaner.nl ++ " " ++ Cleaner.nl ++ Cleaner.nl
     ++ "Share  This Article now. Related Articles ")
  = "Intro text" ++ Cleaner.nl ++ Cleaner.nl ++ " now.".
Proof. vm_compute. reflexivity. Qed.

Lemma HasPrefix_append (p s : string) : strings.HasPrefix (p ++ s) p = true.
Proof.
  induction p as [|c p IH]; simpl; [reflexivity|].
  now rewrite Ascii.eqb_refl.
Qed.

Lemma append_assoc (a b c : string) : (a ++ b) ++ c = a ++ (b ++ c).
Proof. induction a; simpl; congruence. Qed.

Lemma HasPrefix_split (p s : string) :
  strings.HasPrefix s p = true -> exists r, s = p ++ r.
Proof.
  revert s; induction p as [|c p IH]; intros s H.
  - exists s; reflexivity.
  - destruct s as [|d s]; simpl in H; [discriminate|].
    apply andb_true_iff in H as [Hc H]. apply Ascii.eqb_eq in Hc; subst d.
    destruct (IH _ H) as [r ->]. exists r; reflexivity.
Qed.

Lemma length_append (a b : string) :
  String.length (a ++ b) = (String.length a + String.length b)%nat.
Proof. induction a; simpl; congruence. Qed.

Lemma take_length (n : nat) (s : string) :
  String.length (strings.take n s) = Nat.min n (String.length s).
Proof.
  revert s; induction n; intros [|c s]; simpl; auto.
Qed.

(* ================================================================= *)
(** ** The URL resolver *)

Section Resolver.

Import Cleaner.

Lemma resolveURL_fixed (s : string) (base : url.URL) :
  isAbsolute s = true -> resolveURL s base = s.
Proof.
  unfold isAbsolute, resolveURL. intros H.
  destruct (String.eqb s "") eqn:E.
  - apply String.eqb_eq in E; subst; discriminate.
  - now rewrite H.
Qed.

Lemma resolveURL_shape (raw : string) (base : url.URL) :
  url.Scheme base = "http" \/ url.Scheme base = "https" ->
  resolveURL raw base = "" \/ isAbsolute (resolveURL raw base) = true.
Proof.
  intros Hs. unfold resolveURL.
  destruct (String.eqb raw "") eqn:E; [now left|]. right.
  destruct (strings.HasPrefix raw "http://"
            || strings.HasPrefix raw "https://") eqn:Ha; [exact Ha|].
  destruct (strings.HasPrefix raw "//") eqn:Hp.
  - apply HasPrefix_split in Hp as [r ->]. reflexivity.
  - destruct (strings.HasPrefix raw "/");
      destruct Hs as [-> | ->]; reflexivity.
Qed.

(** C3.  For a base URL with scheme http or https and a non-empty host,
    [resolveURL raw base] is: the empty string for an empty [raw]; [raw]
    itself when it begins with http:// or https://; "https:" followed by
    [raw] when it begins with //; scheme://host followed by [raw] when it
    begins with a single /; and scheme://host/ followed by [raw] in every
    other case, with no treatment of ".." segments; the path of the base
    URL plays no part.  The two scenarios of the specification are
    instances. *)
Theorem resolveURL_cases (raw : string) (base : url.URL) :
  validBase base ->
  (raw = "" -> resolveURL raw base = "")
  /\ (strings.HasPrefix raw "http://" = true
      \/ strings.HasPrefix raw "https://" = true ->
      resolveURL raw base = raw)
  /\ (strings.HasPrefix raw "//" = true ->
      resolveURL raw base = "https:" ++ raw)
  /\ (strings.HasPrefix raw "/" = true ->
      strings.HasPrefix raw "//" = false ->
      resolveURL raw base
      = url.Scheme base ++ "://" ++ url.Host base ++ raw)
  /\ (raw <> "" ->
      strings.HasPrefix raw "http://" = false ->
      strings.HasPrefix raw "https://" = false ->
      strings.HasPrefix raw "/" = false ->
      resolveURL raw base
      = url.Scheme base ++ "://" ++ url.Host base ++ "/" ++ raw)
  /\ resolveURL "/img/a.png" siteBase
     = "https://site.com/img/a.png"
  /\ resolveURL "//cdn.example.com/x.png" siteBase
     = "https://cdn.example.com/x.png"
  /\ resolveURL "../x.png" siteBase
     = "https://site.com/../x.png"
  /\ (forall base',
        url.Scheme base' = url.Scheme base ->
        url.Host base' = url.Host base ->
        resolveURL raw base' = resolveURL raw base).
Proof.
  intros _. unfold resolveURL.
  repeat split; try reflexivity;
    try (intros base' -> ->; reflexivity).
  - intros ->. reflexivity.
  - intros H.
    destruct (String.eqb raw "") eqn:E.
    + apply String.eqb_eq in E. now symmetry.
    + destruct H as [-> | ->]; [reflexivity | now rewrite orb_true_r].
  - intros H. apply HasPrefix_split in H as [r ->]. reflexivity.
  - intros H1 H2.
    destruct (String.eqb raw "") eqn:E.
    + apply String.eqb_eq in E; subst; discriminate.
    + rewrite H2, H1.
      destruct raw as [|c raw]; [discriminate|].
      simpl in H1. rewrite andb_true_r in H1.
      apply Ascii.eqb_eq in H1; subst c.
      assert (Hh : strings.HasPrefix (String "/" raw) "http://" = false)
        by reflexivity.
      assert (Hs : strings.HasPrefix (String "/" raw) "https://" = false)
        by reflexivity.
      now rewrite Hh, Hs.
  - intros Hne H1 H2 H3.
    destruct (String.eqb raw "") eqn:E.
    + apply String.eqb_eq in E; contradiction.
    + rewrite H1, H2, H3.
      destruct (strings.HasPrefix raw "//") eqn:H4; [|reflexivity].
      apply HasPrefix_split in H4 as [r ->]. discriminate.
Qed.

Lemma resolveURL_cases_witness :
  validBase siteBase
  /\ resolveURL "img/a.png" siteBase
     = "https://site.com/img/a.png".
Proof.
  assert (Hb : validBase siteBase).
  { split; [right; reflexivity | discriminate]. }
  split; [exact Hb|].
  destruct (resolveURL_cases "img/a.png" siteBase Hb)
    as (_ & _ & _ & _ & H & _).
  apply H; [discriminate | reflexivity | reflexivity | reflexivity].
Defined.

(** C10.  For a base URL with scheme http or https and a non-empty host,
    resolving twice is resolving once: every result of [resolveURL] is
    empty or begins with http:// or https://, and such a string is
    returned unchanged. *)
Theorem resolveURL_idempotent (raw : string) (base : url.URL) :
  validBase base ->
  resolveURL (resolveURL raw base) base = resolveURL raw base
  /\ (resolveURL raw base = ""
      \/ strings.HasPrefix (resolveURL raw base) "http://" = true
      \/ strings.HasPrefix (resolveURL raw base) "https://" = true).
Proof.
  intros [Hs _].
  destruct (resolveURL_shape raw base Hs) as [E | A].
  - split; [rewrite E; reflexivity | left; exact E].
  - split; [apply resolveURL_fixed; exact A|].
    right. apply orb_true_iff. exact A.
Qed.

Lemma resolveURL_idempotent_witness :
  validBase (url.mkURL "http" "example.org" "/a/")
  /\ resolveURL (resolveURL "a/b.png" (url.mkURL "http" "example.org" "/a/"))
                (url.mkURL "http" "example.org" "/a/")
     = "http://example.org/a/b.png".
Proof.
  assert (Hb : validBase (url.mkURL "http" "example.org" "/a/")).
  { split; [left; reflexivity | discriminate]. }
  split; [exact Hb|].
  rewrite (proj1 (resolveURL_idempotent "a/b.png" _ Hb)). reflexivity.
Defined.

End Resolver.

(* ================================================================= *)
(** ** The document tree *)

Lemma flat_map_nil_Forall {A B : Type} (f : A -> list B) (l : list A) :
  flat_map f l = [] <-> Forall (fun x => f x = []) l.
Proof.
  induction l as [|x l IH]; simpl.
  - split; auto.
  - split.
    + intros H. apply app_eq_nil in H as [H1 H2].
      constructor; [exact H1 | now apply IH].
    + intros H. inversion H; subst.
      rewrite H2. simpl. now apply IH.
Qed.

Lemma flat_map_singletons {A : Type} (f : A -> list A) (l : list A) :
  Forall (fun x => f x = [x]) l -> flat_map f l = l.
Proof.
  induction 1 as [|x l Hx _ IH]; simpl; [reflexivity|].
  now rewrite Hx, IH.
Qed.

Section Pruner.

Import html Cleaner.

Lemma clean_element (sel : Selector) t attrs kids :
  clean sel (ElementNode t attrs kids) <->
  matches sel (ElementNode t attrs kids) = false
  /\ Forall (clean sel) kids.
Proof.
  unfold clean; simpl.
  destruct (forallb (matchSimple t attrs) sel); simpl.
  - split; [discriminate | intros [H _]; discriminate].
  - rewrite flat_map_nil_Forall. tauto.
Qed.

Lemma detach_clean (sel : Selector) (n : Node) :
  clean sel n -> detach (matches sel) n = [n].
Proof.
  induction n as [d|d|t attrs kids IH] using Node_tree_ind; intros H.
  - reflexivity.
  - reflexivity.
  - apply clean_element in H as [Hm Hk].
    cbn [detach]. rewrite Hm. do 2 f_equal.
    apply flat_map_singletons.
    rewrite Forall_forall in *. auto.
Qed.

Lemma detach_leaves_clean (sel sel' : Selector) (n : Node) :
  matches sel n = true \/ clean sel' n ->
  Forall (clean sel') (detach (matches sel) n).
Proof.
  induction n as [d|d|t attrs kids IH] using Node_tree_ind; intros H.
  - repeat constructor.
  - repeat constructor.
  - cbn [detach].
    destruct (matches sel (ElementNode t attrs kids)) eqn:Hm;
      [constructor|].
    destruct H as [H|H]; [discriminate|].
    apply clean_element in H as [Hm' Hk].
    constructor; [|constructor].
    apply clean_element. split; [exact Hm'|].
    apply Forall_flat_map.
    rewrite Forall_forall in *. intros k Hin.
    apply IH; [exact Hin | right; auto].
Qed.

Lemma detach_removes (sel : Selector) (n : Node) :
  Forall (clean sel) (detach (matches sel) n).
Proof.
  induction n as [d|d|t attrs kids IH] using Node_tree_ind.
  - repeat constructor.
  - repeat constructor.
  - cbn [detach].
    destruct (matches sel (ElementNode t attrs kids)) eqn:Hm;
      [constructor|].
    constructor; [|constructor].
    apply clean_element. split; [exact Hm|].
    apply Forall_flat_map. exact IH.
Qed.

Lemma Find_nil (doc : Document) (sel : Selector) :
  Find doc sel = [] <-> Forall (clean sel) doc.
Proof. apply flat_map_nil_Forall. Qed.

Lemma Remove_nothing (doc : Document) (sel : Selector) :
  Find doc sel = [] -> Remove doc sel = doc.
Proof.
  rewrite Find_nil. intros H. apply flat_map_singletons.
  rewrite Forall_forall in *. intros n Hn. now apply detach_clean, H.
Qed.

Lemma Find_Remove_same (doc : Document) (sel : Selector) :
  Find (Remove doc sel) sel = [].
Proof.
  apply Find_nil, Forall_flat_map, Forall_forall.
  intros n _. apply detach_removes.
Qed.

Lemma Find_Remove_other (doc : Document) (sel sel' : Selector) :
  Find doc sel' = [] -> Find (Remove doc sel) sel' = [].
Proof.
  rewrite !Find_nil. intros H.
  apply Forall_flat_map. rewrite Forall_forall in *.
  intros n Hn. apply detach_leaves_clean. right. auto.
Qed.

Lemma removeStep_doc (doc : Document) (c : Z) (sel : Selector) :
  fst (removeStep (doc, c) sel) = Remove doc sel.
Proof.
  unfold removeStep.
  destruct (Find doc sel) as [|n l] eqn:E.
  - simpl. symmetry. now apply Remove_nothing.
  - replace (_ >? 0)%Z with true; [reflexivity|].
    symmetry. apply Z.gtb_lt. simpl List.length. lia.
Qed.

Lemma removeStep_nothing (doc : Document) (c : Z) (sel : Selector) :
  Find doc sel = [] -> removeStep (doc, c) sel = (doc, c).
Proof. unfold removeStep. intros ->. reflexivity. Qed.

(** After the pass over [sels], nothing matches any of them, nor any
    selector that matched nothing before the pass. *)
Lemma prune_pass_clean (sels : list Selector) :
  forall (st : Document * Z) (sel : Selector),
    In sel sels \/ Find (fst st) sel = [] ->
    Find (fst (fold_left removeStep sels st)) sel = [].
Proof.
  induction sels as [|s sels IH]; intros [doc c] sel H; cbn [fold_left].
  - destruct H as [[]|H]; exact H.
  - apply IH. rewrite removeStep_doc. cbn [fst] in H.
    destruct H as [[->|H]|H].
    + right. apply Find_Remove_same.
    + now left.
    + right. now apply Find_Remove_other.
Qed.

Lemma prune_pass_nothing (sels : list Selector) :
  forall (st : Document * Z),
    Forall (fun sel => Find (fst st) sel = []) sels ->
    fold_left removeStep sels st = st.
Proof.
  induction sels as [|s sels IH]; intros [doc c] H; cbn [fold_left];
    [reflexivity|].
  inversion H; subst. cbn [fst] in *.
  rewrite removeStep_nothing by assumption.
  now apply IH.
Qed.

(** C5.  The pruner is idempotent: a second pass of
    [removeUnwantedElements] over the pruned document finds nothing to
    remove (its count is zero) and leaves the tree as it is. *)
Theorem removeUnwantedElements_idempotent (doc : Document) :
  removeUnwantedElements (fst (removeUnwantedElements doc))
  = (fst (removeUnwantedElements doc), 0%Z)
  /\ forall sel, In sel unwantedSelectors ->
                Find (fst (removeUnwantedElements doc)) sel = [].
Proof.
  assert (H : forall sel, In sel unwantedSelectors ->
                          Find (fst (removeUnwantedElements doc)) sel = []).
  { intros sel Hin. unfold removeUnwantedElements.
    apply prune_pass_clean. now left. }
  split; [|exact H].
  unfold removeUnwantedElements at 1.
  apply prune_pass_nothing. apply Forall_forall. exact H.
Qed.

Lemma removeUnwantedElements_idempotent_witness :
  In (cls "menu") unwantedSelectors
  /\ Find (fst (removeUnwantedElements clutteredPage)) (cls "menu") = []
  /\ snd (removeUnwantedElements clutteredPage) = 5%Z
  /\ snd (removeUnwantedElements (fst (removeUnwantedElements clutteredPage)))
     = 0%Z.
Proof.
  assert (Hin : In (cls "menu") unwantedSelectors).
  { unfold unwantedSelectors. do 8 right. left. reflexivity. }
  destruct (removeUnwantedElements_idempotent clutteredPage) as [H1 H2].
  split; [exact Hin|].
  split; [exact (H2 _ Hin)|].
  split; [vm_compute; reflexivity|].
  rewrite H1. reflexivity.
Defined.

End Pruner.

(* ================================================================= *)
(** ** The excerpt generator *)

Section Excerpt.

Import Cleaner.

Lemma take_take (i n : nat) (s : string) :
  (i <= n)%nat -> strings.take i (strings.take n s) = strings.take i s.
Proof.
  revert n s; induction i; intros [|n] [|c s] H; simpl; try reflexivity.
  - lia.
  - f_equal. apply IHi. lia.
Qed.

(** What [lastIndexFrom] computes: with the scan at offset [i] and no
    occurrence seen so far but [last], the result is [last] when [sep]
    does not occur in [s], and otherwise [i] plus the position of its last
    occurrence. *)
Lemma lastIndexFrom_spec (sep : ascii) (s : string) :
  forall i last : Z,
    (strings.lastIndexFrom s sep i last = last
     /\ forall j, String.get j s <> Some sep)
    \/ exists k : nat,
        strings.lastIndexFrom s sep i last = (i + Z.of_nat k)%Z
        /\ String.get k s = Some sep
        /\ forall j, (k < j)%nat -> String.get j s <> Some sep.
Proof.
  induction s as [|c s IH]; intros i last; simpl.
  - left. split; [reflexivity | discriminate].
  - destruct (IH (i + 1)%Z (if Ascii.eqb c sep then i else last))
      as [[E N] | (k & E & G & N)].
    + destruct (Ascii.eqb c sep) eqn:C.
      * right. exists 0%nat. apply Ascii.eqb_eq in C; subst c.
        repeat split.
        -- rewrite E. lia.
        -- intros [|j] Hj; [lia | apply N].
      * left. split; [exact E|].
        intros [|j]; [|apply N].
        intros H; inversion H; subst.
        now rewrite Ascii.eqb_refl in C.
    + right. exists (S k). repeat split.
      * rewrite E. lia.
      * exact G.
      * intros [|j] Hj; [lia|]. apply N. lia.
Qed.

Lemma get_lt (k : nat) (s : string) (c : ascii) :
  String.get k s = Some c -> (k < String.length s)%nat.
Proof.
  revert k; induction s as [|d s IH]; intros [|k] H; simpl in *;
    try discriminate; try lia.
  apply IH in H. lia.
Qed.

(** [strings.LastIndex]: [-1] when the byte does not occur, otherwise the
    index of its last occurrence. *)
Lemma LastIndex_spec (s : string) (sep : ascii) :
  (strings.LastIndex s sep = (-1)%Z
   /\ forall j, String.get j s <> Some sep)
  \/ exists k : nat,
      strings.LastIndex s sep = Z.of_nat k
      /\ (k < String.length s)%nat
      /\ String.get k s = Some sep
      /\ forall j, (k < j)%nat -> String.get j s <> Some sep.
Proof.
  unfold strings.LastIndex.
  destruct (lastIndexFrom_spec sep s 0 (-1)) as [H | (k & E & G & N)].
  - now left.
  - right. exists k. repeat split; auto.
    eapply get_lt; eauto.
Qed.

Lemma lastSpaceAt_unique (p : string) (k k' : nat) :
  lastSpaceAt p k -> lastSpaceAt p k' -> k = k'.
Proof.
  intros [G N] [G' N'].
  destruct (Nat.lt_trichotomy k k') as [H|[H|H]]; [|exact H|].
  - exfalso. exact (N _ H G').
  - exfalso. exact (N' _ H G).
Qed.

Lemma LastIndex_at (p : string) (k : nat) :
  lastSpaceAt p k -> strings.LastIndex p " "%char = Z.of_nat k.
Proof.
  intros H.
  destruct (LastIndex_spec p " "%char) as [[_ N] | (k' & E & _ & G & N)].
  - destruct H as [G _]. exfalso. exact (N _ G).
  - rewrite E. f_equal. apply (lastSpaceAt_unique p); [split|]; assumption.
Qed.

Lemma LastIndex_none (p : string) :
  noSpace p -> strings.LastIndex p " "%char = (-1)%Z.
Proof.
  intros H.
  destruct (LastIndex_spec p " "%char) as [[E _] | (k' & _ & _ & G & _)].
  - exact E.
  - exfalso. exact (H _ G).
Qed.

Lemma generateExcerpt_long (content : string) (maxLength : Z) :
  (0 <= maxLength < Z.of_nat (String.length content))%Z ->
  generateExcerpt content maxLength
  = let excerpt := strings.take (Z.to_nat maxLength) content in
    let lastSpace := strings.LastIndex excerpt " "%char in
    Some ((if ((lastSpace >? 0) && (lastSpace >? maxLength - 50))%Z
           then strings.take (Z.to_nat lastSpace) excerpt
           else excerpt) ++ "...").
Proof.
  intros H. unfold generateExcerpt.
  replace (_ <=? _)%Z with false by (symmetry; apply Z.leb_gt; lia).
  replace (_ <? _)%Z with false by (symmetry; apply Z.ltb_ge; lia).
  reflexivity.
Qed.

(** [generateExcerpt] as the code computes it: lengths and positions are
    counted in bytes.  [generateExcerpt] returns [content] unchanged when its length is at most
    [maxLength].  Otherwise, for a [maxLength] that is not negative, it
    takes the first [maxLength] bytes, cuts them at their last space when
    the index of that space is greater than 0 and strictly greater than
    [maxLength - 50], leaves them uncut when there is no space or the last
    space is at index 0 or at an index of at most [maxLength - 50], and
    appends "..."; the result is then at most [maxLength + 3] bytes
    long. *)
Theorem generateExcerpt_spec (content : string) (maxLength : Z) :
  (0 <= maxLength)%Z ->
  ((Z.of_nat (String.length content) <= maxLength)%Z ->
   generateExcerpt content maxLength = Some content)
  /\ ((maxLength < Z.of_nat (String.length content))%Z ->
      let p := strings.take (Z.to_nat maxLength) content in
      (forall k, lastSpaceAt p k ->
                 (0 < Z.of_nat k)%Z -> (maxLength - 50 < Z.of_nat k)%Z ->
                 generateExcerpt content maxLength
                 = Some (strings.take k content ++ "..."))
      /\ (forall k, lastSpaceAt p k ->
                    k = 0%nat \/ (Z.of_nat k <= maxLength - 50)%Z ->
                    generateExcerpt content maxLength = Some (p ++ "..."))
      /\ (noSpace p ->
          generateExcerpt content maxLength = Some (p ++ "..."))
      /\ exists e, generateExcerpt content maxLength = Some e
                   /\ (Z.of_nat (String.length e) <= maxLength + 3)%Z).
Proof.
  intros H0. split.
  - intros H. unfold generateExcerpt.
    apply Z.leb_le in H. now rewrite H.
  - intros H p.
    assert (Hlen : String.length p = Z.to_nat maxLength).
    { unfold p. rewrite take_length. lia. }
    rewrite generateExcerpt_long by lia. fold p. cbv zeta.
    repeat split.
    + intros k Hk H1 H2. rewrite (LastIndex_at p k Hk).
      replace (_ >? 0)%Z with true by (symmetry; apply Z.gtb_lt; lia).
      replace (_ >? _)%Z with true by (symmetry; apply Z.gtb_lt; lia).
      cbn [andb]. rewrite Nat2Z.id. unfold p.
      rewrite take_take; [reflexivity|].
      destruct Hk as [G _]. apply get_lt in G. lia.
    + intros k Hk Hc. rewrite (LastIndex_at p k Hk).
      destruct Hc as [-> | Hc].
      * reflexivity.
      * replace (Z.of_nat k >? maxLength - 50)%Z with false
          by (symmetry; rewrite Z.gtb_ltb; apply Z.ltb_ge; lia).
        now rewrite andb_false_r.
    + intros Hn. now rewrite (LastIndex_none p Hn).
    + eexists. split; [reflexivity|].
      rewrite length_append.
      destruct (_ && _)%bool.
      * rewrite take_length. simpl String.length. lia.
      * simpl String.length. lia.
Qed.

Lemma generateExcerpt_spec_witness :
  (0 <= 8)%Z
  /\ generateExcerpt "hello world foo" 8 = Some "hello...".
Proof.
  split; [lia|].
  destruct (generateExcerpt_spec "hello world foo" 8) as [_ H]; [lia|].
  destruct H as (H & _); [simpl; lia|].
  apply (H 5%nat); [|lia|lia].
  split; [reflexivity|].
  intros j Hj.
  do 8 (destruct j as [|j]; [try lia; discriminate|]).
  destruct j; discriminate.
Defined.

(** A cut at a space "no earlier than" [maxLength - 50] is not what the
    code does where the last space of the prefix sits exactly at index
    [maxLength - 50]: with [maxLength = 52] and a content of 53
    bytes whose only space is at index 2, the space is in the prefix and
    no earlier than [52 - 50], yet the excerpt is not cut there. *)
Lemma generateExcerpt_boundary_counterexample :
  let content :=
    "ab xxxxxxxxxxxxxxxxxxxxxxxxxxxxxxxxxxxxxxxxxxxxxxxxxx" in
  let p := strings.take 52 content in
  (52 < Z.of_nat (String.length content))%Z
  /\ strings.LastIndex p " "%char = 2%Z
  /\ (52 - 50 <= 2)%Z
  /\ generateExcerpt content 52 = Some (p ++ "...")
  /\ generateExcerpt content 52 <> Some (strings.take 2 p ++ "...").
Proof.
  cbv zeta. repeat split; try (vm_compute; congruence).
Qed.

(** C6.  [generateExcerpt] counts and cuts bytes, not characters.  The
    four characters of "cafe" with an accented e are five bytes, so with
    [maxLength = 4] the text is not returned as it is but cut after the
    fourth byte, in the middle of the accented letter; the same happens
    to a text of five characters.  In the pipeline, with the limit 200, a
    cleaned text of 200 characters in 201 bytes gets an excerpt that ends
    with the first byte of its last letter and three dots: the excerpt
    is no prefix of the content and no text in UTF-8. *)
Theorem generateExcerpt_cuts_character :
  characterCount cafe = 4%Z
  /\ Cleaner.generateExcerpt cafe 4
     = Some ("caf" ++ String "195" "...")
  /\ Cleaner.generateExcerpt cafe 4 <> Some cafe
  /\ Cleaner.generateExcerpt (cafe ++ "!") 4
     = Some ("caf" ++ String "195" "...")
  /\ Cleaner.generateExcerpt (cafe ++ "!") 4 <> Some (cafe ++ "...")
  /\ characterCount accented200 = 200%Z
  /\ exists r,
       Cleaner.CleanArticle
         (pageEnv cafePage
                  (inl (mkArticle "Menu" "" "<p></p>" accented200 None))
                  (fun h => (h, None)))
         sitePage = Some r
       /\ Cleaner.err r = None
       /\ Content (Cleaner.value r) = accented200
       /\ Excerpt (Cleaner.value r)
          = repeatByte "a" 199 ++ String "195" "..."
       /\ Excerpt (Cleaner.value r) <> Content (Cleaner.value r).
Proof.
  split; [reflexivity|].
  split; [reflexivity|].
  split; [discriminate|].
  split; [reflexivity|].
  split; [discriminate|].
  split; [vm_compute; reflexivity|].
  eexists. split; [vm_compute; reflexivity|].
  split; [reflexivity|]. split; [vm_compute; reflexivity|].
  split; [vm_compute; reflexivity|].
  vm_compute. discriminate.
Qed.

End Excerpt.

(* ================================================================= *)
(** ** Attributes *)

Section Attributes.

Import html.

Lemma getAttr_setAttr (name val : string) (attrs : list Attribute) :
  getAttr name (setAttr name val attrs) = Some val.
Proof.
  induction attrs as [|a attrs IH]; simpl.
  - now rewrite String.eqb_refl.
  - destruct (String.eqb (Key a) name) eqn:E; simpl.
    + now rewrite String.eqb_refl.
    + now rewrite E.
Qed.

Lemma keys_setAttr (name val : string) (attrs : list Attribute) :
  map Key (setAttr name val attrs)
  = if existsb (fun a => String.eqb (Key a) name) attrs
    then map Key attrs else (map Key attrs ++ [name])%list.
Proof.
  induction attrs as [|a attrs IH]; simpl; [reflexivity|].
  destruct (String.eqb (Key a) name) eqn:E; simpl.
  - apply String.eqb_eq in E. now rewrite E.
  - rewrite IH. now destruct (existsb _ attrs).
Qed.

Lemma distinctKeys_setAttr (name val : string) (attrs : list Attribute) :
  distinctKeys attrs -> distinctKeys (setAttr name val attrs).
Proof.
  unfold distinctKeys. intros H. rewrite keys_setAttr.
  destruct (existsb _ attrs) eqn:E; [exact H|].
  apply NoDup_app; [exact H | repeat constructor; intros [] |].
  intros k Hk [<-|[]].
  apply in_map_iff in Hk as (a & Ha & Hin).
  assert (existsb (fun a => String.eqb (Key a) name) attrs = true).
  { apply existsb_exists. exists a. split; [exact Hin|].
    apply String.eqb_eq. exact Ha. }
  congruence.
Qed.

Lemma getAttr_In (name val : string) (attrs : list Attribute) :
  distinctKeys attrs ->
  (getAttr name attrs = Some val <-> In (mkAttr name val) attrs).
Proof.
  unfold distinctKeys.
  induction attrs as [|a attrs IH]; simpl; intros H.
  - split; [discriminate | tauto].
  - inversion H as [|k ks Hnot Hnd]; subst.
    destruct (String.eqb (Key a) name) eqn:E.
    + apply String.eqb_eq in E. split.
      * intros [= <-]. left. destruct a; simpl in *; now subst.
      * intros [->|Hin]; [reflexivity|].
        exfalso. apply Hnot. apply in_map_iff.
        exists (mkAttr name val). split; [now simpl | exact Hin].
    + rewrite (IH Hnd). split; [tauto|].
      intros [->|Hin]; [|exact Hin].
      simpl in E. now rewrite String.eqb_refl in E.
Qed.

Lemma removeAttr_Permutation (name : string) (attrs : list Attribute) :
  Permutation (removeAttr name attrs) (dropFirst name attrs).
Proof.
  induction attrs as [|a attrs IH]; simpl; [constructor|].
  destruct (String.eqb (Key a) name).
  - destruct attrs as [|b attrs]; [constructor|].
    assert (Hne : b :: attrs <> []) by discriminate.
    rewrite (app_removelast_last a Hne) at 3.
    apply Permutation_cons_append.
  - now constructor.
Qed.

Lemma In_dropFirst (name : string) (x : Attribute)
      (attrs : list Attribute) :
  distinctKeys attrs ->
  (In x (dropFirst name attrs) <-> In x attrs /\ Key x <> name).
Proof.
  unfold distinctKeys.
  induction attrs as [|a attrs IH]; simpl; intros H; [tauto|].
  inversion H as [|k ks Hnot Hnd]; subst.
  destruct (String.eqb (Key a) name) eqn:E.
  - apply String.eqb_eq in E. split.
    + intros Hin. split; [now right|].
      intros Hx. apply Hnot. apply in_map_iff.
      exists x. split; [congruence | exact Hin].
    + intros [[<-|Hin] Hx]; [contradiction | exact Hin].
  - simpl. rewrite (IH Hnd). split.
    + intros [<-|[Hin Hx]]; [|tauto].
      split; [now left|].
      intros Hk. rewrite Hk, String.eqb_refl in E. discriminate.
    + intros [[<-|Hin] Hx]; [now left | tauto].
Qed.

Lemma distinctKeys_dropFirst (name : string) (attrs : list Attribute) :
  distinctKeys attrs -> distinctKeys (dropFirst name attrs).
Proof.
  unfold distinctKeys.
  induction attrs as [|a attrs IH]; simpl; intros H; [constructor|].
  inversion H as [|k ks Hnot Hnd]; subst.
  destruct (String.eqb (Key a) name); [exact Hnd|].
  simpl. constructor; [|now apply IH].
  intros Hin. apply Hnot.
  apply in_map_iff in Hin as (x & Hx & Hin).
  apply In_dropFirst in Hin as [Hin _]; [|exact Hnd].
  apply in_map_iff. now exists x.
Qed.

Lemma distinctKeys_removeAttr (name : string) (attrs : list Attribute) :
  distinctKeys attrs -> distinctKeys (removeAttr name attrs).
Proof.
  intros H. unfold distinctKeys.
  eapply Permutation_NoDup;
    [apply Permutation_map, Permutation_sym, removeAttr_Permutation|].
  now apply distinctKeys_dropFirst.
Qed.

Lemma getAttr_removeAttr_other (name other : string)
      (attrs : list Attribute) :
  distinctKeys attrs -> name <> other ->
  getAttr name (removeAttr other attrs) = getAttr name attrs.
Proof.
  intros H Hne.
  assert (Hd := distinctKeys_removeAttr other attrs H).
  destruct (getAttr name attrs) as [v|] eqn:E.
  - apply getAttr_In; [exact Hd|].
    eapply Permutation_in;
      [apply Permutation_sym, removeAttr_Permutation|].
    apply In_dropFirst; [exact H|]. split; [|exact Hne].
    now apply getAttr_In.
  - destruct (getAttr name (removeAttr other attrs)) as [v|] eqn:E';
      [|reflexivity].
    apply getAttr_In in E'; [|exact Hd].
    eapply Permutation_in in E'; [|apply removeAttr_Permutation].
    apply In_dropFirst in E' as [E' _]; [|exact H].
    apply getAttr_In in E'; [congruence | exact H].
Qed.

End Attributes.

(* ================================================================= *)
(** ** The image rewriter *)

Section Images.

Import html Cleaner.

Lemma fold_left_flat_map {A B C : Type} (f : A -> C -> A)
      (g : B -> list C) (l : list B) (a : A) :
  fold_left f (flat_map g l) a
  = fold_left (fun a x => fold_left f (g x) a) l a.
Proof.
  revert a; induction l as [|x l IH]; intros a; simpl; [reflexivity|].
  now rewrite fold_left_app, IH.
Qed.

Lemma fold_left_ext_eq {A B : Type} (f g : A -> B -> A) (l : list B)
      (a : A) :
  (forall a x, f a x = g a x) -> fold_left f l a = fold_left g l a.
Proof.
  intros H. revert a; induction l as [|x l IH]; intros a; simpl;
    [reflexivity|].
  now rewrite H, IH.
Qed.

Lemma candidateStep_pick (st : string * Z) (src : string) :
  candidateStep st src = fold_left pick (optList (parseCandidate src)) st.
Proof.
  unfold candidateStep, parseCandidate.
  destruct (strings.Fields _) as [|u [|d [|x l]]]; try reflexivity.
  destruct (strconv.Atoi _); reflexivity.
Qed.

Lemma findHighestQualitySource_fold (picture : Node) :
  findHighestQualitySource picture
  = fst (fold_left pick (candidates picture) ("", 0%Z)).
Proof.
  unfold findHighestQualitySource, candidates.
  rewrite fold_left_flat_map. f_equal.
  apply fold_left_ext_eq. intros st source. unfold sourceStep.
  destruct (nodeAttr source "srcset"); [|reflexivity].
  rewrite fold_left_flat_map.
  apply fold_left_ext_eq. intros. apply candidateStep_pick.
Qed.

(** The loop keeps the first candidate of greatest width among those wider
    than the initial bound, and the initial state when there is none. *)
Lemma fold_pick_spec (cs : list (string * Z)) :
  forall st : string * Z,
    (fold_left pick cs st = st
     /\ forall c, In c cs -> (snd c <= snd st)%Z)
    \/ exists pre c post,
        cs = (pre ++ c :: post)%list
        /\ fold_left pick cs st = c
        /\ (snd st < snd c)%Z
        /\ (forall c', In c' pre -> (snd c' < snd c)%Z)
        /\ (forall c', In c' post -> (snd c' <= snd c)%Z).
Proof.
  induction cs as [|x cs IH]; intros st; simpl.
  - left. split; [reflexivity | tauto].
  - change (pick st x) with (if (snd x >? snd st)%Z then x else st).
    destruct (snd x >? snd st)%Z eqn:E.
    + apply Z.gtb_lt in E. right.
      destruct (IH x)
        as [[Hf Hall] | (pre & c & post & -> & Hf & Hlt & Hpre & Hpost)].
      * exists [], x, cs.
        split; [reflexivity|]. split; [exact Hf|]. split; [exact E|].
        split; [intros c' [] | exact Hall].
      * exists (x :: pre), c, post.
        split; [reflexivity|]. split; [exact Hf|]. split; [lia|].
        split; [|exact Hpost].
        intros c' [<-|Hin]; [exact Hlt | auto].
    + assert (E' : (snd x <= snd st)%Z).
      { rewrite Z.gtb_ltb in E. apply Z.ltb_ge in E. exact E. }
      destruct (IH st)
        as [[Hf Hall] | (pre & c & post & -> & Hf & Hlt & Hpre & Hpost)].
      * left. split; [exact Hf|]. intros c [<-|Hin]; auto.
      * right. exists (x :: pre), c, post.
        split; [reflexivity|]. split; [exact Hf|]. split; [exact Hlt|].
        split; [|exact Hpost].
        intros c' [<-|Hin]; [lia | auto].
Qed.



End Images.

(* ================================================================= *)
(** ** Absolute URLs *)

Section AbsoluteURLs.

Import html.

Lemma imgAttrs_resolved (baseURL : url.URL) (attrs : list Attribute)
      (s : string) :
  getAttr "src" (Cleaner.imgAttrs baseURL attrs) = Some s ->
  exists raw, s = Cleaner.resolveURL raw baseURL.
Proof.
  unfold Cleaner.imgAttrs.
  set (attrs3 := removeAttr "srcset" _).
  destruct (getAttr "src" attrs3) as [src|] eqn:E.
  - destruct (String.eqb (Cleaner.resolveURL src baseURL) src) eqn:R;
      cbn [negb].
    + apply String.eqb_eq in R. rewrite E. intros [= <-]. now exists src.
    + rewrite getAttr_setAttr. intros [= <-]. now exists src.
  - rewrite E. discriminate.
Qed.

Lemma processImg_imgs (baseURL : url.URL) (n : Node) :
  Forall (fun img => forall s, nodeAttr img "src" = Some s ->
                               exists raw, s = Cleaner.resolveURL raw baseURL)
         (findAll (matches (Cleaner.tag "img"))
                  (Cleaner.processImg baseURL n)).
Proof.
  induction n as [d|d|t attrs kids IH] using Node_tree_ind.
  - constructor.
  - constructor.
  - cbn [Cleaner.processImg findAll]. apply Forall_app. split.
    + cbn [matches Cleaner.tag forallb matchSimple].
      destruct (String.eqb t "img"); cbn [andb]; constructor;
        [|constructor].
      intros s Hs. cbn [nodeAttr] in Hs.
      eapply imgAttrs_resolved; eauto.
    + apply Forall_flat_map. rewrite Forall_map. exact IH.
Qed.

(** Where the resolver builds the URL from the base, the host of the base
    follows the separator. *)
Lemma resolveURL_host (raw : string) (baseURL : url.URL) :
  raw <> "" -> isAbsolute raw = false ->
  strings.HasPrefix raw "//" = false ->
  strings.HasPrefix (Cleaner.resolveURL raw baseURL)
                    (url.Scheme baseURL ++ "://" ++ url.Host baseURL ++ "/")
  = true.
Proof.
  intros Hne Ha Hp. unfold Cleaner.resolveURL.
  apply String.eqb_neq in Hne. unfold isAbsolute in Ha.
  rewrite Hne, Ha, Hp.
  destruct (strings.HasPrefix raw "/") eqn:Hs.
  - apply HasPrefix_split in Hs as [r ->].
    change ("/" ++ r) with (String "/" r).
    replace (url.Scheme baseURL ++ "://" ++ url.Host baseURL ++ String "/" r)
      with ((url.Scheme baseURL ++ "://" ++ url.Host baseURL ++ "/") ++ r).
    + apply HasPrefix_append.
    + now rewrite !append_assoc.
  - replace (url.Scheme baseURL ++ "://" ++ url.Host baseURL ++ "/" ++ raw)
      with ((url.Scheme baseURL ++ "://" ++ url.Host baseURL ++ "/") ++ raw).
    + apply HasPrefix_append.
    + now rewrite !append_assoc.
Qed.

(** The image rewriter of [ArticleCleaner]: after [processImages] the
    [src] of every [img] of the document is empty or absolute. *)
Lemma processImages_absolute (doc : Document) (baseURL : url.URL) :
  validBase baseURL ->
  Forall (fun img => forall s, nodeAttr img "src" = Some s ->
                               emptyOrAbsolute s)
         (Find (Cleaner.processImages doc baseURL) (Cleaner.tag "img")).
Proof.
  intros [Hs _].
  unfold Cleaner.processImages, Cleaner.processImgElements, Find.
  apply Forall_flat_map. rewrite Forall_map.
  apply Forall_forall. intros n _.
  eapply Forall_impl; [|apply processImg_imgs].
  intros img H s Hsrc. destruct (H s Hsrc) as [raw ->].
  now apply resolveURL_shape.
Qed.

(** The metadata extractor of [ArticleCleaner]: both image fields are
    empty or absolute. *)
Lemma extractOpenGraphData_absolute (doc : Document) (pageURL : string)
      (baseURL : url.URL) :
  validBase baseURL ->
  emptyOrAbsolute
    (og_Image (Cleaner.extractOpenGraphData doc pageURL baseURL))
  /\ emptyOrAbsolute
       (og_TwitterImage (Cleaner.extractOpenGraphData doc pageURL baseURL)).
Proof.
  intros [Hs _]. unfold Cleaner.extractOpenGraphData. cbn.
  split; now apply resolveURL_shape.
Qed.

(** C2.  The metadata extractor of [internal/utils/cleaner.go] leaves a
    bare relative [og:image] as it is: for a page with
    [<meta property="og:image" content="img/a.png">] fetched from
    https://site.com the [image] field is "img/a.png", which is neither
    empty nor absolute.  The extractor of [ArticleCleaner], which goes
    through [resolveURL], returns "https://site.com/img/a.png" for the
    same page. *)
Theorem legacy_extractOpenGraphData_relative_image :
  validBase siteBase
  /\ og_Image (Legacy.extractOpenGraphData relativeImagePage
                 sitePage siteBase)
     = "img/a.png"
  /\ ~ emptyOrAbsolute "img/a.png"
  /\ og_Image (Cleaner.extractOpenGraphData relativeImagePage
                 sitePage siteBase)
     = "https://site.com/img/a.png".
Proof.
  split; [split; [right; reflexivity | discriminate]|].
  split; [vm_compute; reflexivity|].
  split; [intros [H|H]; discriminate|].
  vm_compute; reflexivity.
Qed.

End AbsoluteURLs.

(* ================================================================= *)
(** ** The metadata extractor *)

Section Metadata.

Import html Cleaner.

Lemma last_cons {A : Type} (l : list A) :
  forall x d : A, last (x :: l) d = last l x.
Proof.
  induction l as [|y l IH]; intros x d; [reflexivity|].
  change (last (y :: l) d = last (y :: l) x). now rewrite !IH.
Qed.

Lemma last_app_default {A : Type} (a b : list A) :
  forall d : A, last (a ++ b)%list d = last b (last a d).
Proof.
  induction a as [|x a IH]; intros d; [reflexivity|].
  change ((x :: a) ++ b)%list with (x :: (a ++ b))%list.
  now rewrite !last_cons, IH.
Qed.

Lemma metaContents_nonempty (metas : list Node) (key name : string) :
  Forall (fun c => c <> "") (metaContents metas key name).
Proof.
  apply Forall_flat_map, Forall_forall. intros n _.
  destruct (nodeAttr n key); [|constructor].
  destruct (nodeAttr n "content") as [c|]; [|constructor].
  destruct (String.eqb s name); [|constructor].
  destruct (String.eqb c "") eqn:E; constructor; [|constructor].
  now apply String.eqb_neq.
Qed.

Lemma last_nonempty (l : list string) :
  l <> [] -> Forall (fun c => c <> "") l -> last l "" <> "".
Proof.
  intros Hne H.
  destruct (exists_last Hne) as (l' & x & ->).
  rewrite last_last. apply Forall_app in H as [_ H].
  now inversion H.
Qed.

Lemma fold_stepSets step field key name :
  stepSets step field key name ->
  forall metas og,
    field (fold_left step metas og)
    = last (metaContents metas key name) (field og).
Proof.
  intros H metas.
  induction metas as [|n metas IH]; intros og; [reflexivity|].
  cbn [fold_left]. rewrite IH, H.
  replace (metaContents (n :: metas) key name)
    with (metaContents [n] key name ++ metaContents metas key name)%list.
  - now rewrite last_app_default.
  - unfold metaContents. cbn [flat_map]. now rewrite app_nil_r.
Qed.

Lemma fold_stepKeeps step field :
  stepKeeps step field ->
  forall metas og, field (fold_left step metas og) = field og.
Proof.
  intros H metas.
  induction metas as [|n metas IH]; intros og; [reflexivity|].
  cbn [fold_left]. now rewrite IH, H.
Qed.

Ltac scan_cases :=
  repeat match goal with
         | |- context [String.eqb ?p ?c] =>
             let E := fresh "E" in
             destruct (String.eqb p c) eqn:E;
             [apply String.eqb_eq in E; subst; try reflexivity
             | try reflexivity]
         end.

Ltac scan_step key :=
  intros og n; unfold metaContents; cbn [flat_map];
  cbv beta delta [ogMeta twitterMeta];
  destruct (nodeAttr n key) as [p|]; [|reflexivity];
  destruct (nodeAttr n "content") as [c|]; [|reflexivity];
  destruct (String.eqb c "") eqn:Ec;
  [rewrite andb_false_r; reflexivity|];
  rewrite andb_true_r, app_nil_r;
  scan_cases.

Lemma ogMeta_Title : stepSets ogMeta og_Title "property" "og:title".
Proof. scan_step "property". Qed.

Lemma ogMeta_Description :
  stepSets ogMeta og_Description "property" "og:description".
Proof. scan_step "property". Qed.

Lemma ogMeta_Image : stepSets ogMeta og_Image "property" "og:image".
Proof. scan_step "property". Qed.

Lemma twitterMeta_TwitterTitle :
  stepSets twitterMeta og_TwitterTitle "name" "twitter:title".
Proof. scan_step "name". Qed.

Lemma twitterMeta_TwitterDescription :
  stepSets twitterMeta og_TwitterDescription "name" "twitter:description".
Proof. scan_step "name". Qed.

Lemma twitterMeta_TwitterImage :
  stepSets twitterMeta og_TwitterImage "name" "twitter:image".
Proof. scan_step "name". Qed.

Ltac keep_step key :=
  intros og n; cbv beta delta [ogMeta twitterMeta];
  destruct (nodeAttr n key) as [p|]; [|reflexivity];
  destruct (nodeAttr n "content") as [c|]; [|reflexivity];
  repeat match goal with
         | |- context [String.eqb ?p ?c] => destruct (String.eqb p c)
         end;
  reflexivity.

Lemma twitterMeta_Title : stepKeeps twitterMeta og_Title.
Proof. keep_step "name". Qed.

Lemma twitterMeta_Description : stepKeeps twitterMeta og_Description.
Proof. keep_step "name". Qed.

Lemma twitterMeta_Image : stepKeeps twitterMeta og_Image.
Proof. keep_step "name". Qed.

Lemma ogMeta_TwitterTitle : stepKeeps ogMeta og_TwitterTitle.
Proof. keep_step "property". Qed.

Lemma ogMeta_TwitterDescription : stepKeeps ogMeta og_TwitterDescription.
Proof. keep_step "property". Qed.

Lemma ogMeta_TwitterImage : stepKeeps ogMeta og_TwitterImage.
Proof. keep_step "property". Qed.

Ltac fallback_cases :=
  repeat match goal with
         | |- context [match ?o with Some _ => _ | None => _ end] =>
             destruct o
         | |- context [if ?b then _ else _] =>
             let E := fresh "E" in destruct b eqn:E
         | E : negb (String.eqb _ _) = false |- _ =>
             apply negb_false_iff, String.eqb_eq in E; subst
         | E : String.eqb _ _ = true |- _ =>
             apply String.eqb_eq in E
         end.

Lemma extractFallbackMetaTags_Title (doc : Document) (og : OpenGraphData) :
  og_Title (extractFallbackMetaTags doc og)
  = if String.eqb (og_Title og) "" then titleFallback doc else og_Title og.
Proof.
  unfold extractFallbackMetaTags, titleFallback.
  destruct (String.eqb (og_Title og) "") eqn:Et.
  - destruct (String.eqb (Text (First (Find doc (tag "title")))) "")
      eqn:Ex; cbn [negb].
    + apply String.eqb_eq in Ex, Et. rewrite Ex.
      fallback_cases; cbn; rewrite ?Et; reflexivity.
    + fallback_cases; reflexivity.
  - fallback_cases; reflexivity.
Qed.

Lemma extractFallbackMetaTags_Description (doc : Document)
      (og : OpenGraphData) :
  og_Description (extractFallbackMetaTags doc og)
  = if String.eqb (og_Description og) ""
    then descriptionFallback doc else og_Description og.
Proof.
  unfold extractFallbackMetaTags, descriptionFallback.
  set (og1 := if String.eqb (og_Title og) "" then _ else og).
  assert (H1 : og_Description og1 = og_Description og).
  { unfold og1. fallback_cases; reflexivity. }
  rewrite H1.
  destruct (String.eqb (og_Description og) "") eqn:Ed.
  - destruct (Attr _ "content") as [desc|].
    + destruct (String.eqb desc "") eqn:Ex; cbn [negb].
      * apply String.eqb_eq in Ex, Ed. subst desc.
        fallback_cases; cbn; rewrite ?H1, ?Ed; reflexivity.
      * fallback_cases; reflexivity.
    + apply String.eqb_eq in Ed.
      fallback_cases; cbn; rewrite ?H1, ?Ed; reflexivity.
  - fallback_cases; cbn; rewrite ?H1; reflexivity.
Qed.

Lemma extractFallbackMetaTags_keeps (doc : Document) (og : OpenGraphData) :
  og_Image (extractFallbackMetaTags doc og) = og_Image og
  /\ og_TwitterTitle (extractFallbackMetaTags doc og) = og_TwitterTitle og
  /\ og_TwitterDescription (extractFallbackMetaTags doc og)
     = og_TwitterDescription og
  /\ og_TwitterImage (extractFallbackMetaTags doc og) = og_TwitterImage og.
Proof.
  unfold extractFallbackMetaTags.
  repeat split; fallback_cases; reflexivity.
Qed.

Lemma last_or_fallback (l : list string) (fallback : string) :
  Forall (fun c => c <> "") l ->
  (if String.eqb (last l "") "" then fallback else last l "")
  = match l with
    | [] => fallback
    | x :: r => last (x :: r) ""
    end.
Proof.
  intros H. destruct l as [|x l]; [reflexivity|].
  assert (Hne : last (x :: l) "" <> "")
    by (apply last_nonempty; [discriminate | exact H]).
  apply String.eqb_neq in Hne. now rewrite Hne.
Qed.

(** C1, as the code has it.  The title is the content of the last
    [og:title] tag with a non-empty content, and without such a tag the
    trimmed text of the first [title] element; the description is the
    content of the last [og:description] tag with a non-empty content,
    and without such a tag the trimmed content of the first
    [meta[name='description']]; the image is the content of the last
    non-empty [og:image] tag, resolved, and has no fallback.  The
    [twitter:title], [twitter:description] and [twitter:image] tags fill
    the fields [twitter_title], [twitter_description] and
    [twitter_image] only.  In particular a document without [og:title]
    whose first [title] element reads "Hello" gets the title "Hello". *)
Theorem extractOpenGraphData_precedence (doc : Document)
        (pageURL : string) (baseURL : url.URL) :
  let og := extractOpenGraphData doc pageURL baseURL in
  og_Title og = match ogContents doc "og:title" with
                | [] => titleFallback doc
                | l => last l ""
                end
  /\ og_Description og = match ogContents doc "og:description" with
                         | [] => descriptionFallback doc
                         | l => last l ""
                         end
  /\ og_Image og = resolveURL (last (ogContents doc "og:image") "") baseURL
  /\ og_TwitterTitle og = last (twitterContents doc "twitter:title") ""
  /\ og_TwitterDescription og
     = last (twitterContents doc "twitter:description") ""
  /\ og_TwitterImage og
     = resolveURL (last (twitterContents doc "twitter:image") "") baseURL
  /\ (ogContents doc "og:title" = [] ->
      Text (First (Find doc (tag "title"))) = "Hello" ->
      og_Title og = "Hello").
Proof.
  intros og.
  set (og0 := setURL pageURL emptyOpenGraphData).
  set (og1 := extractOGMetaTags doc og0).
  set (og2 := extractTwitterMetaTags doc og1).
  set (og3 := extractFallbackMetaTags doc og2).
  destruct (extractFallbackMetaTags_keeps doc og2)
    as (Hi & Htt & Htd & Hti).
  assert (Ht : og_Title og = match ogContents doc "og:title" with
                             | [] => titleFallback doc
                             | l => last l ""
                             end).
  { change (og_Title og) with (og_Title og3). unfold og3.
    rewrite extractFallbackMetaTags_Title.
    unfold og2, extractTwitterMetaTags.
    rewrite (fold_stepKeeps _ _ twitterMeta_Title).
    unfold og1, extractOGMetaTags.
    rewrite (fold_stepSets _ _ _ _ ogMeta_Title).
    change (og_Title og0) with "".
    apply (last_or_fallback (ogContents doc "og:title")).
    apply metaContents_nonempty. }
  split; [exact Ht|].
  split.
  { change (og_Description og) with (og_Description og3). unfold og3.
    rewrite extractFallbackMetaTags_Description.
    unfold og2, extractTwitterMetaTags.
    rewrite (fold_stepKeeps _ _ twitterMeta_Description).
    unfold og1, extractOGMetaTags.
    rewrite (fold_stepSets _ _ _ _ ogMeta_Description).
    change (og_Description og0) with "".
    apply (last_or_fallback (ogContents doc "og:description")).
    apply metaContents_nonempty. }
  split.
  { change (og_Image og) with (resolveURL (og_Image og3) baseURL).
    unfold og3. rewrite Hi.
    unfold og2, extractTwitterMetaTags.
    rewrite (fold_stepKeeps _ _ twitterMeta_Image).
    unfold og1, extractOGMetaTags.
    now rewrite (fold_stepSets _ _ _ _ ogMeta_Image). }
  split.
  { change (og_TwitterTitle og) with (og_TwitterTitle og3).
    unfold og3. rewrite Htt.
    unfold og2, extractTwitterMetaTags.
    rewrite (fold_stepSets _ _ _ _ twitterMeta_TwitterTitle).
    unfold og1, extractOGMetaTags.
    now rewrite (fold_stepKeeps _ _ ogMeta_TwitterTitle). }
  split.
  { change (og_TwitterDescription og) with (og_TwitterDescription og3).
    unfold og3. rewrite Htd.
    unfold og2, extractTwitterMetaTags.
    rewrite (fold_stepSets _ _ _ _ twitterMeta_TwitterDescription).
    unfold og1, extractOGMetaTags.
    now rewrite (fold_stepKeeps _ _ ogMeta_TwitterDescription). }
  split.
  { change (og_TwitterImage og)
      with (resolveURL (og_TwitterImage og3) baseURL).
    unfold og3. rewrite Hti.
    unfold og2, extractTwitterMetaTags.
    rewrite (fold_stepSets _ _ _ _ twitterMeta_TwitterImage).
    unfold og1, extractOGMetaTags.
    now rewrite (fold_stepKeeps _ _ ogMeta_TwitterImage). }
  intros Hnone Htext. rewrite Ht, Hnone.
  unfold titleFallback. rewrite Htext. reflexivity.
Qed.

Lemma extractOpenGraphData_precedence_witness :
  ogContents twitterTitlePage "og:title" = []
  /\ Text (First (Find twitterTitlePage (tag "title"))) = "Hello"
  /\ og_Title (extractOpenGraphData twitterTitlePage sitePage
                 siteBase)
     = "Hello".
Proof.
  assert (H1 : ogContents twitterTitlePage "og:title" = [])
    by reflexivity.
  assert (H2 : Text (First (Find twitterTitlePage (tag "title"))) = "Hello")
    by reflexivity.
  split; [exact H1|]. split; [exact H2|].
  destruct (extractOpenGraphData_precedence twitterTitlePage
              "https://site.com/" siteBase)
    as (_ & _ & _ & _ & _ & _ & H).
  exact (H H1 H2).
Defined.

(** C1 as stated fails for a page without [og:title] that has a non-empty
    [twitter:title]: the Twitter value is stored in [twitter_title], and
    the title comes from the [title] element. *)
Lemma twitter_title_counterexample :
  Find twitterTitlePage [Tag "meta"; AttrEquals "property" "og:title"] = []
  /\ Attr (Find twitterTitlePage
                [Tag "meta"; AttrEquals "name" "twitter:title"]) "content"
     = Some "Tweeted"
  /\ og_Title (extractOpenGraphData twitterTitlePage sitePage
                 siteBase)
     = "Hello"
  /\ og_Title (extractOpenGraphData twitterTitlePage sitePage
                 siteBase)
     <> "Tweeted".
Proof.
  repeat split; try (vm_compute; congruence).
Qed.

End Metadata.

(* ================================================================= *)
(** ** The pipeline *)

Section Pipeline.

Import html Cleaner.

Lemma generateExcerpt_returns (content : string) (maxLength : Z) :
  (0 <= maxLength)%Z ->
  exists e, generateExcerpt content maxLength = Some e.
Proof.
  intros H. unfold generateExcerpt.
  destruct (_ <=? _)%Z; [eauto|].
  replace (maxLength <? 0)%Z with false
    by (symmetry; apply Z.ltb_ge; lia).
  eauto.
Qed.

(** [CleanArticle] always returns. *)
Lemma CleanArticle_returns (env : Env) (pageURL : string) :
  exists r, CleanArticle env pageURL = Some r.
Proof.
  unfold CleanArticle.
  destruct (fetchAndParseDocument env pageURL) as [[doc baseURL]|e];
    [|eauto].
  destruct (fromDocument env _) as [article|e]; [|eauto].
  destruct (generateExcerpt_returns
              (cleanTextContent (art_TextContent article)) 200)
    as [ex ->]; [lia | eauto].
Qed.

(** The article assembled when nothing fails. *)
Lemma CleanArticle_success (env : Env) (pageURL : string)
      (resp : Response) (doc : Document) (article : Article) :
  httpGet env pageURL = inl resp ->
  newDocumentFromReader env (Body resp) = inl doc ->
  fromDocument env (processed doc (RequestURL resp)) = inl article ->
  exists r excerpt,
    CleanArticle env pageURL = Some r
    /\ err r = None
    /\ generateExcerpt (cleanTextContent (art_TextContent article)) 200
       = Some excerpt
    /\ value r
       = {| Title := strings.TrimSpace (art_Title article);
            Content := cleanTextContent (art_TextContent article);
            Markdown := convertToMarkdown env (art_Content article);
            URL := pageURL;
            Author := strings.TrimSpace (art_Byline article);
            Excerpt := excerpt;
            Length :=
              Z.of_nat
                (String.length
                   (cleanTextContent (art_TextContent article)));
            PublishedAt :=
              match art_PublishedTime article with
              | Some t => formatRFC3339 env t
              | None => ""
              end;
            OpenGraph :=
              Some (extractOpenGraphData doc pageURL (RequestURL resp)) |}.
Proof.
  intros Hg Hp Hr.
  destruct (generateExcerpt_returns
              (cleanTextContent (art_TextContent article)) 200)
    as [ex Hex]; [lia|].
  unfold CleanArticle, fetchAndParseDocument.
  rewrite Hg, Hp. unfold processed in Hr. rewrite Hr, Hex.
  eexists. exists ex.
  split; [reflexivity|]. split; [reflexivity|].
  split; reflexivity.
Qed.

(** The length field is the number of bytes of the content. *)
Lemma CleanArticle_Length (env : Env) (pageURL : string)
      (r : Result CleanedArticle) :
  CleanArticle env pageURL = Some r -> err r = None ->
  Length (value r) = Z.of_nat (String.length (Content (value r))).
Proof.
  unfold CleanArticle.
  destruct (fetchAndParseDocument env pageURL) as [[doc baseURL]|e].
  - destruct (fromDocument env _) as [article|e].
    + destruct (generateExcerpt _ 200); [|discriminate].
      intros H _.
      apply (f_equal (fun o => match o with Some x => x | None => r end))
        in H.
      subst r. reflexivity.
    + intros [= <-]. discriminate.
  - intros [= <-]. discriminate.
Qed.

Lemma characterCount_ASCII (s : string) :
  allASCII s = true -> characterCount s = Z.of_nat (String.length s).
Proof.
  induction s as [|c s IH]; [reflexivity|].
  cbn [allASCII characterCount String.length]. intros H.
  apply andb_true_iff in H as [Hc Hs].
  rewrite (IH Hs). unfold isContinuation.
  apply Nat.ltb_lt in Hc.
  replace (128 <=? nat_of_ascii c)%nat with false
    by (symmetry; apply Nat.leb_gt; exact Hc).
  cbn [andb]. lia.
Qed.

(** For an ASCII content the length field is the number of characters. *)
Lemma CleanArticle_Length_ASCII (env : Env) (pageURL : string)
      (r : Result CleanedArticle) :
  CleanArticle env pageURL = Some r -> err r = None ->
  allASCII (Content (value r)) = true ->
  Length (value r) = characterCount (Content (value r)).
Proof.
  intros H He Ha.
  rewrite (CleanArticle_Length env pageURL r H He).
  symmetry. now apply characterCount_ASCII.
Qed.

(** C7.  For a page whose extracted text is the four characters of
    "cafe" with an accented e, the assembled article has that text as
    its content and 5, the number of bytes, as its length, while the
    content has 4 characters. *)
Theorem CleanArticle_Length_is_byte_count :
  exists r,
    CleanArticle
      (pageEnv cafePage
               (inl (mkArticle "Menu" "" ("<p>" ++ cafe ++ "</p>") cafe None))
               (fun h => (cafe, None)))
      sitePage = Some r
    /\ err r = None
    /\ Content (value r) = cafe
    /\ Length (value r) = 5%Z
    /\ characterCount (Content (value r)) = 4%Z
    /\ Length (value r) <> characterCount (Content (value r)).
Proof.
  eexists. split; [vm_compute; reflexivity|].
  repeat split. discriminate.
Qed.

(** C8, as the code has it.  [convertToMarkdown] returns a string and no
    error.  When the conversion fails it returns the input HTML
    unchanged, so a non-empty input then gives a non-empty result; when
    the conversion succeeds it returns the converter's output as it is.
    The result is therefore empty for a non-empty input only when the
    converter succeeded with an empty output. *)
Theorem convertToMarkdown_fallback (env : Env) (htmlContent : string) :
  (forall md e, convertString env htmlContent = (md, Some e) ->
                convertToMarkdown env htmlContent = htmlContent)
  /\ (forall md, convertString env htmlContent = (md, None) ->
                 convertToMarkdown env htmlContent = md)
  /\ (htmlContent <> "" -> convertToMarkdown env htmlContent = "" ->
      convertString env htmlContent = ("", None)).
Proof.
  unfold convertToMarkdown.
  destruct (convertString env htmlContent) as [md [e|]].
  - split; [reflexivity|]. split.
    + intros md' H. discriminate.
    + intros Hne H. contradiction.
  - split; [intros md' e' H; discriminate|]. split.
    + intros md' [= ->]. reflexivity.
    + intros _ ->. reflexivity.
Qed.

Lemma convertToMarkdown_fallback_witness :
  convertString
    (pageEnv [] (inr "no article") (fun _ => ("", Some "render failed")))
    "<p>text</p>" = ("", Some "render failed")
  /\ convertToMarkdown
       (pageEnv [] (inr "no article") (fun _ => ("", Some "render failed")))
       "<p>text</p>" = "<p>text</p>".
Proof.
  split; [reflexivity|].
  destruct (convertToMarkdown_fallback
              (pageEnv [] (inr "no article")
                       (fun _ => ("", Some "render failed")))
              "<p>text</p>") as (H & _).
  apply (H "" "render failed"). reflexivity.
Defined.

(** C8 as stated fails when the converter succeeds with an empty output:
    the input is not empty, the result and the [markdown] field are. *)
Lemma convertToMarkdown_empty_counterexample :
  let env :=
    pageEnv twitterTitlePage
            (inl (mkArticle "Title" "" "<div></div>" "text" None))
            (fun h => if String.eqb h "<div></div>" then ("", None)
                      else (h, None)) in
  "<div></div>" <> ""
  /\ convertToMarkdown env "<div></div>" = ""
  /\ exists r, CleanArticle env sitePage = Some r
               /\ err r = None
               /\ Markdown (value r) = "".
Proof.
  cbv zeta. split; [discriminate|]. split; [reflexivity|].
  eexists. split; [vm_compute; reflexivity|]. split; reflexivity.
Qed.

(** C9.  When the fetch fails, or the body does not parse, or the
    readability library fails on the pruned and rewritten document,
    [CleanArticle] returns the zero article with the error and writes no
    file, and [GetCleanedArticle] returns the zero article: every field
    is empty and no metadata is attached. *)
Theorem CleanArticle_all_or_nothing (env : Env) (pageURL : string) :
  (exists e, httpGet env pageURL = inr e)
  \/ (exists resp e,
        httpGet env pageURL = inl resp
        /\ newDocumentFromReader env (Body resp) = inr e)
  \/ (exists resp doc e,
        httpGet env pageURL = inl resp
        /\ newDocumentFromReader env (Body resp) = inl doc
        /\ fromDocument env (processed doc (RequestURL resp)) = inr e) ->
  (exists e, CleanArticle env pageURL
             = Some (mkResult zeroCleanedArticle (Some e) []))
  /\ GetCleanedArticle env pageURL = Some zeroCleanedArticle
  /\ GetReadableArticle env pageURL = Some ""
  /\ zeroCleanedArticle
     = {| Title := ""; Content := ""; Markdown := ""; URL := "";
          Author := ""; Excerpt := ""; Length := 0; PublishedAt := "";
          OpenGraph := None |}.
Proof.
  intros H.
  assert (Hc : exists e, CleanArticle env pageURL
                         = Some (mkResult zeroCleanedArticle (Some e) [])).
  { unfold CleanArticle, fetchAndParseDocument.
    destruct H as [(e & Hg) | [(resp & e & Hg & Hp)
                              | (resp & doc & e & Hg & Hp & Hr)]].
    - rewrite Hg. eauto.
    - rewrite Hg, Hp. eauto.
    - rewrite Hg, Hp. unfold processed in Hr. rewrite Hr. eauto. }
  split; [exact Hc|].
  destruct Hc as [e Hc].
  assert (Hg : GetCleanedArticle env pageURL = Some zeroCleanedArticle).
  { unfold GetCleanedArticle.
    destruct (newSugaredLogger env); [reflexivity|].
    rewrite Hc. reflexivity. }
  split; [exact Hg|].
  split; [|reflexivity].
  unfold GetReadableArticle. rewrite Hg. reflexivity.
Qed.

Lemma CleanArticle_all_or_nothing_witness :
  (exists resp doc e,
      httpGet (pageEnv twitterTitlePage (inr "no article")
                       (fun h => (h, None)))
              sitePage = inl resp
      /\ newDocumentFromReader
           (pageEnv twitterTitlePage (inr "no article")
                    (fun h => (h, None)))
           (Body resp) = inl doc
      /\ fromDocument
           (pageEnv twitterTitlePage (inr "no article")
                    (fun h => (h, None)))
           (processed doc (RequestURL resp)) = inr e)
  /\ GetCleanedArticle
       (pageEnv twitterTitlePage (inr "no article") (fun h => (h, None)))
       sitePage = Some zeroCleanedArticle.
Proof.
  assert (H : exists resp doc e,
      httpGet (pageEnv twitterTitlePage (inr "no article")
                       (fun h => (h, None)))
              sitePage = inl resp
      /\ newDocumentFromReader
           (pageEnv twitterTitlePage (inr "no article")
                    (fun h => (h, None)))
           (Body resp) = inl doc
      /\ fromDocument
           (pageEnv twitterTitlePage (inr "no article")
                    (fun h => (h, None)))
           (processed doc (RequestURL resp)) = inr e).
  { eexists. eexists. eexists. repeat split; reflexivity. }
  split; [exact H|].
  apply (CleanArticle_all_or_nothing
           (pageEnv twitterTitlePage (inr "no article")
                    (fun h => (h, None)))
           sitePage).
  right. right. exact H.
Defined.

End Pipeline.

(* ================================================================= *)
(** * Further properties of the code *)

(** ** The URL resolver and the metadata extractor *)

Section MetadataCoverage.

Import html Cleaner.

Lemma append_nonempty_r (a b : string) : b <> "" -> a ++ b <> "".
Proof.
  intros Hb H. destruct a; simpl in H; [contradiction | discriminate].
Qed.

(** X1.  [resolveURL] returns the empty string for the empty input only:
    every non-empty raw URL resolves to a non-empty string, whatever the
    base. *)
Theorem resolveURL_empty_iff (raw : string) (baseURL : url.URL) :
  resolveURL raw baseURL = "" <-> raw = "".
Proof.
  split; [|intros ->; reflexivity].
  unfold resolveURL.
  destruct (String.eqb raw "") eqn:E; [now apply String.eqb_eq in E|].
  apply String.eqb_neq in E.
  destruct (_ || _); [intros H; contradiction|].
  destruct (strings.HasPrefix raw "//"); [discriminate|].
  destruct (strings.HasPrefix raw "/"); intros H; exfalso;
    revert H; rewrite <- !append_assoc; apply append_nonempty_r.
  - exact E.
  - exact E.
Qed.

Ltac scan_cases :=
  repeat match goal with
         | |- context [String.eqb ?p ?c] =>
             let E := fresh "E" in
             destruct (String.eqb p c) eqn:E;
             [apply String.eqb_eq in E; subst; try reflexivity
             | try reflexivity]
         end.

Ltac scan_step key :=
  intros og n; unfold metaContents; cbn [flat_map];
  cbv beta delta [ogMeta twitterMeta];
  destruct (nodeAttr n key) as [p|]; [|reflexivity];
  destruct (nodeAttr n "content") as [c|]; [|reflexivity];
  destruct (String.eqb c "") eqn:Ec;
  [rewrite andb_false_r; reflexivity|];
  rewrite andb_true_r, app_nil_r;
  scan_cases.

Ltac keep_step key :=
  intros og n; cbv beta delta [ogMeta twitterMeta];
  destruct (nodeAttr n key) as [p|]; [|reflexivity];
  destruct (nodeAttr n "content") as [c|]; [|reflexivity];
  repeat match goal with
         | |- context [String.eqb ?p ?c] => destruct (String.eqb p c)
         end;
  reflexivity.

Ltac fallback_cases :=
  repeat match goal with
         | |- context [match ?o with Some _ => _ | None => _ end] =>
             destruct o
         | |- context [if ?b then _ else _] =>
             let E := fresh "E" in destruct b eqn:E
         | E : negb (String.eqb _ _) = false |- _ =>
             apply negb_false_iff, String.eqb_eq in E; subst
         | E : String.eqb _ _ = true |- _ =>
             apply String.eqb_eq in E
         end.

Lemma ogMeta_URL : stepSets ogMeta og_URL "property" "og:url".
Proof. scan_step "property". Qed.

Lemma twitterMeta_URL : stepKeeps twitterMeta og_URL.
Proof. keep_step "name". Qed.

Lemma extractFallbackMetaTags_URL (doc : Document) (og : OpenGraphData) :
  og_URL (extractFallbackMetaTags doc og) = og_URL og.
Proof. unfold extractFallbackMetaTags. fallback_cases; reflexivity. Qed.

Lemma scanMeta_URL (doc : Document) (og : OpenGraphData) :
  og_URL (scanMeta doc og) = last (ogContents doc "og:url") (og_URL og).
Proof.
  unfold scanMeta. rewrite extractFallbackMetaTags_URL.
  unfold extractTwitterMetaTags.
  rewrite (fold_stepKeeps _ _ twitterMeta_URL).
  unfold extractOGMetaTags.
  now rewrite (fold_stepSets _ _ _ _ ogMeta_URL).
Qed.

Lemma last_default_nonempty (l : list string) (d : string) :
  d <> "" -> Forall (fun c => c <> "") l -> last l d <> "".
Proof.
  intros Hd H. destruct l as [|x l]; [exact Hd|].
  rewrite last_cons.
  revert x H. induction l as [|y l IH]; intros x H.
  - now inversion H.
  - rewrite last_cons. apply IH. now inversion H.
Qed.

Lemma last_default_irrelevant (l : list string) (d d' : string) :
  l <> [] -> last l d = last l d'.
Proof.
  destruct l as [|x l]; [contradiction|]. intros _.
  now rewrite !last_cons.
Qed.

(** X2.  The [url] field of the metadata is the content of the last
    [og:url] tag with a non-empty content and, without such a tag, the URL
    the caller asked for; so it is never empty for a non-empty request
    URL.  The earlier [extractOpenGraphData] computes the same field. *)
Theorem extractOpenGraphData_URL (doc : Document) (pageURL : string)
        (baseURL : url.URL) :
  og_URL (extractOpenGraphData doc pageURL baseURL)
  = last (ogContents doc "og:url") pageURL
  /\ og_URL (Legacy.extractOpenGraphData doc pageURL baseURL)
     = last (ogContents doc "og:url") pageURL
  /\ (pageURL <> "" ->
      og_URL (extractOpenGraphData doc pageURL baseURL) <> "").
Proof.
  assert (H1 : og_URL (extractOpenGraphData doc pageURL baseURL)
               = last (ogContents doc "og:url") pageURL).
  { change (og_URL (extractOpenGraphData doc pageURL baseURL))
      with (og_URL (scanMeta doc (setURL pageURL emptyOpenGraphData))).
    now rewrite scanMeta_URL. }
  split; [exact H1|]. split.
  - unfold Legacy.extractOpenGraphData.
    fold (scanMeta doc emptyOpenGraphData).
    set (og := scanMeta doc emptyOpenGraphData).
    assert (Ho : og_URL og = last (ogContents doc "og:url") "")
      by (unfold og; now rewrite scanMeta_URL).
    destruct (String.eqb (og_URL og) "") eqn:E; cbn.
    + apply String.eqb_eq in E.
      destruct (ogContents doc "og:url") as [|x l] eqn:El; [reflexivity|].
      exfalso. rewrite Ho in E. revert E.
      apply last_nonempty; [discriminate|].
      rewrite <- El. apply metaContents_nonempty.
    + rewrite Ho. apply last_default_irrelevant.
      intros El. rewrite Ho, El in E. discriminate.
  - intros Hne. rewrite H1.
    apply last_default_nonempty; [exact Hne|].
    apply metaContents_nonempty.
Qed.

Lemma extractOpenGraphData_URL_witness :
  sitePage <> ""
  /\ og_URL (extractOpenGraphData twitterTitlePage sitePage siteBase)
     = sitePage
  /\ og_URL (extractOpenGraphData socialPage sitePage siteBase)
     = "https://site.com/canonical".
Proof.
  assert (Hne : sitePage <> "") by discriminate.
  split; [exact Hne|].
  destruct (extractOpenGraphData_URL twitterTitlePage sitePage siteBase)
    as (H1 & _ & H3).
  destruct (extractOpenGraphData_URL socialPage sitePage siteBase)
    as (H1' & _ & _).
  split; [rewrite H1 | rewrite H1']; reflexivity.
Defined.

Lemma clean_weaken (sel sel' : Selector) (n : Node) :
  (forall t attrs, forallb (matchSimple t attrs) sel' = true ->
                   forallb (matchSimple t attrs) sel = true) ->
  clean sel n -> clean sel' n.
Proof.
  intros Hw.
  induction n as [d|d|t attrs kids IH] using Node_tree_ind; intros H.
  - reflexivity.
  - reflexivity.
  - apply clean_element in H as [Hm Hk]. apply clean_element. split.
    + cbn [matches] in *.
      destruct (forallb (matchSimple t attrs) sel') eqn:E; [|reflexivity].
      rewrite (Hw _ _ E) in Hm. discriminate.
    + rewrite Forall_forall in *. auto.
Qed.

Lemma Find_tag_nil (doc : Document) (name : string) (rest : list Simple) :
  Find doc (tag name) = [] -> Find doc (Tag name :: rest) = [].
Proof.
  rewrite !Find_nil. intros H.
  rewrite Forall_forall in *. intros n Hn.
  apply (clean_weaken (tag name)); [|auto].
  intros t attrs E. unfold tag. cbn [forallb] in *.
  apply andb_true_iff in E as [E _]. now rewrite E.
Qed.

(** X3.  A page without [meta] and without [title] elements gives the
    record whose only non-empty field is [url], set to the request URL. *)
Theorem extractOpenGraphData_bare_page (doc : Document) (pageURL : string)
        (baseURL : url.URL) :
  Find doc (tag "meta") = [] -> Find doc (tag "title") = [] ->
  extractOpenGraphData doc pageURL baseURL
  = mkOpenGraphData "" "" "" pageURL "" "" "" "" "" "" "" "" "" "" "" "" "" [].
Proof.
  intros Hm Ht.
  unfold extractOpenGraphData, extractOGMetaTags, extractTwitterMetaTags,
    extractFallbackMetaTags.
  rewrite !(Find_tag_nil doc "meta") by exact Hm.
  rewrite Ht. reflexivity.
Qed.

Lemma extractOpenGraphData_bare_page_witness :
  Find [ElementNode "html" [] [ElementNode "body" [] [TextNode "hi"]]]
       (tag "meta") = []
  /\ og_URL (extractOpenGraphData
               [ElementNode "html" [] [ElementNode "body" [] [TextNode "hi"]]]
               sitePage siteBase) = sitePage.
Proof.
  split; [reflexivity|].
  rewrite extractOpenGraphData_bare_page; reflexivity.
Defined.

Lemma matchAttribute_getAttr (attrs : list Attribute) (key : string)
      (f : string -> bool) :
  distinctKeys attrs -> matchAttribute attrs key f = true ->
  exists v, getAttr key attrs = Some v /\ f v = true.
Proof.
  intros Hd H. apply existsb_exists in H as (a & Hin & Ha).
  apply andb_true_iff in Ha as [Hk Hf]. apply String.eqb_eq in Hk.
  exists (Val a). split; [|exact Hf].
  apply getAttr_In; [exact Hd|]. destruct a; simpl in *; now subst.
Qed.

Lemma findAll_matches (m : Node -> bool) (n : Node) :
  Forall (fun x => m x = true) (findAll m n).
Proof.
  induction n as [d|d|t attrs kids IH] using Node_tree_ind.
  - cbn. destruct (m (TextNode d)) eqn:E; repeat constructor; exact E.
  - cbn. destruct (m (CommentNode d)) eqn:E; repeat constructor; exact E.
  - cbn [findAll]. apply Forall_app. split.
    + destruct (m (ElementNode t attrs kids)) eqn:E; repeat constructor.
      exact E.
    + apply Forall_flat_map. exact IH.
Qed.

Lemma Find_matches (doc : Document) (sel : Selector) :
  Forall (fun x => matches sel x = true) (Find doc sel).
Proof.
  apply Forall_flat_map, Forall_forall. intros n _. apply findAll_matches.
Qed.

Lemma fold_keeps_on {A : Type} (P : Node -> Prop)
      (step : OpenGraphData -> Node -> OpenGraphData)
      (field : OpenGraphData -> A) :
  (forall og n, P n -> field (step og n) = field og) ->
  forall l og, Forall P l -> field (fold_left step l og) = field og.
Proof.
  intros H l. induction l as [|n l IH]; intros og Hl; [reflexivity|].
  inversion Hl; subst. cbn [fold_left]. rewrite IH by assumption. auto.
Qed.

(** A node whose [property] attribute begins with og:. *)
Lemma ogMeta_article_fields {A : Type} (field : OpenGraphData -> A) :
  (forall v og, field (setTitle v og) = field og) ->
  (forall v og, field (setDescription v og) = field og) ->
  (forall v og, field (setImage v og) = field og) ->
  (forall v og, field (setURL v og) = field og) ->
  (forall v og, field (setType v og) = field og) ->
  (forall v og, field (setSiteName v og) = field og) ->
  (forall v og, field (setLocale v og) = field og) ->
  forall og n p,
    nodeAttr n "property" = Some p -> strings.HasPrefix p "og:" = true ->
    field (ogMeta og n) = field og.
Proof.
  intros H1 H2 H3 H4 H5 H6 H7 og n p Hp Hpre.
  unfold ogMeta. rewrite Hp.
  destruct (nodeAttr n "content") as [c|]; [|reflexivity].
  destruct (String.eqb c ""); [reflexivity|].
  repeat match goal with
         | |- context [String.eqb p ?lit] =>
             let E := fresh "E" in
             destruct (String.eqb p lit) eqn:E;
             [apply String.eqb_eq in E; subst p; try discriminate; auto|]
         end.
  reflexivity.
Qed.

Lemma og_nodes_prefixed (doc : Document) :
  elementsDistinctKeys (Find doc [Tag "meta"; AttrPrefix "property" "og:"]) ->
  Forall (fun n => exists p, nodeAttr n "property" = Some p
                             /\ strings.HasPrefix p "og:" = true)
         (Find doc [Tag "meta"; AttrPrefix "property" "og:"]).
Proof.
  intros Hd.
  assert (Hm := Find_matches doc [Tag "meta"; AttrPrefix "property" "og:"]).
  unfold elementsDistinctKeys in Hd.
  rewrite Forall_forall in *. intros n Hn.
  specialize (Hd n Hn). specialize (Hm n Hn).
  destruct n as [d|d|t attrs kids]; try discriminate.
  cbn [matches forallb matchSimple] in Hm.
  apply andb_true_iff in Hm as [_ Hm].
  apply andb_true_iff in Hm as [Hm _].
  apply andb_true_iff in Hm as [_ Hm].
  destruct (matchAttribute_getAttr _ _ _ Hd Hm) as (v & Hv & Hf).
  exists v. split; [exact Hv | exact Hf].
Qed.

Lemma extractFallbackMetaTags_Author (doc : Document) (og : OpenGraphData) :
  og_Author og = "" ->
  og_Author (extractFallbackMetaTags doc og)
  = match Attr (Find doc [Tag "meta"; AttrEquals "name" "author"])
               "content" with
    | Some author => strings.TrimSpace author
    | None => ""
    end.
Proof.
  intros Ha. unfold extractFallbackMetaTags.
  fallback_cases; cbn in *; rewrite ?Ha in *;
    try reflexivity; try discriminate; try congruence.
Qed.

(** X4.  On a page whose [og:] meta elements have distinct attribute names,
    the [article:*] cases of the Open Graph scan are never reached, since the
    scan visits [meta[property^='og:']] only: the tags are empty, the
    published and modified times and the section are empty, and the author
    is the trimmed content of the first [meta[name='author']] or empty. *)
Theorem extractOpenGraphData_article_unread (doc : Document)
        (pageURL : string) (baseURL : url.URL) :
  elementsDistinctKeys (Find doc [Tag "meta"; AttrPrefix "property" "og:"]) ->
  let og := extractOpenGraphData doc pageURL baseURL in
  og_Tags og = []
  /\ og_PublishedAt og = ""
  /\ og_ModifiedAt og = ""
  /\ og_Section og = ""
  /\ og_Author og
     = match Attr (Find doc [Tag "meta"; AttrEquals "name" "author"])
                  "content" with
       | Some author => strings.TrimSpace author
       | None => ""
       end.
Proof.
  intros Hd og.
  assert (Hp := og_nodes_prefixed doc Hd).
  set (og0 := setURL pageURL emptyOpenGraphData).
  set (og1 := extractOGMetaTags doc og0).
  set (og2 := extractTwitterMetaTags doc og1).
  assert (K1 : forall (A : Type) (field : OpenGraphData -> A),
             (forall v og, field (setTitle v og) = field og) ->
             (forall v og, field (setDescription v og) = field og) ->
             (forall v og, field (setImage v og) = field og) ->
             (forall v og, field (setURL v og) = field og) ->
             (forall v og, field (setType v og) = field og) ->
             (forall v og, field (setSiteName v og) = field og) ->
             (forall v og, field (setLocale v og) = field og) ->
             field og1 = field og0).
  { intros A field H1 H2 H3 H4 H5 H6 H7. unfold og1, extractOGMetaTags.
    apply (fold_keeps_on
             (fun n => exists p, nodeAttr n "property" = Some p
                                 /\ strings.HasPrefix p "og:" = true));
      [|exact Hp].
    intros og' n (p & Hv & Hf).
    now apply (ogMeta_article_fields field H1 H2 H3 H4 H5 H6 H7 og' n p). }
  assert (K2 : forall (A : Type) (field : OpenGraphData -> A),
             (forall og n, field (twitterMeta og n) = field og) ->
             field og2 = field og1).
  { intros A field H. unfold og2, extractTwitterMetaTags.
    apply (fold_keeps_on (fun _ => True)); [auto|].
    apply Forall_forall. auto. }
  assert (T : forall (A : Type) (field : OpenGraphData -> A) og' n,
             (forall v o, field (setTwitterCard v o) = field o) ->
             (forall v o, field (setTwitterSite v o) = field o) ->
             (forall v o, field (setTwitterCreator v o) = field o) ->
             (forall v o, field (setTwitterTitle v o) = field o) ->
             (forall v o, field (setTwitterDescription v o) = field o) ->
             (forall v o, field (setTwitterImage v o) = field o) ->
             field (twitterMeta og' n) = field og').
  { intros A field og' n H1 H2 H3 H4 H5 H6. unfold twitterMeta.
    destruct (nodeAttr n "name") as [p|]; [|reflexivity].
    destruct (nodeAttr n "content") as [c|]; [|reflexivity].
    repeat match goal with
           | |- context [String.eqb ?p ?c] => destruct (String.eqb p c)
           end; auto. }
  assert (Ha : og_Author og2 = "").
  { rewrite (K2 _ og_Author), (K1 _ og_Author); try reflexivity.
    intros; apply T; reflexivity. }
  repeat split.
  - change (og_Tags og) with (og_Tags (extractFallbackMetaTags doc og2)).
    transitivity (og_Tags og2).
    { unfold extractFallbackMetaTags. fallback_cases; reflexivity. }
    rewrite (K2 _ og_Tags), (K1 _ og_Tags); try reflexivity.
    intros; apply T; reflexivity.
  - change (og_PublishedAt og)
      with (og_PublishedAt (extractFallbackMetaTags doc og2)).
    transitivity (og_PublishedAt og2).
    { unfold extractFallbackMetaTags. fallback_cases; reflexivity. }
    rewrite (K2 _ og_PublishedAt), (K1 _ og_PublishedAt); try reflexivity.
    intros; apply T; reflexivity.
  - change (og_ModifiedAt og)
      with (og_ModifiedAt (extractFallbackMetaTags doc og2)).
    transitivity (og_ModifiedAt og2).
    { unfold extractFallbackMetaTags. fallback_cases; reflexivity. }
    rewrite (K2 _ og_ModifiedAt), (K1 _ og_ModifiedAt); try reflexivity.
    intros; apply T; reflexivity.
  - change (og_Section og)
      with (og_Section (extractFallbackMetaTags doc og2)).
    transitivity (og_Section og2).
    { unfold extractFallbackMetaTags. fallback_cases; reflexivity. }
    rewrite (K2 _ og_Section), (K1 _ og_Section); try reflexivity.
    intros; apply T; reflexivity.
  - change (og_Author og)
      with (og_Author (extractFallbackMetaTags doc og2)).
    now apply extractFallbackMetaTags_Author.
Qed.

Lemma extractOpenGraphData_article_unread_witness :
  elementsDistinctKeys
    (Find socialPage [Tag "meta"; AttrPrefix "property" "og:"])
  /\ Find socialPage [Tag "meta"; AttrEquals "property" "article:tag"] <> []
  /\ og_Tags (extractOpenGraphData socialPage sitePage siteBase) = [].
Proof.
  assert (Hd : elementsDistinctKeys
                 (Find socialPage [Tag "meta"; AttrPrefix "property" "og:"])).
  { repeat constructor; simpl; intuition discriminate. }
  split; [exact Hd|]. split; [discriminate|].
  exact (proj1 (extractOpenGraphData_article_unread socialPage sitePage
                  siteBase Hd)).
Defined.











Lemma scanMeta_images (doc : Document) (og : OpenGraphData) :
  og_Image (scanMeta doc og) = last (ogContents doc "og:image") (og_Image og)
  /\ og_TwitterImage (scanMeta doc og)
     = last (twitterContents doc "twitter:image") (og_TwitterImage og).
Proof.
  unfold scanMeta.
  destruct (extractFallbackMetaTags_keeps
              doc (extractTwitterMetaTags doc (extractOGMetaTags doc og)))
    as (-> & _ & _ & ->).
  unfold extractTwitterMetaTags.
  rewrite (fold_stepKeeps _ _ twitterMeta_Image),
    (fold_stepSets _ _ _ _ twitterMeta_TwitterImage).
  unfold extractOGMetaTags.
  rewrite (fold_stepSets _ _ _ _ ogMeta_Image),
    (fold_stepKeeps _ _ ogMeta_TwitterImage).
  split; reflexivity.
Qed.

Lemma resolveURL_present (raw : string) (baseURL : url.URL) :
  url.Scheme baseURL = "http" \/ url.Scheme baseURL = "https" ->
  raw <> "" -> isAbsolute (resolveURL raw baseURL) = true.
Proof.
  intros Hs Hne.
  destruct (resolveURL_shape raw baseURL Hs) as [H | H]; [|exact H].
  exfalso. revert H. unfold resolveURL.
  apply String.eqb_neq in Hne. rewrite Hne.
  apply String.eqb_neq in Hne.
  destruct (_ || _); [exact Hne|].
  destruct (strings.HasPrefix raw "//"); [discriminate|].
  destruct (strings.HasPrefix raw "/");
    rewrite <- !append_assoc; apply append_nonempty_r; exact Hne.
Qed.

(** X5.  With a base URL of scheme http or https, the [image] field of
    [ArticleCleaner]'s metadata is empty when the page has no [og:image]
    tag with a non-empty content, and begins with http:// or https://
    when it has one; the same holds of [twitter_image] and the
    [twitter:image] tags.  No relative image URL leaves the extractor. *)
Theorem extractOpenGraphData_images_absolute (doc : Document)
        (pageURL : string) (baseURL : url.URL) :
  validBase baseURL ->
  let og := extractOpenGraphData doc pageURL baseURL in
  (ogContents doc "og:image" = [] -> og_Image og = "")
  /\ (ogContents doc "og:image" <> [] -> isAbsolute (og_Image og) = true)
  /\ (twitterContents doc "twitter:image" = [] -> og_TwitterImage og = "")
  /\ (twitterContents doc "twitter:image" <> [] ->
      isAbsolute (og_TwitterImage og) = true).
Proof.
  intros [Hs _] og.
  destruct (scanMeta_images doc (setURL pageURL emptyOpenGraphData))
    as [Hi Ht].
  assert (Ei : og_Image og
               = resolveURL (last (ogContents doc "og:image") "") baseURL).
  { change (og_Image og)
      with (resolveURL
              (og_Image (scanMeta doc (setURL pageURL emptyOpenGraphData)))
              baseURL).
    now rewrite Hi. }
  assert (Et : og_TwitterImage og
               = resolveURL (last (twitterContents doc "twitter:image") "")
                            baseURL).
  { change (og_TwitterImage og)
      with (resolveURL
              (og_TwitterImage
                 (scanMeta doc (setURL pageURL emptyOpenGraphData)))
              baseURL).
    now rewrite Ht. }
  rewrite Ei, Et.
  split; [intros ->; reflexivity|].
  split; [intros H; apply resolveURL_present;
          [exact Hs | apply last_nonempty;
                      [exact H | apply metaContents_nonempty]]|].
  split; [intros ->; reflexivity|].
  intros H; apply resolveURL_present;
    [exact Hs | apply last_nonempty; [exact H | apply metaContents_nonempty]].
Qed.

Lemma extractOpenGraphData_images_absolute_witness :
  validBase siteBase
  /\ ogContents relativeImagePage "og:image" <> []
  /\ isAbsolute (og_Image (extractOpenGraphData relativeImagePage
                             sitePage siteBase)) = true
  /\ og_TwitterImage (extractOpenGraphData relativeImagePage
                        sitePage siteBase) = "".
Proof.
  assert (V : validBase siteBase)
    by (split; [right; reflexivity | discriminate]).
  split; [exact V|].
  split; [discriminate|].
  destruct (extractOpenGraphData_images_absolute
              relativeImagePage sitePage siteBase V) as (_ & A & B & _).
  split; [apply A; discriminate | apply B; reflexivity].
Defined.

End MetadataCoverage.

(** ** The pruner *)

Section PrunerCoverage.

Import html Cleaner.

Lemma removeStep_count (doc : Document) (c : Z) (sel : Selector) :
  snd (removeStep (doc, c) sel)
  = (c + Z.of_nat (List.length (Find doc sel)))%Z.
Proof.
  unfold removeStep.
  destruct (Z.of_nat (List.length (Find doc sel)) >? 0)%Z eqn:E;
    cbn [snd]; [reflexivity|].
  rewrite Z.gtb_ltb, Z.ltb_ge in E. lia.
Qed.

Lemma prune_pass_count_ge (sels : list Selector) :
  forall st : Document * Z,
    (snd st <= snd (fold_left removeStep sels st))%Z.
Proof.
  induction sels as [|s sels IH]; intros [doc c]; cbn [fold_left];
    [lia|].
  etransitivity; [|apply IH].
  rewrite removeStep_count. cbn [snd]. lia.
Qed.

Lemma prune_pass_count_same (sels : list Selector) :
  forall st : Document * Z,
    snd (fold_left removeStep sels st) = snd st ->
    Forall (fun sel => Find (fst st) sel = []) sels.
Proof.
  induction sels as [|s sels IH]; intros [doc c] H; cbn [fold_left] in H;
    [constructor|].
  cbn [fst snd] in *.
  assert (Hge := prune_pass_count_ge sels (removeStep (doc, c) s)).
  rewrite removeStep_count in Hge.
  assert (E : Find doc s = []).
  { destruct (Find doc s); [reflexivity|]. cbn [List.length] in Hge. lia. }
  constructor; [exact E|].
  rewrite (removeStep_nothing doc c s E) in H.
  exact (IH (doc, c) H).
Qed.

(** X7.  The count [removeUnwantedElements] logs is never negative, and
    it is zero exactly when no unwanted selector matches anything in the
    document; the document is then returned as it was. *)
Theorem removeUnwantedElements_count_zero (doc : Document) :
  (0 <= snd (removeUnwantedElements doc))%Z
  /\ (snd (removeUnwantedElements doc) = 0%Z
      <-> forall sel, In sel unwantedSelectors -> Find doc sel = [])
  /\ (snd (removeUnwantedElements doc) = 0%Z ->
      fst (removeUnwantedElements doc) = doc).
Proof.
  unfold removeUnwantedElements.
  assert (Hz : snd (fold_left removeStep unwantedSelectors (doc, 0%Z)) = 0%Z
               -> Forall (fun sel => Find doc sel = []) unwantedSelectors).
  { intros H. exact (prune_pass_count_same unwantedSelectors (doc, 0%Z) H). }
  split; [exact (prune_pass_count_ge unwantedSelectors (doc, 0%Z))|].
  split; [split|].
  - intros H. apply Forall_forall. exact (Hz H).
  - intros H. rewrite prune_pass_nothing; [reflexivity|].
    apply Forall_forall. exact H.
  - intros H. rewrite prune_pass_nothing; [reflexivity | exact (Hz H)].
Qed.

Lemma removeUnwantedElements_count_zero_witness :
  snd (removeUnwantedElements cafePage) = 0%Z
  /\ fst (removeUnwantedElements cafePage) = cafePage
  /\ Find cafePage (cls "menu") = [].
Proof.
  assert (H : snd (removeUnwantedElements cafePage) = 0%Z)
    by (vm_compute; reflexivity).
  destruct (removeUnwantedElements_count_zero cafePage) as (_ & H1 & H2).
  split; [exact H|]. split; [exact (H2 H)|].
  apply (proj1 H1 H). unfold unwantedSelectors.
  do 8 right. left. reflexivity.
Defined.

Lemma matches_children (sel : Selector) t attrs kids kids' :
  matches sel (ElementNode t attrs kids)
  = matches sel (ElementNode t attrs kids').
Proof. reflexivity. Qed.

Lemma detach_findAll_le (sel q : Selector) (n : Node) :
  (List.length (flat_map (findAll (matches q)) (detach (matches sel) n))
   <= List.length (findAll (matches q) n))%nat.
Proof.
  induction n as [d|d|t attrs kids IH] using Node_tree_ind.
  - cbn. lia.
  - cbn. lia.
  - cbn [detach].
    destruct (matches sel (ElementNode t attrs kids)); [cbn; lia|].
    cbn [flat_map findAll]. rewrite app_nil_r, !length_app.
    rewrite (matches_children q t attrs _ kids).
    assert (Hk : (List.length
                    (flat_map (findAll (matches q))
                              (flat_map (detach (matches sel)) kids))
                  <= List.length (flat_map (findAll (matches q)) kids))%nat).
    { induction IH as [|k kids Hk _ IHk]; [cbn; lia|].
      cbn [flat_map]. rewrite flat_map_app, !length_app. lia. }
    destruct (matches q (ElementNode t attrs kids)); cbn [List.length]; lia.
Qed.

Lemma Remove_Find_le (doc : Document) (sel q : Selector) :
  (List.length (Find (Remove doc sel) q) <= List.length (Find doc q))%nat.
Proof.
  unfold Find, Remove.
  induction doc as [|n doc IH]; [cbn; lia|].
  cbn [flat_map]. rewrite flat_map_app, !length_app.
  pose proof (detach_findAll_le sel q n). lia.
Qed.

(** X8.  Pruning never creates a match for a selector that tests an
    element by its own name and attributes: for every compound selector
    made of tag names, classes, the attribute tests [[k='v']], [[k^='v']]
    and [[k*='v']], and [:not(...)] of these (the forms [Selector] has,
    those of the unwanted selectors among them), the pruned document has
    at most as many matching elements as the document had.  Selectors
    that look at the position or the children of an element, such as
    [:first-child] or [:empty], are outside this statement. *)
Theorem removeUnwantedElements_no_new_matches (doc : Document)
        (q : Selector) :
  (List.length (Find (fst (removeUnwantedElements doc)) q)
   <= List.length (Find doc q))%nat.
Proof.
  unfold removeUnwantedElements.
  generalize 0%Z. revert doc.
  induction unwantedSelectors as [|s sels IH]; intros doc c;
    cbn [fold_left fst]; [lia|].
  destruct (removeStep (doc, c) s) as [doc' c'] eqn:E.
  assert (Hd : doc' = Remove doc s).
  { rewrite <- (removeStep_doc doc c s), E. reflexivity. }
  etransitivity; [apply IH|].
  rewrite Hd. apply Remove_Find_le.
Qed.

End PrunerCoverage.

(** ** The image rewriter, picture pass *)

Section PictureCoverage.

Import html Cleaner.

Lemma clean_found (sel : Selector) (m : Node -> bool) (n : Node) :
  clean sel n -> Forall (clean sel) (findAll m n).
Proof.
  induction n as [d|d|t attrs kids IH] using Node_tree_ind; intros H.
  - cbn. destruct (m _); repeat constructor.
  - cbn. destruct (m _); repeat constructor.
  - cbn [findAll]. apply Forall_app. split.
    + destruct (m _); repeat constructor. exact H.
    + apply clean_element in H as [_ Hk].
      apply Forall_flat_map.
      rewrite Forall_forall in *. intros k Hin. apply IH; auto.
Qed.

Lemma clean_FindIn (sel : Selector) (n : Node) :
  clean sel n -> FindIn n sel = [].
Proof.
  destruct n as [d|d|t attrs kids]; [reflexivity | reflexivity |].
  intros H. apply clean_element in H as [_ Hk].
  cbn [FindIn]. apply flat_map_nil_Forall. exact Hk.
Qed.

Lemma matches_tag (name t : string) attrs kids :
  matches (tag name) (ElementNode t attrs kids) = String.eqb t name.
Proof. cbn. apply andb_true_r. Qed.

Lemma pictureImg_pictures (hq : string) (baseURL : url.URL) (img : Node) :
  matches (tag "img") img = true ->
  Forall (fun p => FindIn p (tag "img") = [])
         (findAll (matches (tag "picture")) (pictureImg hq baseURL img)).
Proof.
  destruct img as [d|d|t attrs kids]; [discriminate | discriminate |].
  rewrite matches_tag. intros Et. apply String.eqb_eq in Et. subst t.
  cbn [pictureImg findAll]. rewrite matches_tag. cbn [String.eqb app].
  apply Forall_flat_map, Forall_flat_map, Forall_forall. intros k _.
  eapply Forall_impl; [|apply detach_removes].
  intros d Hd. eapply Forall_impl; [|apply clean_found; exact Hd].
  intros p. apply clean_FindIn.
Qed.

(** After the picture pass over a subtree no [picture] of the result has
    an [img] below it. *)
Lemma processPicture_pictures (baseURL : url.URL) (n : Node) :
  Forall (fun p => FindIn p (tag "img") = [])
         (flat_map (findAll (matches (tag "picture")))
                   (processPicture baseURL n)).
Proof.
  induction n as [d|d|t attrs kids IH] using Node_tree_ind.
  - constructor.
  - constructor.
  - cbn [processPicture].
    destruct (String.eqb t "picture") eqn:Et.
    + destruct (FindIn (ElementNode t attrs kids) (tag "img"))
        as [|i imgs] eqn:Ef.
      * cbn [flat_map]. rewrite app_nil_r.
        assert (Hc : clean (tag "img") (ElementNode t attrs kids)).
        { apply clean_element. split.
          - rewrite matches_tag. apply String.eqb_eq in Et. now subst t.
          - apply flat_map_nil_Forall. exact Ef. }
        eapply Forall_impl; [|apply clean_found; exact Hc].
        intros p. apply clean_FindIn.
      * apply Forall_flat_map. rewrite Forall_map.
        assert (Hm : Forall (fun x => matches (tag "img") x = true)
                            (i :: imgs)).
        { rewrite <- Ef. cbn [FindIn].
          apply Forall_flat_map, Forall_forall. intros k _.
          apply findAll_matches. }
        eapply Forall_impl; [|exact Hm].
        intros img. apply pictureImg_pictures.
    + cbn [flat_map findAll]. rewrite matches_tag, Et, app_nil_r.
      cbn [app].
      apply Forall_flat_map, Forall_flat_map.
      eapply Forall_impl; [|exact IH].
      intros k Hk. apply Forall_flat_map. exact Hk.
Qed.

(** A subtree in which no [picture] has an [img] below it is left as it
    is. *)
Lemma processPicture_settled (baseURL : url.URL) (n : Node) :
  Forall (fun p => FindIn p (tag "img") = [])
         (findAll (matches (tag "picture")) n) ->
  processPicture baseURL n = [n].
Proof.
  induction n as [d|d|t attrs kids IH] using Node_tree_ind; intros H.
  - reflexivity.
  - reflexivity.
  - cbn [findAll] in H. rewrite matches_tag in H.
    cbn [processPicture].
    destruct (String.eqb t "picture") eqn:Et.
    + inversion H as [|x l Hx _]; subst. now rewrite Hx.
    + cbn [app] in H. do 2 f_equal.
      apply flat_map_singletons.
      apply Forall_flat_map in H.
      rewrite Forall_forall in *. intros k Hin. apply IH; auto.
Qed.

Lemma findAll_pictureImg (hq : string) (baseURL : url.URL) (img : Node) :
  matches (tag "img") img = true ->
  findAll (matches (tag "img")) (pictureImg hq baseURL img)
  = [pictureImg hq baseURL img].
Proof.
  destruct img as [d|d|t attrs kids]; [discriminate | discriminate |].
  intros Hm. cbn [pictureImg findAll].
  rewrite matches_tag in Hm. rewrite matches_tag, Hm. cbn [app].
  f_equal. apply flat_map_nil_Forall.
  apply Forall_flat_map, Forall_forall. intros k _.
  eapply Forall_impl; [|apply detach_removes]. intros d Hd. exact Hd.
Qed.

(** The images below a node after the picture pass are the images that
    were below it, in their order: each has the attributes it had, or is
    the image rewritten by the picture callback. *)
Lemma processPicture_imgs (baseURL : url.URL) (n : Node) :
  Forall2 (fun new old => attrsOf new = attrsOf old
                          \/ exists hq, new = pictureImg hq baseURL old)
          (flat_map (findAll (matches (tag "img")))
                    (processPicture baseURL n))
          (findAll (matches (tag "img")) n).
Proof.
  assert (Hrefl : forall l : list Node,
             Forall2 (fun new old =>
                        attrsOf new = attrsOf old
                        \/ exists hq, new = pictureImg hq baseURL old) l l).
  { induction l; constructor; auto. }
  induction n as [d|d|t attrs kids IH] using Node_tree_ind.
  - constructor.
  - constructor.
  - cbn [processPicture].
    destruct (String.eqb t "picture") eqn:Et.
    + destruct (FindIn (ElementNode t attrs kids) (tag "img"))
        as [|i imgs] eqn:Ef.
      * cbn [flat_map]. rewrite app_nil_r. apply Hrefl.
      * assert (Hall : findAll (matches (tag "img"))
                               (ElementNode t attrs kids) = i :: imgs).
        { cbn [findAll]. rewrite matches_tag.
          apply String.eqb_eq in Et. subst t. exact Ef. }
        rewrite Hall.
        assert (Hm : Forall (fun x => matches (tag "img") x = true)
                            (i :: imgs)).
        { rewrite <- Ef. cbn [FindIn].
          apply Forall_flat_map, Forall_forall. intros k _.
          apply findAll_matches. }
        set (hq := findHighestQualitySource (ElementNode t attrs kids)).
        clearbody hq. clear Ef Hall.
        induction Hm as [|x l Hx _ IHl]; [constructor|].
        cbn [map flat_map]. rewrite (findAll_pictureImg hq baseURL x Hx).
        constructor; [right; now exists hq | exact IHl].
    + cbn [flat_map findAll]. rewrite app_nil_r.
      rewrite (matches_children (tag "img") t attrs _ kids).
      apply Forall2_app.
      * destruct (matches (tag "img") (ElementNode t attrs kids));
          constructor; [left; reflexivity | constructor].
      * clear Et. induction IH as [|k kids Hk _ IHk]; [constructor|].
        cbn [flat_map]. rewrite flat_map_app.
        now apply Forall2_app.
Qed.

(** X10.  After [processPictureElements] no [picture] element of the
    document has an [img] element below it, and no image is lost: the
    [img] elements of the document after the pass are those before it, one
    for one and in document order, each with the attributes it had or
    rewritten by the picture callback.  The pass works in place: a
    [picture] with at least one [img] below it is replaced, where it
    stands, by those [img] elements rewritten with the selection of the
    picture; a [picture] without image, a text and a comment stay; the
    pass descends into every other element. *)
Theorem processPictureElements_no_img_in_picture (doc : Document)
        (baseURL : url.URL) :
  Forall (fun p => FindIn p (tag "img") = [])
         (Find (processPictureElements doc baseURL) (tag "picture"))
  /\ Forall2 (fun new old => attrsOf new = attrsOf old
                             \/ exists hq, new = pictureImg hq baseURL old)
             (Find (processPictureElements doc baseURL) (tag "img"))
             (Find doc (tag "img"))
  /\ List.length (Find (processPictureElements doc baseURL) (tag "img"))
     = List.length (Find doc (tag "img"))
  /\ (forall before after,
        doc = (before ++ after)%list ->
        processPictureElements doc baseURL
        = (processPictureElements before baseURL
             ++ processPictureElements after baseURL)%list)
  /\ (forall pattrs kids,
        doc = [ElementNode "picture" pattrs kids] ->
        (FindIn (ElementNode "picture" pattrs kids) (tag "img") <> [] ->
         processPictureElements doc baseURL
         = map (pictureImg
                  (findHighestQualitySource
                     (ElementNode "picture" pattrs kids)) baseURL)
               (FindIn (ElementNode "picture" pattrs kids) (tag "img")))
        /\ (FindIn (ElementNode "picture" pattrs kids) (tag "img") = [] ->
            processPictureElements doc baseURL = doc))
  /\ (forall t attrs kids,
        doc = [ElementNode t attrs kids] -> t <> "picture" ->
        processPictureElements doc baseURL
        = [ElementNode t attrs (processPictureElements kids baseURL)])
  /\ (forall d, doc = [TextNode d] \/ doc = [CommentNode d] ->
                processPictureElements doc baseURL = doc).
Proof.
  assert (H2 : Forall2 (fun new old =>
                          attrsOf new = attrsOf old
                          \/ exists hq, new = pictureImg hq baseURL old)
                       (Find (processPictureElements doc baseURL)
                             (tag "img"))
                       (Find doc (tag "img"))).
  { unfold Find, processPictureElements.
    induction doc as [|n doc IH]; [constructor|].
    cbn [flat_map]. rewrite flat_map_app.
    apply Forall2_app; [apply processPicture_imgs | exact IH]. }
  split.
  { unfold Find, processPictureElements.
    apply Forall_flat_map, Forall_flat_map, Forall_forall. intros n _.
    apply Forall_flat_map. apply processPicture_pictures. }
  split; [exact H2|].
  split; [exact (Forall2_length H2)|].
  split.
  { intros before after ->. unfold processPictureElements.
    apply flat_map_app. }
  split.
  { intros pattrs kids ->. unfold processPictureElements.
    cbn [flat_map processPicture String.eqb Ascii.eqb Bool.eqb andb].
    rewrite app_nil_r.
    split.
    - intros H.
      destruct (FindIn (ElementNode "picture" pattrs kids) (tag "img"));
        [now contradiction H | reflexivity].
    - intros ->. reflexivity. }
  split.
  { intros t attrs kids -> Ht. unfold processPictureElements.
    cbn [flat_map processPicture]. apply String.eqb_neq in Ht.
    now rewrite Ht. }
  intros d [-> | ->]; reflexivity.
Qed.

Lemma processPictureElements_no_img_in_picture_witness :
  FindIn scenarioPicture (tag "img") <> []
  /\ processPictureElements [scenarioPicture] siteBase
     = [ElementNode "img" [mkAttr "src" "https://site.com/b.jpg"] []]
  /\ List.length
       (Find (processPictureElements galleryPage siteBase) (tag "img"))
     = 2%nat
  /\ List.length (Find galleryPage (tag "img")) = 2%nat.
Proof.
  assert (Hi : FindIn scenarioPicture (tag "img") <> []) by discriminate.
  destruct (processPictureElements_no_img_in_picture
              [scenarioPicture] siteBase) as (_ & _ & _ & _ & H5 & _).
  destruct (processPictureElements_no_img_in_picture
              galleryPage siteBase) as (_ & _ & H3 & _).
  split; [exact Hi|].
  split; [rewrite (proj1 (H5 _ _ eq_refl) Hi); vm_compute; reflexivity|].
  split; [rewrite H3|]; vm_compute; reflexivity.
Defined.

(** X11.  The picture pass is idempotent: run again, even with another
    base URL, it leaves the document as the first run left it. *)
Theorem processPictureElements_idempotent (doc : Document)
        (baseURL baseURL' : url.URL) :
  processPictureElements (processPictureElements doc baseURL) baseURL'
  = processPictureElements doc baseURL.
Proof.
  unfold processPictureElements.
  apply flat_map_singletons.
  apply Forall_flat_map, Forall_forall. intros n _.
  assert (H := processPicture_pictures baseURL n).
  apply Forall_flat_map in H.
  eapply Forall_impl; [|exact H].
  intros k. apply processPicture_settled.
Qed.

End PictureCoverage.

(** ** The image rewriter, standalone pass *)

Section ImageCoverage.

Import html Cleaner.

Lemma getAttr_removeAttr_same (name : string) (attrs : list Attribute) :
  distinctKeys attrs -> getAttr name (removeAttr name attrs) = None.
Proof.
  intros H.
  destruct (getAttr name (removeAttr name attrs)) as [v|] eqn:E;
    [|reflexivity].
  apply getAttr_In in E; [|now apply distinctKeys_removeAttr].
  eapply Permutation_in in E; [|apply removeAttr_Permutation].
  apply In_dropFirst in E as [_ E]; [|exact H].
  now contradiction E.
Qed.

Lemma getAttr_setAttr_other (name other val : string)
      (attrs : list Attribute) :
  name <> other ->
  getAttr name (setAttr other val attrs) = getAttr name attrs.
Proof.
  intros Hne. apply String.eqb_neq in Hne.
  induction attrs as [|a attrs IH]; cbn [setAttr getAttr].
  - cbn. rewrite String.eqb_sym. now rewrite Hne.
  - destruct (String.eqb (Key a) other) eqn:E; cbn [getAttr Key].
    + apply String.eqb_eq in E. rewrite E.
      rewrite String.eqb_sym. now rewrite Hne.
    + now rewrite IH.
Qed.

Lemma distinctKeys_imgAttrs (baseURL : url.URL) (attrs : list Attribute) :
  distinctKeys attrs -> distinctKeys (imgAttrs baseURL attrs).
Proof.
  intros H. unfold imgAttrs.
  assert (H3 : distinctKeys
                 (removeAttr "srcset"
                    (removeAttr "decoding" (removeAttr "loading" attrs))))
    by (repeat apply distinctKeys_removeAttr; exact H).
  destruct (getAttr "src" _); [|exact H3].
  destruct (negb _); [now apply distinctKeys_setAttr | exact H3].
Qed.

(** X12.  The callback of [processImgElements] on an [img] whose
    attribute keys are distinct: [loading], [decoding] and [srcset] are
    gone, [src] (when present) holds the resolved URL, every other
    attribute keeps its value, and the keys are still distinct. *)
Theorem imgAttrs_effect (baseURL : url.URL) (attrs : list Attribute)
        (name : string) :
  distinctKeys attrs ->
  getAttr name (imgAttrs baseURL attrs)
  = (if String.eqb name "loading" || String.eqb name "decoding"
        || String.eqb name "srcset"
     then None
     else if String.eqb name "src"
          then option_map (fun src => resolveURL src baseURL)
                          (getAttr "src" attrs)
          else getAttr name attrs)
  /\ distinctKeys (imgAttrs baseURL attrs).
Proof.
  intros H. split; [|now apply distinctKeys_imgAttrs].
  assert (H1 := distinctKeys_removeAttr "loading" attrs H).
  assert (H2 := distinctKeys_removeAttr "decoding" _ H1).
  assert (H3 := distinctKeys_removeAttr "srcset" _ H2).
  set (attrs3 := removeAttr "srcset"
                   (removeAttr "decoding" (removeAttr "loading" attrs)))
    in *.
  assert (Hsrc : getAttr "src" attrs3 = getAttr "src" attrs).
  { unfold attrs3.
    rewrite !getAttr_removeAttr_other; try discriminate; auto. }
  assert (Hin : forall k,
             getAttr k attrs3
             = if String.eqb k "loading" || String.eqb k "decoding"
                  || String.eqb k "srcset"
               then None else getAttr k attrs).
  { intros k. unfold attrs3.
    destruct (String.eqb k "srcset") eqn:E3.
    { apply String.eqb_eq in E3. subst k. cbn [String.eqb orb].
      rewrite orb_true_r. now apply getAttr_removeAttr_same. }
    apply String.eqb_neq in E3.
    rewrite (getAttr_removeAttr_other k "srcset" _ H2 E3).
    destruct (String.eqb k "decoding") eqn:E2.
    { apply String.eqb_eq in E2. subst k. cbn [String.eqb orb].
      rewrite orb_true_r. now apply getAttr_removeAttr_same. }
    apply String.eqb_neq in E2.
    rewrite (getAttr_removeAttr_other k "decoding" _ H1 E2).
    destruct (String.eqb k "loading") eqn:E1.
    { apply String.eqb_eq in E1. subst k.
      now apply getAttr_removeAttr_same. }
    apply String.eqb_neq in E1.
    now rewrite (getAttr_removeAttr_other k "loading" _ H E1). }
  assert (Hout : getAttr name (imgAttrs baseURL attrs)
                 = if String.eqb name "src"
                   then option_map (fun src => resolveURL src baseURL)
                                   (getAttr "src" attrs3)
                   else getAttr name attrs3).
  { unfold imgAttrs. fold attrs3.
    destruct (String.eqb name "src") eqn:Es.
    - apply String.eqb_eq in Es. subst name.
      destruct (getAttr "src" attrs3) as [src|] eqn:E; cbn [option_map].
      + destruct (String.eqb (resolveURL src baseURL) src) eqn:R;
          cbn [negb].
        * apply String.eqb_eq in R. now rewrite E, R.
        * apply getAttr_setAttr.
      + exact E.
    - apply String.eqb_neq in Es.
      destruct (getAttr "src" attrs3) as [src|]; [|reflexivity].
      destruct (negb _); [|reflexivity].
      now apply getAttr_setAttr_other. }
  rewrite Hout, Hsrc, Hin.
  destruct (String.eqb name "src") eqn:Es; [|reflexivity].
  apply String.eqb_eq in Es. subst name. reflexivity.
Qed.

Lemma imgAttrs_effect_witness :
  let attrs := [mkAttr "srcset" "a 1x"; mkAttr "src" "//cdn.site.com/a.png";
                mkAttr "alt" "A"; mkAttr "loading" "lazy"] in
  distinctKeys attrs
  /\ getAttr "srcset" (imgAttrs siteBase attrs) = None
  /\ getAttr "loading" (imgAttrs siteBase attrs) = None
  /\ getAttr "src" (imgAttrs siteBase attrs)
     = Some "https://cdn.site.com/a.png"
  /\ getAttr "alt" (imgAttrs siteBase attrs) = Some "A".
Proof.
  cbv zeta.
  assert (Hd : distinctKeys
                 [mkAttr "srcset" "a 1x";
                  mkAttr "src" "//cdn.site.com/a.png";
                  mkAttr "alt" "A"; mkAttr "loading" "lazy"]).
  { repeat constructor; simpl; intuition discriminate. }
  split; [exact Hd|].
  split; [exact (proj1 (imgAttrs_effect siteBase _ "srcset" Hd))|].
  split; [exact (proj1 (imgAttrs_effect siteBase _ "loading" Hd))|].
  split; [exact (proj1 (imgAttrs_effect siteBase _ "src" Hd))|].
  exact (proj1 (imgAttrs_effect siteBase _ "alt" Hd)).
Defined.

Lemma findAll_tag_processImg (baseURL : url.URL) (name : string)
      (n : Node) :
  findAll (matches (tag name)) (processImg baseURL n)
  = map (processImg baseURL) (findAll (matches (tag name)) n).
Proof.
  induction n as [d|d|t attrs kids IH] using Node_tree_ind.
  - reflexivity.
  - reflexivity.
  - cbn [processImg findAll]. rewrite !matches_tag, map_app.
    f_equal.
    + destruct (String.eqb t name); reflexivity.
    + induction IH as [|k kids Hk _ IHk]; [reflexivity|].
      cbn [map flat_map]. now rewrite map_app, Hk, IHk.
Qed.

Lemma Find_tag_processImgElements (doc : Document) (baseURL : url.URL)
      (name : string) :
  Find (processImgElements doc baseURL) (tag name)
  = map (processImg baseURL) (Find doc (tag name)).
Proof.
  unfold Find, processImgElements.
  induction doc as [|n doc IH]; [reflexivity|].
  cbn [map flat_map]. now rewrite map_app, findAll_tag_processImg, IH.
Qed.

(** X13.  [processImgElements] touches attributes of [img] elements and
    nothing else: for every tag name the elements of that name after the
    pass are, one for one and in document order, the elements before it,
    with the attributes rewritten by the callback for [img] and as they
    were for every other name, and with the same text.  No element is
    added or removed. *)
Theorem processImgElements_shape (doc : Document) (baseURL : url.URL)
        (name : string) :
  map attrsOf (Find (processImgElements doc baseURL) (tag name))
  = map (fun n => if String.eqb name "img"
                  then imgAttrs baseURL (attrsOf n) else attrsOf n)
        (Find doc (tag name))
  /\ List.length (Find (processImgElements doc baseURL) (tag name))
     = List.length (Find doc (tag name))
  /\ Text (processImgElements doc baseURL) = Text doc.
Proof.
  rewrite Find_tag_processImgElements.
  split; [|split].
  - rewrite map_map. apply map_ext_in. intros n Hn.
    assert (Hm : matches (tag name) n = true).
    { pose proof (Find_matches doc (tag name)) as H.
      rewrite Forall_forall in H. auto. }
    destruct n as [d|d|t attrs kids]; [discriminate | discriminate |].
    rewrite matches_tag in Hm. apply String.eqb_eq in Hm. subst t.
    reflexivity.
  - apply length_map.
  - assert (Hn : forall n, nodeText (processImg baseURL n) = nodeText n).
    { intros n.
      induction n as [d|d|t attrs kids IH] using Node_tree_ind;
        [reflexivity | reflexivity |].
      cbn [processImg nodeText].
      induction IH as [|k kids Hk _ IHk]; [reflexivity|].
      cbn [map fold_right]. now rewrite Hk, IHk. }
    unfold Text, processImgElements.
    induction doc as [|n doc IH]; [reflexivity|].
    cbn [map fold_right]. now rewrite Hn, IH.
Qed.

(** X9.  With a base URL of scheme http or https, after
    [processImgElements], and so after [processImages], the [src] of
    every [img] element of the document is empty or begins with http://
    or https://. *)
Theorem processImgElements_absolute (doc : Document) (baseURL : url.URL) :
  validBase baseURL ->
  Forall (fun img => forall s, nodeAttr img "src" = Some s ->
                               emptyOrAbsolute s)
         (Find (processImgElements doc baseURL) (tag "img"))
  /\ Forall (fun img => forall s, nodeAttr img "src" = Some s ->
                                 emptyOrAbsolute s)
            (Find (processImages doc baseURL) (tag "img")).
Proof.
  intros [Hs _].
  assert (H : forall d,
             Forall (fun img => forall s, nodeAttr img "src" = Some s ->
                                          emptyOrAbsolute s)
                    (Find (processImgElements d baseURL) (tag "img"))).
  { intros d. unfold processImgElements, Find.
    apply Forall_flat_map. rewrite Forall_map.
    apply Forall_forall. intros n _.
    eapply Forall_impl; [|apply processImg_imgs].
    intros img Hi s Hsrc. destruct (Hi s Hsrc) as [raw ->].
    now apply resolveURL_shape. }
  split; [apply H | apply (H (processPictureElements doc baseURL))].
Qed.

Lemma processImgElements_absolute_witness :
  validBase siteBase
  /\ map (fun img => nodeAttr img "src")
         (Find (processImages galleryPage siteBase) (tag "img"))
     = [Some "https://site.com/l.png"; Some "https://cdn.site.com/a.png"]
  /\ Forall (fun img => forall s, nodeAttr img "src" = Some s ->
                                 emptyOrAbsolute s)
            (Find (processImages galleryPage siteBase) (tag "img")).
Proof.
  assert (V : validBase siteBase)
    by (split; [right; reflexivity | discriminate]).
  split; [exact V|].
  split; [vm_compute; reflexivity|].
  exact (proj2 (processImgElements_absolute galleryPage siteBase V)).
Defined.

End ImageCoverage.

(** ** The text normaliser *)

Section TextCoverage.

Import strings regexp Cleaner.

Lemma skip_append (a r : string) : skip (String.length a) (a ++ r) = r.
Proof. induction a; simpl; auto. Qed.

Lemma stripAny_length (alts : list string) (s r : string) :
  Forall (fun a => a <> "") alts ->
  stripAny alts s = Some r ->
  (String.length r + 1 <= String.length s)%nat.
Proof.
  induction 1 as [|a alts Ha _ IH]; cbn [stripAny]; [discriminate|].
  destruct (HasPrefix s a) eqn:E; [|exact IH].
  intros [= <-]. apply HasPrefix_split in E as [r ->].
  rewrite skip_append, length_append.
  destruct a; [contradiction | simpl; lia].
Qed.

Lemma orbit_nonempty (c : ascii) : Forall (fun a => a <> "") (orbit c).
Proof.
  unfold orbit. apply Forall_app. split.
  - repeat constructor; discriminate.
  - destruct (Ascii.eqb c "k"); [repeat constructor; discriminate|].
    destruct (Ascii.eqb c "s"); repeat constructor; discriminate.
Qed.

(** A match consumes at least [minLength re] bytes, and what is left is
    no longer than the subject. *)
Lemma matchHere_length (re : Regexp) :
  forall s rest,
    matchHere re s = Some rest ->
    (String.length rest + minLength re <= String.length s)%nat.
Proof.
  induction re as [|it re IH]; intros s rest H.
  - cbn in H. injection H as <-. cbn. lia.
  - destruct it as [k|k|c|c].
    + destruct s as [|c r]; cbn [matchHere] in H; [discriminate|].
      destruct (inClass k c); [|discriminate].
      apply IH in H. cbn [minLength String.length]. lia.
    + cbn [minLength]. revert rest H.
      induction s as [|c r IHs]; intros rest H.
      * cbn in H. now apply IH in H.
      * cbn [matchHere] in H.
        destruct (inClass k c).
        -- match type of H with
           | match ?x with Some _ => _ | None => _ end = _ =>
               destruct x as [rest'|] eqn:E
           end.
           ++ injection H as <-. apply IHs in E.
              cbn [String.length]. lia.
           ++ now apply IH in H.
        -- now apply IH in H.
    + cbn [matchHere] in H.
      destruct (stripAny (orbit c) s) as [r|] eqn:E; [|discriminate].
      apply stripAny_length in E; [|apply orbit_nonempty].
      apply IH in H. cbn [minLength]. lia.
    + cbn [matchHere] in H. cbn [minLength].
      destruct (stripAny (orbit c) s) as [r|] eqn:E.
      * destruct (matchHere re r) as [rest'|] eqn:E'.
        -- injection H as <-.
           apply stripAny_length in E; [|apply orbit_nonempty].
           apply IH in E'. lia.
        -- now apply IH in H.
      * now apply IH in H.
Qed.

(** Replacing matches by a string no longer than any match does not
    lengthen the subject. *)
Lemma replaceFrom_length (re : Regexp) (repl : string) :
  (String.length repl <= minLength re)%nat ->
  forall s pending,
    (pending <= String.length s)%nat ->
    (String.length (replaceFrom re repl s pending) + pending
     <= String.length s)%nat.
Proof.
  intros Hr. induction s as [|c r IH]; intros pending Hp.
  - cbn in *. lia.
  - cbn [replaceFrom]. destruct pending as [|k].
    + destruct (matchHere re (String c r)) as [rest|] eqn:E.
      * apply matchHere_length in E.
        destruct (String.length (String c r) - String.length rest)%nat
          as [|k] eqn:Ek.
        -- cbn [String.length] in *. specialize (IH 0%nat). lia.
        -- rewrite length_append. cbn [String.length] in *.
           specialize (IH k). lia.
      * cbn [String.length]. specialize (IH 0%nat). lia.
    + cbn [String.length] in *. specialize (IH k). lia.
Qed.

Lemma ReplaceAllString_length (re : Regexp) (s repl : string) :
  (String.length repl <= minLength re)%nat ->
  (String.length (ReplaceAllString re s repl) <= String.length s)%nat.
Proof.
  intros H. unfold ReplaceAllString.
  pose proof (replaceFrom_length re repl H s 0). lia.
Qed.

Lemma trimHead_length (width : string -> nat) (s : string) :
  forall pending,
    (String.length (trimHead width s pending) <= String.length s)%nat.
Proof.
  induction s as [|c r IH]; intros pending; cbn [trimHead]; [lia|].
  destruct pending as [|k].
  - destruct (width (String c r)); [lia|].
    specialize (IH n). cbn [String.length]. lia.
  - specialize (IH k). cbn [String.length]. lia.
Qed.

Lemma reverseOnto_length (s acc : string) :
  String.length (reverseOnto s acc)
  = (String.length s + String.length acc)%nat.
Proof.
  revert acc. induction s as [|c r IH]; intros acc; cbn; [reflexivity|].
  rewrite IH. cbn. lia.
Qed.

Lemma reverse_length (s : string) :
  String.length (reverse s) = String.length s.
Proof. unfold reverse. rewrite reverseOnto_length. cbn. lia. Qed.

Lemma TrimSpace_length (s : string) :
  (String.length (TrimSpace s) <= String.length s)%nat.
Proof.
  unfold TrimSpace. rewrite reverse_length.
  etransitivity; [apply trimHead_length|].
  rewrite reverse_length. apply trimHead_length.
Qed.

(** X15.  [cleanTextContent] never lengthens its input: each of its
    replacements is no longer than the shortest match of its pattern, and
    trimming only removes bytes. *)
Theorem cleanTextContent_length (content : string) :
  (String.length (cleanTextContent content) <= String.length content)%nat.
Proof.
  unfold cleanTextContent.
  etransitivity; [apply TrimSpace_length|].
  set (c1 := ReplaceAllString _ content _).
  set (c2 := ReplaceAllString _ c1 _).
  assert (H1 : (String.length c1 <= String.length content)%nat).
  { apply ReplaceAllString_length. cbn. lia. }
  assert (H2 : (String.length c2 <= String.length c1)%nat).
  { apply ReplaceAllString_length. cbn. lia. }
  assert (H3 : forall pats c,
             (String.length
                (fold_left
                   (fun content pattern =>
                      ReplaceAllString pattern content "") pats c)
              <= String.length c)%nat).
  { induction pats as [|re pats IH]; intros c; cbn [fold_left]; [lia|].
    etransitivity; [apply IH|].
    apply ReplaceAllString_length. cbn. lia. }
  specialize (H3 unwantedTextPatterns c2). lia.
Qed.

Lemma lacksByte_append (b : ascii) (x y : string) :
  lacksByte b (x ++ y) = lacksByte b x && lacksByte b y.
Proof.
  induction x as [|c r IH]; cbn; [reflexivity|].
  now rewrite IH, andb_assoc.
Qed.

Lemma lacksByte_reverseOnto (b : ascii) (s acc : string) :
  lacksByte b (reverseOnto s acc) = lacksByte b s && lacksByte b acc.
Proof.
  revert acc. induction s as [|c r IH]; intros acc; cbn; [reflexivity|].
  rewrite IH. cbn.
  destruct (Ascii.eqb c b), (lacksByte b r), (lacksByte b acc); reflexivity.
Qed.

Lemma lacksByte_trimHead (b : ascii) (width : string -> nat) (s : string) :
  forall pending,
    lacksByte b s = true -> lacksByte b (trimHead width s pending) = true.
Proof.
  induction s as [|c r IH]; intros pending H; cbn [trimHead]; [exact H|].
  assert (Hr : lacksByte b r = true).
  { cbn in H. now apply andb_true_iff in H as [_ H]. }
  destruct pending as [|k]; [|now apply IH].
  destruct (width (String c r)); [exact H | now apply IH].
Qed.

Lemma lacksByte_TrimSpace (b : ascii) (s : string) :
  lacksByte b s = true -> lacksByte b (TrimSpace s) = true.
Proof.
  intros H. unfold TrimSpace, reverse.
  rewrite lacksByte_reverseOnto, andb_true_r.
  apply lacksByte_trimHead.
  rewrite lacksByte_reverseOnto, andb_true_r.
  now apply lacksByte_trimHead.
Qed.

(** What a replacement writes is the replacement string and bytes of the
    subject. *)
Lemma lacksByte_replaceFrom (b : ascii) (re : Regexp) (repl : string) :
  lacksByte b repl = true ->
  forall s pending,
    lacksByte b s = true ->
    lacksByte b (replaceFrom re repl s pending) = true.
Proof.
  intros Hr. induction s as [|c r IH]; intros pending H;
    cbn [replaceFrom]; [reflexivity|].
  cbn [lacksByte] in H. apply andb_true_iff in H as [Hc Hs].
  destruct pending as [|k]; [|now apply IH].
  assert (Hk : lacksByte b (String c (replaceFrom re repl r 0)) = true).
  { cbn [lacksByte]. rewrite Hc. now apply IH. }
  destruct (matchHere re (String c r)) as [rest|]; [|exact Hk].
  destruct (String.length (String c r) - String.length rest)%nat;
    [exact Hk|].
  rewrite lacksByte_append, Hr. now apply IH.
Qed.

Lemma matchHere_star_total (k : Class) (s : string) :
  matchHere [Star k] s <> None.
Proof.
  induction s as [|c r IH]; cbn [matchHere]; [discriminate|].
  destruct (inClass k c); [|discriminate].
  cbn [matchHere] in IH.
  match goal with
  | |- match ?x with Some _ => _ | None => _ end <> None =>
      destruct x; [discriminate | contradiction]
  end.
Qed.

(** After [[ \t]+] has been replaced by one space no tab is left. *)
Lemma blanks_replaced (s : string) :
  forall pending,
    lacksByte "009"
      (replaceFrom [One Blank; Star Blank] " " s pending) = true.
Proof.
  induction s as [|c r IH]; intros pending; cbn [replaceFrom];
    [reflexivity|].
  destruct pending as [|k]; [|apply IH].
  destruct (matchHere [One Blank; Star Blank] (String c r)) as [rest|] eqn:E.
  - apply matchHere_length in E. cbn [minLength] in E.
    destruct (String.length (String c r) - String.length rest)%nat eqn:Ek;
      [lia|].
    rewrite lacksByte_append. cbn [lacksByte]. cbn. apply IH.
  - cbn [lacksByte]. rewrite IH, andb_true_r.
    destruct (Ascii.eqb c "009") eqn:Ec; [|reflexivity].
    apply Ascii.eqb_eq in Ec. subst c.
    cbn [matchHere] in E. cbn [inClass] in E.
    change (matchHere [Star Blank] r = None) in E.
    now apply matchHere_star_total in E.
Qed.

(** X14.  The text [cleanTextContent] returns contains no tab, whatever
    the input: every run of blanks has become one space, and the later
    steps only delete. *)
Theorem cleanTextContent_no_tab (content : string) :
  lacksByte "009" (cleanTextContent content) = true.
Proof.
  unfold cleanTextContent.
  apply lacksByte_TrimSpace.
  set (c1 := ReplaceAllString _ content _).
  assert (H2 : lacksByte "009" (ReplaceAllString [One Blank; Star Blank]
                                                c1 " ") = true)
    by apply blanks_replaced.
  revert H2. generalize (ReplaceAllString [One Blank; Star Blank] c1 " ").
  induction unwantedTextPatterns as [|re pats IH]; intros c H;
    cbn [fold_left]; [exact H|].
  apply IH. unfold ReplaceAllString.
  now apply lacksByte_replaceFrom.
Qed.

Lemma trimHead_width (width : string -> nat) (s : string) :
  width "" = 0%nat ->
  forall pending, width (trimHead width s pending) = 0%nat.
Proof.
  intros Hw. induction s as [|c r IH]; intros pending; cbn [trimHead];
    [exact Hw|].
  destruct pending as [|k]; [|apply IH].
  destruct (width (String c r)) eqn:E; [exact E | apply IH].
Qed.

Lemma trimHead_fixed (width : string -> nat) (s : string) :
  width s = 0%nat -> trimHead width s 0 = s.
Proof.
  intros H. destruct s as [|c r]; [reflexivity|].
  cbn [trimHead]. now rewrite H.
Qed.

Lemma trimHead_suffix (width : string -> nat) (s : string) :
  forall pending, exists pre, s = pre ++ trimHead width s pending.
Proof.
  induction s as [|c r IH]; intros pending; cbn [trimHead];
    [now exists ""|].
  assert (Hd : forall k, exists pre,
               String c r = pre ++ trimHead width r k).
  { intros k. destruct (IH k) as [pre Hp].
    exists (String c pre). cbn. now rewrite <- Hp. }
  destruct pending as [|k]; [|apply Hd].
  destruct (width (String c r)); [now exists "" | apply Hd].
Qed.

Lemma reverseOnto_append (s acc : string) :
  reverseOnto s acc = reverse s ++ acc.
Proof.
  unfold reverse. revert acc.
  induction s as [|c r IH]; intros acc; cbn [reverseOnto];
    [reflexivity|].
  rewrite (IH (String c acc)), (IH (String c "")).
  now rewrite append_assoc.
Qed.

Lemma append_empty_r (s : string) : s ++ "" = s.
Proof. induction s; cbn; congruence. Qed.

Lemma reverse_append (a b : string) :
  reverse (a ++ b) = reverse b ++ reverse a.
Proof.
  induction a as [|c r IH].
  - cbn. now rewrite append_empty_r.
  - cbn [append]. unfold reverse at 1 3. cbn [reverseOnto].
    rewrite !reverseOnto_append, IH. now rewrite append_assoc.
Qed.

Lemma reverse_involutive (s : string) : reverse (reverse s) = s.
Proof.
  induction s as [|c r IH]; [reflexivity|].
  unfold reverse at 2. cbn [reverseOnto].
  rewrite reverseOnto_append, reverse_append, IH. reflexivity.
Qed.

(** No white space rune begins a prefix of a string that begins with
    none. *)
Lemma spaceWidth_prefix (a b : string) :
  spaceWidth (a ++ b) = 0%nat -> spaceWidth a = 0%nat.
Proof.
  destruct a as [|c0 [|c1 [|c2 a]]]; cbn [append]; try reflexivity.
  - unfold spaceWidth.
    destruct (isAsciiSpace c0); [destruct b; discriminate | reflexivity].
  - unfold spaceWidth.
    destruct (isAsciiSpace c0); [discriminate|].
    destruct (_ && _)%nat; [discriminate|]. reflexivity.
  - unfold spaceWidth. tauto.
Qed.

(** X16.  The text [cleanTextContent] returns neither begins nor ends
    with a white space rune, and trimming it again changes nothing. *)
Theorem cleanTextContent_trimmed (content : string) :
  spaceWidth (cleanTextContent content) = 0%nat
  /\ spaceWidthRev (reverse (cleanTextContent content)) = 0%nat
  /\ TrimSpace (cleanTextContent content) = cleanTextContent content.
Proof.
  unfold cleanTextContent.
  match goal with
  | |- context [TrimSpace ?x] => generalize x
  end.
  intros s.
  assert (Hend : spaceWidthRev (reverse (TrimSpace s)) = 0%nat).
  { unfold TrimSpace. rewrite reverse_involutive.
    now apply trimHead_width. }
  assert (Hstart : spaceWidth (TrimSpace s) = 0%nat).
  { unfold TrimSpace.
    set (t1 := trimHead spaceWidth s 0).
    assert (H1 : spaceWidth t1 = 0%nat) by now apply trimHead_width.
    destruct (trimHead_suffix spaceWidthRev (reverse t1) 0) as [pre Hp].
    apply (f_equal reverse) in Hp.
    rewrite reverse_involutive, reverse_append in Hp.
    rewrite Hp in H1. now apply spaceWidth_prefix in H1. }
  split; [exact Hstart|]. split; [exact Hend|].
  unfold TrimSpace at 1.
  rewrite (trimHead_fixed _ _ Hstart), (trimHead_fixed _ _ Hend).
  apply reverse_involutive.
Qed.

End TextCoverage.

(** ** The pipeline and the debug file *)

Section PipelineCoverage.

Import html Cleaner.

(** What a successful run of [CleanArticle] went through. *)
Lemma CleanArticle_inversion (env : Env) (pageURL : string)
      (r : Result CleanedArticle) :
  CleanArticle env pageURL = Some r -> err r = None ->
  exists doc baseURL article excerpt,
    fetchAndParseDocument env pageURL = inl (doc, baseURL)
    /\ fromDocument env (processed doc baseURL) = inl article
    /\ generateExcerpt (cleanTextContent (art_TextContent article)) 200
       = Some excerpt
    /\ Content (value r) = cleanTextContent (art_TextContent article)
    /\ Excerpt (value r) = excerpt
    /\ Length (value r)
       = Z.of_nat (String.length (cleanTextContent (art_TextContent article)))
    /\ URL (value r) = pageURL
    /\ OpenGraph (value r) = Some (extractOpenGraphData doc pageURL baseURL)
    /\ written r = saveDebugHTML env (processed doc baseURL).
Proof.
  unfold CleanArticle, processed.
  destruct (fetchAndParseDocument env pageURL) as [[doc baseURL]|e].
  - destruct (fromDocument env _) as [article|e] eqn:Ef.
    + destruct (generateExcerpt _ 200) as [excerpt|] eqn:Ee;
        [|discriminate].
      intros H _.
      apply (f_equal (fun o => match o with Some x => x | None => r end))
        in H.
      subst r. exists doc, baseURL, article, excerpt.
      cbn [value written Content Excerpt Length URL OpenGraph].
      repeat (split; [first [reflexivity | assumption]|]).
      reflexivity.
    + intros [= <-]. discriminate.
  - intros [= <-]. discriminate.
Qed.

(** X17.  The metadata attached to a successfully cleaned article is what
    [ExtractOpenGraphData] returns for the same URL, and what
    [GetOpenGraphData] returns when the logger can be built: it is taken
    from the page as fetched, before anything is pruned.  The article
    carries the request URL. *)
Theorem CleanArticle_OpenGraph (env : Env) (pageURL : string)
        (r : Result CleanedArticle) :
  CleanArticle env pageURL = Some r -> err r = None ->
  err (ExtractOpenGraphData env pageURL) = None
  /\ OpenGraph (value r) = Some (value (ExtractOpenGraphData env pageURL))
  /\ (newSugaredLogger env = None ->
      OpenGraph (value r) = Some (GetOpenGraphData env pageURL))
  /\ URL (value r) = pageURL.
Proof.
  intros H He.
  destruct (CleanArticle_inversion env pageURL r H He)
    as (doc & baseURL & article & excerpt & Hf & _ & _ & _ & _ & _
        & Hu & Ho & _).
  unfold GetOpenGraphData, ExtractOpenGraphData. rewrite Hf.
  cbn [err value].
  split; [reflexivity|]. split; [exact Ho|]. split; [|exact Hu].
  intros ->. exact Ho.
Qed.

Lemma CleanArticle_OpenGraph_witness :
  let env :=
    pageEnv socialPage
            (inl (mkArticle "Title" "" "<p>text</p>" "text" None))
            (fun h => (h, None)) in
  exists r,
    CleanArticle env sitePage = Some r
    /\ err r = None
    /\ OpenGraph (value r) = Some (GetOpenGraphData env sitePage).
Proof.
  cbv zeta. eexists.
  split; [vm_compute; reflexivity|].
  split; [reflexivity|].
  refine (proj1 (proj2 (proj2
            (CleanArticle_OpenGraph _ sitePage _ _ _))) _);
    reflexivity.
Defined.

(** X18.  The debug file is a side effect only: with any other
    [doc.Html()] the article and the error of [CleanArticle] are the same.
    A run writes at most one file, always "tmp/article.html", and none
    when it fails. *)
Theorem CleanArticle_debug_file (env : Env)
        (render : Document -> string + error) (pageURL : string) :
  option_map (fun r => (value r, err r))
             (CleanArticle (withRenderHtml env render) pageURL)
  = option_map (fun r => (value r, err r)) (CleanArticle env pageURL)
  /\ GetCleanedArticle (withRenderHtml env render) pageURL
     = GetCleanedArticle env pageURL
  /\ forall r,
       CleanArticle env pageURL = Some r ->
       (List.length (written r) <= 1)%nat
       /\ Forall (fun w => fw_name w = "tmp/article.html") (written r)
       /\ (err r <> None -> written r = []).
Proof.
  assert (H1 : option_map (fun r => (value r, err r))
                 (CleanArticle (withRenderHtml env render) pageURL)
               = option_map (fun r => (value r, err r))
                            (CleanArticle env pageURL)).
  { unfold CleanArticle, fetchAndParseDocument, convertToMarkdown,
      withRenderHtml.
    cbn [httpGet newDocumentFromReader fromDocument convertString
         formatRFC3339].
    destruct (httpGet env pageURL) as [resp|e]; [|reflexivity].
    destruct (newDocumentFromReader env (Body resp)) as [doc|e];
      [|reflexivity].
    destruct (fromDocument env _) as [article|e]; [|reflexivity].
    destruct (generateExcerpt _ 200); reflexivity. }
  split; [exact H1|]. split.
  - unfold GetCleanedArticle.
    change (newSugaredLogger (withRenderHtml env render))
      with (newSugaredLogger env).
    destruct (newSugaredLogger env); [reflexivity|].
    destruct (CleanArticle (withRenderHtml env render) pageURL) as [r1|],
             (CleanArticle env pageURL) as [r2|];
      cbn [option_map] in H1; try discriminate; [|reflexivity].
    injection H1 as Hv Herr. rewrite Hv, Herr. reflexivity.
  - intros r. unfold CleanArticle.
    destruct (fetchAndParseDocument env pageURL) as [[doc baseURL]|e].
    + destruct (fromDocument env _) as [article|e].
      * destruct (generateExcerpt _ 200); [|discriminate].
        intros H.
        apply (f_equal (fun o => match o with Some x => x | None => r end))
          in H.
        subst r. cbn [written err]. unfold saveDebugHTML.
        destruct (renderHtml env _); cbn [List.length].
        -- split; [lia|]. split; [repeat constructor|].
           intros C. now contradiction C.
        -- split; [lia|]. split; [constructor | reflexivity].
      * intros [= <-]. cbn. split; [lia|]. split; [constructor|reflexivity].
    + intros [= <-]. cbn. split; [lia|]. split; [constructor|reflexivity].
Qed.

Lemma CleanArticle_debug_file_witness :
  let env :=
    pageEnv cafePage
            (inl (mkArticle "Menu" "" ("<p>" ++ cafe ++ "</p>") cafe None))
            (fun h => (cafe, None)) in
  exists r,
    CleanArticle env sitePage = Some r
    /\ written r = [mkFileWrite "tmp/article.html" "<html></html>"]
    /\ Forall (fun w => fw_name w = "tmp/article.html") (written r)
    /\ GetCleanedArticle (withRenderHtml env (fun _ => inr "no html"))
                          sitePage
       = GetCleanedArticle env sitePage.
Proof.
  intros env. eexists.
  split; [vm_compute; reflexivity|].
  split; [reflexivity|].
  destruct (CleanArticle_debug_file env (fun _ => inr "no html") sitePage)
    as (_ & H2 & H3).
  split; [|exact H2].
  refine (proj1 (proj2 (H3 _ _))). vm_compute; reflexivity.
Defined.

Lemma generateExcerpt_prefix (content : string) (maxLength : Z) :
  (0 <= maxLength < Z.of_nat (String.length content))%Z ->
  exists n,
    (maxLength - 50 < Z.of_nat n <= maxLength)%Z
    /\ generateExcerpt content maxLength
       = Some (strings.take n content ++ "...").
Proof.
  intros H. rewrite generateExcerpt_long by exact H. cbv zeta.
  set (p := strings.take (Z.to_nat maxLength) content).
  assert (Hlen : String.length p = Z.to_nat maxLength).
  { unfold p. rewrite take_length. lia. }
  destruct ((strings.LastIndex p " "%char >? 0)
            && (strings.LastIndex p " "%char >? maxLength - 50))%Z eqn:E.
  - apply andb_true_iff in E as [E1 E2].
    apply Z.gtb_lt in E1, E2.
    destruct (LastIndex_spec p " "%char) as [[En _] | (k & Ek & Hk & _)];
      [lia|].
    exists k. rewrite Ek in *. rewrite Nat2Z.id.
    split; [lia|]. unfold p. rewrite take_take by lia. reflexivity.
  - exists (Z.to_nat maxLength). split; [lia | reflexivity].
Qed.

(** X19.  The excerpt of a successfully cleaned article: it is the
    content itself when the content has at most 200 bytes; otherwise it
    is the first [n] bytes of the content, for some [n] from 151 to 200,
    followed by three dots.  It never has more than 203 bytes. *)
Theorem CleanArticle_Excerpt (env : Env) (pageURL : string)
        (r : Result CleanedArticle) :
  CleanArticle env pageURL = Some r -> err r = None ->
  ((Length (value r) <= 200)%Z -> Excerpt (value r) = Content (value r))
  /\ ((200 < Length (value r))%Z ->
      exists n, (150 < n <= 200)%nat
                /\ Excerpt (value r)
                   = strings.take n (Content (value r)) ++ "...")
  /\ (String.length (Excerpt (value r)) <= 203)%nat.
Proof.
  intros H He.
  destruct (CleanArticle_inversion env pageURL r H He)
    as (doc & baseURL & article & excerpt & _ & _ & Hx & Hc & He'
        & Hl & _).
  rewrite Hl, He', Hc.
  set (c := cleanTextContent (art_TextContent article)) in *.
  assert (Hshort : (Z.of_nat (String.length c) <= 200)%Z -> excerpt = c).
  { intros Hs. unfold generateExcerpt in Hx.
    apply Z.leb_le in Hs. rewrite Hs in Hx. now injection Hx. }
  assert (Hlong : (200 < Z.of_nat (String.length c))%Z ->
                  exists n, (150 < n <= 200)%nat
                            /\ excerpt = strings.take n c ++ "...").
  { intros Hs.
    destruct (generateExcerpt_prefix c 200) as (n & Hn & Hg); [lia|].
    rewrite Hx in Hg. injection Hg as ->.
    exists n. split; [lia | reflexivity]. }
  split; [exact Hshort|]. split; [exact Hlong|].
  destruct (Z.le_gt_cases (Z.of_nat (String.length c)) 200) as [Hs|Hs].
  - rewrite (Hshort Hs). lia.
  - destruct (Hlong Hs) as (n & Hn & ->).
    rewrite length_append, take_length. cbn [String.length]. lia.
Qed.

Lemma CleanArticle_Excerpt_witness :
  let env :=
    pageEnv cafePage
            (inl (mkArticle "Menu" "" ("<p>" ++ cafe ++ "</p>") cafe None))
            (fun h => (cafe, None)) in
  exists r,
    CleanArticle env sitePage = Some r
    /\ err r = None
    /\ (Length (value r) <= 200)%Z
    /\ Excerpt (value r) = Content (value r).
Proof.
  intros env. eexists.
  split; [vm_compute; reflexivity|].
  split; [reflexivity|].
  split; [vm_compute; discriminate|].
  refine (proj1 (CleanArticle_Excerpt env sitePage _ _ _) _);
    [vm_compute; reflexivity | reflexivity | vm_compute; discriminate].
Defined.

End PipelineCoverage.

(** ** The HTTP handlers *)

Section HandlerCoverage.

Import html Cleaner Server.

Lemma GetCleanedArticle_returns (env : Env) (url : string) :
  exists a, GetCleanedArticle env url = Some a.
Proof.
  unfold GetCleanedArticle.
  destruct (newSugaredLogger env); [eauto|].
  destruct (CleanArticle_returns env url) as [r ->].
  destruct (err r); eauto.
Qed.

Lemma respondArticle_coherent (env : Env) (url : string) (flag : bool) :
  exists out, respondArticle env url flag = Some out /\ coherent out.
Proof.
  unfold respondArticle.
  destruct (GetCleanedArticle_returns env url) as [a ->].
  destruct (String.eqb (Title a) "" && String.eqb (Content a) "") eqn:E.
  - eexists. split; [reflexivity|]. unfold coherent, articleFailure.
    cbn. split; [auto|]. split; [split; discriminate|].
    split; [intros _; repeat split; discriminate | discriminate].
  - eexists. split; [reflexivity|]. unfold coherent. cbn.
    split; [auto|]. split; [split; reflexivity|].
    split; [intros C; now contradiction C|].
    intros _. split; [reflexivity|].
    apply andb_false_iff in E as [E|E]; apply String.eqb_neq in E; auto.
Qed.

(** X20.  Both article handlers always answer, and the answer is
    coherent: the status is 200, 400 or 500; [success] is true exactly
    with 200; every answer other than 200 has a message and carries no
    title, content, markdown or metadata; a 200 answer has no message and
    a title or a content that is not empty. *)
Theorem article_handlers_coherent (env : Env)
        (bound : ArticleRequest + error) (query : string -> string) :
  (exists out, ExtractArticleHandler env bound = Some out /\ coherent out)
  /\ (exists out, ExtractArticleSimpleHandler env query = Some out
                  /\ coherent out).
Proof.
  split.
  - unfold ExtractArticleHandler. destruct bound as [req|e].
    + apply respondArticle_coherent.
    + eexists. split; [reflexivity|]. unfold coherent, articleFailure.
      cbn. split; [auto|]. split; [split; discriminate|].
      split; [intros _; repeat split; discriminate | discriminate].
  - unfold ExtractArticleSimpleHandler.
    destruct (String.eqb (query "url") "").
    + eexists. split; [reflexivity|]. unfold coherent, articleFailure.
      cbn. split; [auto|]. split; [split; discriminate|].
      split; [intros _; repeat split; discriminate | discriminate].
    + apply respondArticle_coherent.
Qed.

Lemma respondArticle_Markdown (env : Env) (url : string) (flag : bool)
      (status : Z) (resp : ArticleResponse) :
  respondArticle env url flag = Some (status, resp) ->
  (flag = false -> resp_Markdown resp = "")
  /\ (flag = true -> status = 200%Z ->
      exists a, GetCleanedArticle env url = Some a
                /\ resp_Markdown resp = Markdown a).
Proof.
  unfold respondArticle.
  destruct (GetCleanedArticle env url) as [a|]; [|discriminate].
  destruct (_ && _).
  - intros [= <- <-]. split; [reflexivity | discriminate].
  - intros [= <- <-]. cbn [resp_Markdown]. split.
    + intros ->. reflexivity.
    + intros -> _. exists a. split; reflexivity.
Qed.

(** X21.  The markdown is part of the answer only on request: the POST
    handler leaves it out unless [include_markdown] is true, the GET
    handler unless the [markdown] parameter is exactly "true"; on
    request, a 200 answer carries the markdown of the cleaned article. *)
Theorem article_handlers_markdown (env : Env) (status : Z)
        (resp : ArticleResponse) :
  (forall req,
      ExtractArticleHandler env (inl req) = Some (status, resp) ->
      (IncludeMarkdown req = false -> resp_Markdown resp = "")
      /\ (IncludeMarkdown req = true -> status = 200%Z ->
          exists a, GetCleanedArticle env (req_URL req) = Some a
                    /\ resp_Markdown resp = Markdown a))
  /\ (forall query,
        ExtractArticleSimpleHandler env query = Some (status, resp) ->
        (query "markdown" <> "true" -> resp_Markdown resp = "")
        /\ (query "markdown" = "true" -> status = 200%Z ->
            exists a, GetCleanedArticle env (query "url") = Some a
                      /\ resp_Markdown resp = Markdown a)).
Proof.
  split.
  - intros req H. exact (respondArticle_Markdown _ _ _ _ _ H).
  - intros query. unfold ExtractArticleSimpleHandler.
    destruct (String.eqb (query "url") "").
    + intros [= <- <-]. split; [reflexivity | discriminate].
    + intros H. apply respondArticle_Markdown in H as [H1 H2]. split.
      * intros Hq. apply H1. now apply String.eqb_neq.
      * intros Hq. apply H2. now apply String.eqb_eq.
Qed.

Lemma article_handlers_markdown_witness :
  let env :=
    pageEnv cafePage
            (inl (mkArticle "Menu" "" ("<p>" ++ cafe ++ "</p>") cafe None))
            (fun h => (cafe, None)) in
  let query := fun k => if String.eqb k "url" then sitePage
                        else if String.eqb k "markdown" then "TRUE"
                        else "" in
  exists resp,
    ExtractArticleSimpleHandler env query = Some (200%Z, resp)
    /\ query "markdown" <> "true"
    /\ resp_Content resp = cafe
    /\ resp_Markdown resp = "".
Proof.
  intros env query. eexists.
  split; [vm_compute; reflexivity|].
  split; [discriminate|].
  split; [reflexivity|].
  refine (proj1 (proj2 (article_handlers_markdown env 200%Z _) query _) _);
    [vm_compute; reflexivity | discriminate].
Defined.

Lemma GetCleanedArticle_fails (env : Env) (url : string) :
  pipelineFails env url ->
  GetCleanedArticle env url = Some zeroCleanedArticle.
Proof.
  unfold GetCleanedArticle, CleanArticle, processed.
  intros [H | [(e & H) | (doc & baseURL & e & H & Hr)]].
  - destruct (newSugaredLogger env); [reflexivity | now contradiction H].
  - rewrite H. now destruct (newSugaredLogger env).
  - unfold processed in Hr. rewrite H, Hr.
    now destruct (newSugaredLogger env).
Qed.

(** X22.  Whatever goes wrong in the pipeline (the logger, the fetch, the
    parse or the readability library), both article handlers give the
    same answer: status 500 with the request URL and the message "Failed
    to extract article content"; the cause is not reported. *)
Theorem article_handlers_failure (env : Env) :
  (forall req,
      pipelineFails env (req_URL req) ->
      ExtractArticleHandler env (inl req)
      = Some (500%Z, articleFailure (req_URL req)
                       "Failed to extract article content"))
  /\ (forall query,
        query "url" <> "" -> pipelineFails env (query "url") ->
        ExtractArticleSimpleHandler env query
        = Some (500%Z, articleFailure (query "url")
                         "Failed to extract article content")).
Proof.
  split.
  - intros req H. unfold ExtractArticleHandler, respondArticle.
    rewrite (GetCleanedArticle_fails _ _ H). reflexivity.
  - intros query Hq H. unfold ExtractArticleSimpleHandler, respondArticle.
    apply String.eqb_neq in Hq. rewrite Hq.
    rewrite (GetCleanedArticle_fails _ _ H). reflexivity.
Qed.

Lemma article_handlers_failure_witness :
  let env := pageEnv twitterTitlePage (inr "no article")
                     (fun h => (h, None)) in
  pipelineFails env sitePage
  /\ ExtractArticleHandler env (inl (mkArticleRequest sitePage true))
     = Some (500%Z, articleFailure sitePage
                      "Failed to extract article content").
Proof.
  intros env.
  assert (H : pipelineFails env sitePage).
  { right. right. eexists. eexists. exists "no article".
    split; reflexivity. }
  split; [exact H|].
  exact (proj1 (article_handlers_failure env)
               (mkArticleRequest sitePage true) H).
Defined.

Lemma extractOpenGraphData_Title_empty (doc : Document) (pageURL : string)
      (baseURL : url.URL) :
  og_Title (extractOpenGraphData doc pageURL baseURL) = ""
  <-> ogContents doc "og:title" = [] /\ titleFallback doc = "".
Proof.
  assert (Ht : og_Title (extractOpenGraphData doc pageURL baseURL)
               = match ogContents doc "og:title" with
                 | [] => titleFallback doc
                 | x :: l => last (x :: l) ""
                 end).
  { change (og_Title (extractOpenGraphData doc pageURL baseURL))
      with (og_Title (scanMeta doc (setURL pageURL emptyOpenGraphData))).
    unfold scanMeta.
    rewrite extractFallbackMetaTags_Title.
    unfold extractTwitterMetaTags.
    rewrite (fold_stepKeeps _ _ twitterMeta_Title).
    unfold extractOGMetaTags.
    rewrite (fold_stepSets _ _ _ _ ogMeta_Title).
    change (og_Title (setURL pageURL emptyOpenGraphData)) with "".
    apply (last_or_fallback (ogContents doc "og:title")).
    apply metaContents_nonempty. }
  rewrite Ht.
  destruct (ogContents doc "og:title") as [|x l] eqn:E.
  - split; [intros H; now split | now intros [_ H]].
  - split; [|intros [C _]; discriminate].
    intros H. exfalso.
    assert (Hne : last (x :: l) "" <> "").
    { apply last_nonempty; [discriminate|].
      rewrite <- E. apply metaContents_nonempty. }
    contradiction.
Qed.

(** X23.  When the page is fetched and parsed, both Open Graph handlers
    answer 500 exactly when the page has neither an [og:title] tag with a
    non-empty content nor a [title] element with a non-blank text,
    whatever other metadata it has; otherwise they answer 200 with the
    metadata of the page. *)
Theorem openGraph_handlers_title (env : Env) (url : string)
        (doc : Document) (baseURL : url.URL) :
  newSugaredLogger env = None ->
  fetchAndParseDocument env url = inl (doc, baseURL) ->
  let untitled := ogContents doc "og:title" = [] /\ titleFallback doc = "" in
  let failure :=
    (500%Z, mkOpenGraphResponse url None false
              "Failed to extract Open Graph data") in
  let success :=
    (200%Z, mkOpenGraphResponse
              url (Some (extractOpenGraphData doc url baseURL)) true "") in
  (untitled ->
   ExtractOpenGraphHandler env (inl (mkOpenGraphRequest url)) = failure
   /\ (forall query, query "url" = url -> url <> "" ->
                     ExtractOpenGraphSimpleHandler env query = failure))
  /\ (~ untitled ->
      ExtractOpenGraphHandler env (inl (mkOpenGraphRequest url)) = success
      /\ (forall query, query "url" = url -> url <> "" ->
                        ExtractOpenGraphSimpleHandler env query = success)).
Proof.
  intros Hl Hf untitled failure success.
  assert (Hg : GetOpenGraphData env url
               = extractOpenGraphData doc url baseURL).
  { unfold GetOpenGraphData, ExtractOpenGraphData. now rewrite Hl, Hf. }
  assert (Hr : respondOpenGraph env url
               = if String.eqb
                      (og_Title (extractOpenGraphData doc url baseURL)) ""
                 then failure else success).
  { unfold respondOpenGraph. now rewrite Hg. }
  assert (Hq : forall query, query "url" = url -> url <> "" ->
                             ExtractOpenGraphSimpleHandler env query
                             = respondOpenGraph env url).
  { intros query Hu Hne. unfold ExtractOpenGraphSimpleHandler.
    rewrite Hu. apply String.eqb_neq in Hne. now rewrite Hne. }
  split.
  - intros Hu.
    apply (extractOpenGraphData_Title_empty doc url baseURL) in Hu.
    apply String.eqb_eq in Hu. rewrite Hu in Hr.
    split; [exact Hr|]. intros query H1 H2. now rewrite Hq.
  - intros Hu.
    assert (Hn : og_Title (extractOpenGraphData doc url baseURL) <> "").
    { intros C. apply Hu.
      now apply (extractOpenGraphData_Title_empty doc url baseURL). }
    apply String.eqb_neq in Hn. rewrite Hn in Hr.
    split; [exact Hr|]. intros query H1 H2. now rewrite Hq.
Qed.

Lemma openGraph_handlers_title_witness :
  let env := pageEnv relativeImagePage (inr "unused") (fun h => (h, None)) in
  newSugaredLogger env = None
  /\ fetchAndParseDocument env sitePage = inl (relativeImagePage, siteBase)
  /\ ogContents relativeImagePage "og:image" <> []
  /\ ExtractOpenGraphHandler env (inl (mkOpenGraphRequest sitePage))
     = (500%Z, mkOpenGraphResponse sitePage None false
                 "Failed to extract Open Graph data").
Proof.
  intros env.
  split; [reflexivity|]. split; [reflexivity|]. split; [discriminate|].
  refine (proj1 (proj1 (openGraph_handlers_title
                          env sitePage relativeImagePage siteBase _ _) _));
    [reflexivity | reflexivity | split; reflexivity].
Defined.

(** X24.  When the logger cannot be built, or the page cannot be fetched
    or parsed, both Open Graph handlers answer 500 with the request URL
    and the message "Failed to extract Open Graph data". *)
Theorem openGraph_handlers_failure (env : Env) (url : string) :
  newSugaredLogger env <> None
  \/ (exists e, fetchAndParseDocument env url = inr e) ->
  ExtractOpenGraphHandler env (inl (mkOpenGraphRequest url))
  = (500%Z, mkOpenGraphResponse url None false
              "Failed to extract Open Graph data")
  /\ (forall query,
        query "url" = url -> url <> "" ->
        ExtractOpenGraphSimpleHandler env query
        = (500%Z, mkOpenGraphResponse url None false
                    "Failed to extract Open Graph data")).
Proof.
  intros H.
  assert (Hg : GetOpenGraphData env url = emptyOpenGraphData).
  { unfold GetOpenGraphData, ExtractOpenGraphData.
    destruct H as [H | [e H]].
    - destruct (newSugaredLogger env); [reflexivity | now contradiction H].
    - rewrite H. now destruct (newSugaredLogger env). }
  assert (Hr : respondOpenGraph env url
               = (500%Z, mkOpenGraphResponse url None false
                           "Failed to extract Open Graph data")).
  { unfold respondOpenGraph. now rewrite Hg. }
  split; [exact Hr|].
  intros query Hu Hne. unfold ExtractOpenGraphSimpleHandler.
  rewrite Hu. apply String.eqb_neq in Hne. now rewrite Hne.
Qed.

Lemma openGraph_handlers_failure_witness :
  let env :=
    {| newSugaredLogger := None;
       httpGet := fun _ => inr "connection refused";
       newDocumentFromReader := fun _ => inl [];
       fromDocument := fun _ => inr "unused";
       convertString := fun h => (h, None);
       formatRFC3339 := fun _ => "";
       renderHtml := fun _ => inr "unused" |} in
  (exists e, fetchAndParseDocument env sitePage = inr e)
  /\ ExtractOpenGraphHandler env (inl (mkOpenGraphRequest sitePage))
     = (500%Z, mkOpenGraphResponse sitePage None false
                 "Failed to extract Open Graph data").
Proof.
  intros env.
  assert (H : exists e, fetchAndParseDocument env sitePage = inr e)
    by (exists "connection refused"; reflexivity).
  split; [exact H|].
  exact (proj1 (openGraph_handlers_failure env sitePage (or_intror H))).
Defined.

End HandlerCoverage.

(** ** The selection from a srcset *)

Section SrcsetCoverage.

Import html strings Cleaner.

Lemma Split_lacks (sep : ascii) (s : string) :
  Forall (fun piece => lacksByte sep piece = true) (Split s sep).
Proof.
  induction s as [|c r IH]; cbn [Split]; [repeat constructor|].
  destruct (Ascii.eqb c sep) eqn:E; [constructor; [reflexivity | exact IH]|].
  destruct (Split r sep) as [|h t].
  - repeat constructor. cbn. now rewrite E.
  - inversion IH as [|x l Hh Ht]; subst.
    constructor; [|exact Ht]. cbn. now rewrite E, Hh.
Qed.

Lemma reverse_nonempty (f : string) : f <> "" -> reverse f <> "".
Proof.
  intros H C. apply (f_equal String.length) in C.
  rewrite reverse_length in C. destruct f; [contradiction | discriminate].
Qed.

Lemma lacksByte_reverse (b : ascii) (f : string) :
  lacksByte b (reverse f) = lacksByte b f.
Proof. unfold reverse. now rewrite lacksByte_reverseOnto, andb_true_r. Qed.

(** A field is not empty, contains no space, and contains no byte that
    the string does not contain. *)
Lemma fieldsFrom_fields (b : ascii) (s : string) :
  forall pending cur,
    lacksByte b s = true ->
    (forall f, cur = Some f ->
               f <> "" /\ lacksByte " " f = true /\ lacksByte b f = true) ->
    Forall (fun f => f <> "" /\ lacksByte " " f = true
                     /\ lacksByte b f = true)
           (fieldsFrom s pending cur).
Proof.
  assert (Hflush : forall cur,
             (forall f, cur = Some f ->
                        f <> "" /\ lacksByte " " f = true
                        /\ lacksByte b f = true) ->
             Forall (fun f => f <> "" /\ lacksByte " " f = true
                              /\ lacksByte b f = true) (flush cur)).
  { intros [f|] H; cbn [flush]; [|constructor].
    destruct (H f eq_refl) as (H1 & H2 & H3).
    constructor; [|constructor].
    rewrite !lacksByte_reverse. split; [now apply reverse_nonempty | auto]. }
  induction s as [|c r IH]; intros pending cur Hs Hcur;
    cbn [fieldsFrom]; [now apply Hflush|].
  cbn [lacksByte] in Hs. apply andb_true_iff in Hs as [Hc Hr].
  destruct pending as [|k]; [|now apply IH].
  destruct (spaceWidth (String c r)) as [|k] eqn:E.
  - apply IH; [exact Hr|]. intros f [= <-].
    split; [discriminate|].
    assert (Hsp : negb (Ascii.eqb c " ") = true).
    { destruct (Ascii.eqb c " ") eqn:Ec; [|reflexivity].
      apply Ascii.eqb_eq in Ec. subst c. discriminate. }
    cbn [lacksByte]. rewrite Hsp, Hc. cbn [andb].
    destruct cur as [f|]; [|split; reflexivity].
    destruct (Hcur f eq_refl) as (_ & H2 & H3). auto.
  - apply Forall_app. split; [now apply Hflush|].
    apply IH; [exact Hr | discriminate].
Qed.

Lemma candidate_url (picture : Node) (c : string * Z) :
  In c (candidates picture) ->
  fst c <> "" /\ lacksByte " " (fst c) = true
  /\ lacksByte "," (fst c) = true.
Proof.
  unfold candidates. intros H.
  apply in_flat_map in H as (source & _ & H).
  destruct (nodeAttr source "srcset") as [srcset|]; [|contradiction].
  apply in_flat_map in H as (piece & Hp & H).
  pose proof (Split_lacks ","%char srcset) as Hl.
  rewrite Forall_forall in Hl. specialize (Hl piece Hp).
  unfold parseCandidate in H.
  pose proof (fieldsFrom_fields ","%char (TrimSpace piece) 0 None
                (lacksByte_TrimSpace _ _ Hl)) as Hf.
  fold (Fields (TrimSpace piece)) in Hf.
  destruct (Fields (TrimSpace piece)) as [|u [|d [|x l]]];
    try contradiction.
  destruct (strconv.Atoi _) as [w|]; [|contradiction].
  destruct H as [<-|[]]. cbn [fst].
  assert (Hu : Forall (fun f => f <> "" /\ lacksByte " " f = true
                                /\ lacksByte "," f = true) [u; d])
    by (apply Hf; discriminate).
  now inversion Hu.
Qed.

(** X25.  [findHighestQualitySource] selects nothing exactly when no
    candidate of the picture has a width greater than 0, and what it
    selects contains neither a space nor a comma. *)
Theorem findHighestQualitySource_selection (picture : Node) :
  (findHighestQualitySource picture = ""
   <-> forall c, In c (candidates picture) -> (snd c <= 0)%Z)
  /\ lacksByte " " (findHighestQualitySource picture) = true
  /\ lacksByte "," (findHighestQualitySource picture) = true.
Proof.
  rewrite findHighestQualitySource_fold.
  destruct (fold_pick_spec (candidates picture) ("", 0%Z))
    as [[Hf Hall] | (pre & c & post & Hcs & Hf & Hlt & _)].
  - rewrite Hf. cbn [fst snd] in *.
    split; [split; [intros _; exact Hall | reflexivity]|].
    split; reflexivity.
  - rewrite Hf.
    assert (Hin : In c (candidates picture))
      by (rewrite Hcs; apply in_elt).
    destruct (candidate_url picture c Hin) as (H1 & H2 & H3).
    split; [split|auto].
    + intros C. contradiction.
    + intros Hall. apply Hall in Hin. cbn [snd] in Hlt. lia.
Qed.

Lemma findHighestQualitySource_selection_witness :
  let picture :=
    ElementNode "picture" []
      [ElementNode "source" [mkAttr "srcset" "a.jpg 0w, b.jpg -5w"] [];
       ElementNode "img" [mkAttr "src" "small.jpg"] []] in
  (forall c, In c (candidates picture) -> (snd c <= 0)%Z)
  /\ findHighestQualitySource picture = "".
Proof.
  intros picture.
  assert (H : forall c, In c (candidates picture) -> (snd c <= 0)%Z).
  { replace (candidates picture) with [("a.jpg", 0%Z); ("b.jpg", (-5)%Z)]
      by (vm_compute; reflexivity).
    intros c [<-|[<-|[]]]; cbn [snd]; lia. }
  split; [exact H|].
  exact (proj2 (proj1 (findHighestQualitySource_selection picture)) H).
Defined.

End SrcsetCoverage.

(** ** The picture collapse *)

Section PictureCollapse.

Import html Cleaner.






End PictureCollapse.

(** ** The earlier pipeline *)

Section LegacyCoverage.

Import html strings Cleaner.

Lemma absoluteSrc_resolveURL (src : string) (baseURL : url.URL) :
  src <> "" -> LegacyPipeline.absoluteSrc src baseURL = resolveURL src baseURL.
Proof.
  intros H. apply String.eqb_neq in H.
  unfold LegacyPipeline.absoluteSrc, resolveURL. rewrite H.
  destruct (HasPrefix src "http://"); [reflexivity|].
  destruct (HasPrefix src "https://"); reflexivity.
Qed.

Lemma ReplaceFirst_nonempty (s old new : string) :
  s <> "" -> new <> "" -> ReplaceFirst s old new <> "".
Proof.
  intros Hs Hn. destruct s as [|c r]; [contradiction|].
  cbn [ReplaceFirst].
  destruct (HasPrefix (String c r) old); [|discriminate].
  destruct new; [contradiction | discriminate].
Qed.

(** X26.  The picture callback of the earlier [mutateFetchReadable],
    which resolves the selected source in line, rewrites an [img] exactly
    as the callback of [processPictureElements] does. *)
Theorem legacy_pictureImg_agrees (hq : string) (baseURL : url.URL)
        (img : Node) :
  LegacyPipeline.pictureImg hq baseURL img = pictureImg hq baseURL img.
Proof.
  destruct img as [d|d|t attrs kids]; [reflexivity | reflexivity |].
  unfold LegacyPipeline.pictureImg, pictureImg.
  destruct (String.eqb hq "") eqn:E; cbn [negb]; [reflexivity|].
  apply String.eqb_neq in E.
  rewrite absoluteSrc_resolveURL; [reflexivity|].
  apply ReplaceFirst_nonempty; [exact E | discriminate].
Qed.

(** X27.  The callback for standalone images of the earlier
    [mutateFetchReadable] and the one of [processImgElements] rewrite the
    attributes of an [img] (with distinct keys) alike, unless the image
    has an empty [src]: the earlier code then writes the root of the
    site, the later one leaves the attribute empty. *)
Theorem legacy_imgAttrs_agrees (baseURL : url.URL)
        (attrs : list Attribute) :
  distinctKeys attrs ->
  (LegacyPipeline.imgAttrs baseURL attrs = imgAttrs baseURL attrs
   <-> getAttr "src" attrs <> Some "")
  /\ (getAttr "src" attrs = Some "" ->
      getAttr "src" (LegacyPipeline.imgAttrs baseURL attrs)
      = Some (url.Scheme baseURL ++ "://" ++ url.Host baseURL ++ "/")
      /\ getAttr "src" (imgAttrs baseURL attrs) = Some "").
Proof.
  intros Hd.
  unfold LegacyPipeline.imgAttrs, imgAttrs.
  set (attrs3 := removeAttr "srcset"
                   (removeAttr "decoding" (removeAttr "loading" attrs))).
  assert (Hsrc : getAttr "src" attrs3 = getAttr "src" attrs).
  { unfold attrs3.
    rewrite !getAttr_removeAttr_other;
      try discriminate; repeat apply distinctKeys_removeAttr; auto. }
  rewrite <- Hsrc.
  destruct (getAttr "src" attrs3) as [src|] eqn:E.
  - destruct (String.eqb src "") eqn:Es.
    + apply String.eqb_eq in Es. subst src.
      cbn [HasPrefix negb andb resolveURL String.eqb].
      unfold LegacyPipeline.absoluteSrc. cbn [HasPrefix negb andb].
      rewrite append_empty_r.
      split.
      * split; [|intros C; now contradiction C].
        intros C. apply (f_equal (getAttr "src")) in C.
        rewrite getAttr_setAttr, E in C.
        injection C as C. apply (f_equal String.length) in C.
        rewrite !length_append in C. cbn in C. lia.
      * intros _. split; [apply getAttr_setAttr | exact E].
    + apply String.eqb_neq in Es.
      split; [|intros [= C]; now contradiction Es].
      split; [intros _ [= C]; now contradiction Es|]. intros _.
      rewrite (absoluteSrc_resolveURL src baseURL Es).
      unfold resolveURL. apply String.eqb_neq in Es. rewrite Es.
      destruct (HasPrefix src "http://") eqn:E1.
      { cbn [negb andb orb]. now rewrite String.eqb_refl. }
      destruct (HasPrefix src "https://") eqn:E2.
      { cbn [negb andb orb]. now rewrite String.eqb_refl. }
      cbn [negb andb orb].
      assert (Hne : forall x, x <> "" -> String.eqb (x ++ src) src = false).
      { intros x Hx. apply String.eqb_neq. intros C.
        apply (f_equal String.length) in C. rewrite length_append in C.
        destruct x; [contradiction | cbn in C; lia]. }
      destruct (HasPrefix src "//").
      { now rewrite (Hne "https:") by discriminate. }
      assert (Hb : forall tail,
                 String.eqb (url.Scheme baseURL ++ "://"
                               ++ url.Host baseURL ++ tail ++ src) src
                 = false).
      { intros tail. rewrite <- !append_assoc. apply Hne.
        rewrite !append_assoc. apply append_nonempty_r.
        discriminate. }
      destruct (HasPrefix src "/").
      * pose proof (Hb "") as Hb0.
        change ("" ++ src) with src in Hb0. now rewrite Hb0.
      * now rewrite (Hb "/").
  - split; [|discriminate]. split; [discriminate | reflexivity].
Qed.

Lemma legacy_imgAttrs_agrees_witness :
  distinctKeys [mkAttr "src" ""; mkAttr "alt" "A"]
  /\ getAttr "src" (LegacyPipeline.imgAttrs siteBase
                      [mkAttr "src" ""; mkAttr "alt" "A"])
     = Some "https://site.com/"
  /\ getAttr "src" (imgAttrs siteBase [mkAttr "src" ""; mkAttr "alt" "A"])
     = Some "".
Proof.
  assert (Hd : distinctKeys [mkAttr "src" ""; mkAttr "alt" "A"]).
  { repeat constructor; simpl; intuition discriminate. }
  split; [exact Hd|].
  exact (proj2 (legacy_imgAttrs_agrees siteBase _ Hd) eq_refl).
Defined.

(** X28.  The additional removal of [script] and [style] elements in the
    earlier [mutateFetchReadable] never finds anything: after
    [removeUnwantedElements] both counts are 0 and the document stays as
    it is. *)
Theorem legacy_extraCleanup_redundant (doc : Document) :
  LegacyPipeline.extraCleanup (fst (removeUnwantedElements doc))
  = (fst (removeUnwantedElements doc), (0%Z, 0%Z)).
Proof.
  assert (H : forall name,
             In (tag name) unwantedSelectors ->
             Find (fst (removeUnwantedElements doc)) (tag name) = []).
  { intros name Hin. unfold removeUnwantedElements.
    apply prune_pass_clean. now left. }
  assert (H1 := H "script" (or_introl eq_refl)).
  assert (H2 := H "style" (or_intror (or_introl eq_refl))).
  unfold LegacyPipeline.extraCleanup.
  rewrite H1, (Remove_nothing _ _ H1), H2, (Remove_nothing _ _ H2).
  reflexivity.
Qed.

End LegacyCoverage.

(** ** The pruner as one pass *)

Section PrunerAsOnePass.

Import html Cleaner.

Lemma detach_ext (m m' : Node -> bool) (n : Node) :
  (forall x, m x = m' x) -> detach m n = detach m' n.
Proof.
  intros H.
  induction n as [d|d|t attrs kids IH] using Node_tree_ind.
  - cbn. now rewrite H.
  - cbn. now rewrite H.
  - cbn [detach]. rewrite H.
    destruct (m' (ElementNode t attrs kids)); [reflexivity|].
    do 2 f_equal.
    induction IH as [|k kids Hk _ IHk]; [reflexivity|].
    cbn [flat_map]. now rewrite Hk, IHk.
Qed.

Lemma detach_none (n : Node) : detach (fun _ => false) n = [n].
Proof.
  induction n as [d|d|t attrs kids IH] using Node_tree_ind;
    [reflexivity | reflexivity |].
  cbn [detach]. do 2 f_equal. now apply flat_map_singletons.
Qed.

(** Removing the matches of a selector from what another removal left is
    one removal with the disjunction of the two tests. *)
Lemma detach_detach (m : Node -> bool) (sel : Selector) (n : Node) :
  flat_map (detach (matches sel)) (detach m n)
  = detach (fun x => m x || matches sel x) n.
Proof.
  induction n as [d|d|t attrs kids IH] using Node_tree_ind.
  - cbn. destruct (m (TextNode d)); reflexivity.
  - cbn. destruct (m (CommentNode d)); reflexivity.
  - cbn [detach].
    destruct (m (ElementNode t attrs kids)); [reflexivity|].
    cbn [flat_map orb detach]. rewrite app_nil_r.
    rewrite (matches_children sel t attrs _ kids).
    destruct (matches sel (ElementNode t attrs kids)); [reflexivity|].
    do 2 f_equal.
    induction IH as [|k kids Hk _ IHk]; [reflexivity|].
    cbn [flat_map]. now rewrite flat_map_app, Hk, IHk.
Qed.

Lemma prune_pass_detach (sels : list Selector) :
  forall (m : Node -> bool) (doc : Document) (c : Z),
    fst (fold_left removeStep sels (flat_map (detach m) doc, c))
    = flat_map
        (detach (fun x => m x || existsb (fun sel => matches sel x) sels))
        doc.
Proof.
  induction sels as [|s sels IH]; intros m doc c; cbn [fold_left].
  - cbn [fst existsb]. apply flat_map_ext. intros n.
    apply detach_ext. intros x. now rewrite orb_false_r.
  - destruct (removeStep (flat_map (detach m) doc, c) s) as [doc' c'] eqn:E.
    assert (Hd : doc' = Remove (flat_map (detach m) doc) s).
    { change doc' with (fst (doc', c')). rewrite <- E.
      apply removeStep_doc. }
    assert (Hr : doc' = flat_map (detach (fun x => m x || matches s x)) doc).
    { rewrite Hd. unfold Remove.
      clear. induction doc as [|n doc IHd]; [reflexivity|].
      cbn [flat_map]. now rewrite flat_map_app, detach_detach, IHd. }
    rewrite Hr, IH. apply flat_map_ext. intros n.
    apply detach_ext. intros x. cbn [existsb]. now rewrite orb_assoc.
Qed.

(** X29.  The pruned document is the document without the elements that
    match at least one unwanted selector, each removed with its subtree:
    for the tree the order of the selectors does not matter. *)
Theorem removeUnwantedElements_one_pass (doc : Document) :
  fst (removeUnwantedElements doc) = flat_map (detach unwanted) doc.
Proof.
  unfold removeUnwantedElements.
  assert (H0 : doc = flat_map (detach (fun _ => false)) doc).
  { symmetry. apply flat_map_singletons, Forall_forall.
    intros n _. apply detach_none. }
  rewrite H0 at 1. rewrite prune_pass_detach.
  apply flat_map_ext. intros n. apply detach_ext. reflexivity.
Qed.

End PrunerAsOnePass.
